(** * swarm-comment-js: the stream-reconciliation and polling engine

    A shallow embedding of [src/lib/core.ts] (class [SwarmComment]),
    [src/lib/history.ts] (class [SwarmHistory]), [src/utils/bee.ts],
    [src/utils/common.ts] ([indexStrToBigint], [remove0x],
    [retryAwaitableAsync]), [src/utils/validation.ts]
    ([validateUserSignature]) and the chunk helpers
    ([makeContentAddressedChunk], [makeSingleOwnerChunk]).

    JavaScript [bigint] values are [Z]; strings are [string]; a value that
    may be [undefined] is an [option]; a [Promise] that may reject is a
    computation in the state-and-exception monad [M] below.  The storage
    node, the clock, the id generator and the cryptographic primitives are
    collaborators outside the repository: they are the methods of the class
    [Collaborators], and every theorem holds for all of their behaviours.
    Calls on the emitter, the error handler and the storage collaborator are
    recorded in the state, in the order the code makes them; logger calls are
    left out.  An async function runs here from its first statement to its
    last, its awaits settled in turn; [sendMessage] is given in two halves as
    well, up to the write and from the write on. *)

From Stdlib Require Import ZArith List String Ascii Bool Lia Sorted Permutation.
Import ListNotations.

Local Open Scope string_scope.
Local Open Scope Z_scope.

(** ** JavaScript built-ins used by the index codec *)

Module Js.

(** A [Number] as far as [parseInt] can produce one: not-a-number, an
    integer-valued double, or an infinity. *)
Inductive Number :=
| NaN
| Fin (z : Z)
| Infinity.

Definition code (c : ascii) : Z := Z.of_N (N_of_ascii c).

(** The value of a code unit as a digit, letters counting from ten. *)
Definition digitValue (c : ascii) : option Z :=
  let n := code c in
  if (48 <=? n) && (n <=? 57) then Some (n - 48)
  else if (97 <=? n) && (n <=? 122) then Some (n - 87)
  else if (65 <=? n) && (n <=? 90) then Some (n - 55)
  else None.

Definition radixDigit (R : Z) (c : ascii) : option Z :=
  match digitValue c with
  | Some d => if d <? R then Some d else None
  | None => None
  end.

(** White space that [parseInt] skips (the code units below 256). *)
Definition isWhiteSpace (c : ascii) : bool :=
  let n := code c in
  ((9 <=? n) && (n <=? 13)) || (n =? 32) || (n =? 160).

Fixpoint trimStart (s : string) : string :=
  match s with
  | String c r => if isWhiteSpace c then trimStart r else s
  | EmptyString => EmptyString
  end.

(** Digit values of the longest prefix of [s] made of radix-[R] digits. *)
Fixpoint takeDigits (R : Z) (s : string) : list Z :=
  match s with
  | String c r =>
      match radixDigit R c with
      | Some d => d :: takeDigits R r
      | None => []
      end
  | EmptyString => []
  end.

Definition mathInt (R : Z) (ds : list Z) : Z :=
  fold_left (fun acc d => acc * R + d) ds 0.

(** The double nearest to a non-negative integer, ties to even. *)
Definition toDouble (m : Z) : Number :=
  if m <? 2 ^ 53 then Fin m
  else
    let e := Z.log2 m - 52 in
    let q := Z.shiftr m e in
    let r := m mod 2 ^ e in
    let half := 2 ^ (e - 1) in
    let q' := if (half <? r) || ((r =? half) && Z.odd q) then q + 1 else q in
    let v := q' * 2 ^ e in
    if 2 ^ 1024 <=? v then Infinity else Fin v.

Definition negate (x : Number) : Number :=
  match x with
  | Fin z => Fin (- z)
  | other => other
  end.

Definition stripHexPrefix (s : string) : string :=
  match s with
  | String c0 (String c1 r) =>
      if ((c0 =? "0") && ((c1 =? "x") || (c1 =? "X")))%char then r else s
  | _ => s
  end.

(** [parseInt(string, radix)] for a radix between 2 and 36. *)
Definition parseInt (s : string) (radix : Z) : Number :=
  let s1 := trimStart s in
  let '(neg, s2) :=
    match s1 with
    | String c r =>
        if (c =? "-")%char then (true, r)
        else if (c =? "+")%char then (false, r)
        else (false, s1)
    | EmptyString => (false, s1)
    end in
  let s3 := if radix =? 16 then stripHexPrefix s2 else s2 in
  match takeDigits radix s3 with
  | [] => NaN
  | ds => let x := toDouble (mathInt radix ds) in
          if neg then negate x else x
  end.

(** [/[a-fA-F]/.test(s)] *)
Fixpoint hasHexLetter (s : string) : bool :=
  match s with
  | String c r =>
      let n := code c in
      ((97 <=? n) && (n <=? 102)) || ((65 <=? n) && (n <=? 70)) || hasHexLetter r
  | EmptyString => false
  end.

Definition startsWith0 (s : string) : bool :=
  match s with
  | String c _ => (c =? "0")%char
  | EmptyString => false
  end.

Definition digitChar (d : Z) : ascii :=
  ascii_of_N (Z.to_N (if d <? 10 then 48 + d else 87 + d)).

(** [n.toString()] on a non-negative [bigint]: decimal, no leading zero.
    [fuel] bounds the number of digits. *)
Fixpoint decDigits (fuel : nat) (n : Z) : string :=
  match fuel with
  | O => EmptyString
  | S f =>
      if n <? 10 then String (digitChar n) EmptyString
      else decDigits f (n / 10) ++ String (digitChar (n mod 10)) EmptyString
  end.

Definition bigintToString (n : Z) : string :=
  if n <? 0 then String "-"%char (decDigits (S (Z.to_nat (Z.log2 (- n)))) (- n))
  else decDigits (S (Z.to_nat (Z.log2 n))) n.

(** The [k] low hexadecimal digits of [n], most significant first. *)
Fixpoint hexDigits (k : nat) (n : Z) : string :=
  match k with
  | O => EmptyString
  | S k' => hexDigits k' (n / 16) ++ String (digitChar (n mod 16)) EmptyString
  end.

(** A string all of whose code units are radix-[R] digits. *)
Definition digitString (R : Z) (s : string) : Prop :=
  List.length (takeDigits R s) = String.length s.

End Js.

(** ** Errors *)

(** What the engine throws, and what its collaborators may throw at it. *)
Inductive Exn :=
| RangeErrorBigInt                       (* BigInt(NaN), BigInt(Infinity) *)
| WriteFailedEmptyResponse               (* 'Write failed, empty response!' *)
| CommentCheckFailedEmptyResponse        (* 'Comment check failed, empty response!' *)
| WriteVerificationFailed (expected got : string) (expectedTs gotTs : Z)
| SignatureVerificationFailed            (* 'Signature verification failed!' *)
| AddressMismatch                        (* 'The provided address does not match ...' *)
| External (notFound : bool) (msg : string).

Inductive Res (A : Type) :=
| Ok (a : A)
| Throw (e : Exn).
Arguments Ok {A} a.
Arguments Throw {A} e.

(** ** FeedIndex (bee-js)

    A feed index is eight bytes, big-endian: a number from 0 to 2^64 - 1.
    [fromBigInt] keeps the low 64 bits of its argument, [toString] is the
    sixteen hexadecimal digits, and [MINUS_ONE] is ["ffffffffffffffff"]. *)

Module FeedIndex.

Definition t := Z.

Definition fromBigInt (x : Z) : t := x mod 2 ^ 64.
Definition toBigInt (i : t) : Z := i.
Definition MINUS_ONE : t := 2 ^ 64 - 1.
Definition equals (a b : t) : bool := a =? b.
Definition toString (i : t) : string := Js.hexDigits 16 i.

End FeedIndex.

Definition FEED_INDEX_ZERO : FeedIndex.t := FeedIndex.fromBigInt 0.
Definition COMMENTS_TO_READ : Z := 9.

(** ** utils/common.ts *)

(** [BigInt(x)] on a [Number] *)
Definition BigInt (x : Js.Number) : Res Z :=
  match x with
  | Js.Fin z => Ok z
  | _ => Throw RangeErrorBigInt
  end.

Definition indexStrToBigint (indexStr : option string) : Res (option Z) :=
  match indexStr with
  | None => Ok None
  | Some EmptyString => Ok None
  | Some s =>
      let isHex := Js.hasHexLetter s || Js.startsWith0 s || (10 <? Z.of_nat (String.length s)) in
      match BigInt (Js.parseInt s (if isHex then 16 else 10)) with
      | Ok z => Ok (Some z)
      | Throw e => Throw e
      end
  end.

(** ** Data model (@solarpunkltd/comment-system, interfaces/) *)

Inductive MessageType := TEXT | THREAD | REACTION.

Definition MessageType_eq_dec (a b : MessageType) : {a = b} + {a <> b}.
Proof. decide equality. Defined.

Module MessageData.
Record t := mk {
  id : string;
  username : string;
  address : string;
  topic : string;
  signature : option string;
  timestamp : Z;
  type : MessageType;
  targetMessageId : option string;
  message : string;
  index : option string;
  isLegacy : option bool;
}.

Definition withIndex (i : string) (m : t) : t :=
  mk (id m) (username m) (address m) (topic m) (signature m) (timestamp m)
     (type m) (targetMessageId m) (message m) (Some i) (isLegacy m).
End MessageData.

Module Options.
Record t := mk {
  identifier : string;
  address : string;
  beeApiUrl : string;
  stamp : string;
}.
End Options.

(** What [readReactionsWithIndex] resolves to. *)
Record ReactionsWithIndex := {
  messages : list MessageData.t;
  nextIndex : string;
}.

Definition UploadResult := string.

Record PreloadOptions := {
  firstIndex : option Z;
  latestIndex : option Z;
  preloadReactionIndex : option Z;
}.

Inductive JsonValue := JStr (s : string) | JNum (z : Z).

(** ** Observations: calls on the emitter, the error handler and the store *)

Inductive EventName :=
| LOADING_INIT
| LOADING_PREVIOUS_MESSAGES
| MESSAGE_RECEIVED
| MESSAGE_REQUEST_INITIATED
| MESSAGE_REQUEST_UPLOADED
| MESSAGE_REQUEST_ERROR
| CRITICAL_ERROR.

Inductive Payload :=
| PMessage (m : MessageData.t)
| PEmptyObject                            (* {} as MessageData *)
| PBool (b : bool)
| PError (e : Exn).

Inductive EmitterCall :=
| Emit (name : EventName) (payload : Payload)
| CleanAll.

Inductive StoreCall :=
| ReadSingle (ix : option FeedIndex.t) (o : Options.t)
| ReadRange (from to : FeedIndex.t) (o : Options.t)
| ReadReactions (ix : option FeedIndex.t) (o : Options.t)
| WriteComment (m : MessageData.t) (ix : FeedIndex.t) (o : Options.t)
| WriteReactions (snapshot : list MessageData.t) (ix : FeedIndex.t) (o : Options.t).

(** ** The collaborators *)

(** [Env] is the world outside the process: the storage node with whatever
    other writers do to it, the clock and the id generator.  A call takes the
    world and gives it back, together with what the promise settled to. *)
Class Collaborators (Env : Type) := {
  (* @solarpunkltd/comment-system *)
  readSingleComment :
    option FeedIndex.t -> Options.t -> Env -> Res (option MessageData.t) * Env;
  readCommentsInRange :
    FeedIndex.t -> FeedIndex.t -> Options.t -> Env -> Res (option (list MessageData.t)) * Env;
  readReactionsWithIndex :
    option FeedIndex.t -> Options.t -> Env -> Res ReactionsWithIndex * Env;
  writeCommentToIndex :
    MessageData.t -> FeedIndex.t -> Options.t -> Env -> Res (option UploadResult) * Env;
  writeReactionsToIndex :
    list MessageData.t -> FeedIndex.t -> Options.t -> Env -> Res (option UploadResult) * Env;
  updateReactions : list MessageData.t -> MessageData.t -> option (list MessageData.t);
  (* uuid, Date *)
  uuidv4 : Env -> string * Env;
  Date_now : Env -> Z * Env;
  (* bee-js, cafe-utility, JSON *)
  JSON_stringify : list (string * JsonValue) -> string;
  keccak256 : string -> string;
  ethAddressToString : string -> string;          (* new EthAddress(a).toString() *)
  signerAddress : string -> string;               (* new PrivateKey(k).publicKey().address().toString() *)
  sign : string -> string -> string;              (* new PrivateKey(k).sign(text).toHex() *)
  signatureIsValid : string -> string -> string -> Res bool;
                                                  (* new Signature(sig).isValid(digest, address) *)
}.

(** ** utils/validation.ts *)

Section Validation.
Context {Env : Type} {C : Collaborators Env}.

(** ["\x19Ethereum Signed Message:\n32"] *)
Definition signedMessagePrefix : string :=
  String (ascii_of_nat 25) "Ethereum Signed Message:" ++ String (ascii_of_nat 10) "32".

Definition digestOf (data : MessageData.t) : string :=
  let message :=
    [ ("username", JStr (MessageData.username data));
      ("address", JStr (MessageData.address data));
      ("timestamp", JNum (MessageData.timestamp data));
      ("message", JStr (MessageData.message data)) ] in
  signedMessagePrefix ++ keccak256 (JSON_stringify message).

(** The body of the [try] block: [Ok true] or a throw. *)
Definition validateUserSignature_try (data : MessageData.t) : Res bool :=
  let digest := digestOf data in
  let isValidSig :=
    match MessageData.signature data with
    | None => Ok false
    | Some sig => signatureIsValid sig digest (MessageData.address data)
    end in
  match isValidSig with
  | Ok true => Ok true
  | Ok false => Throw SignatureVerificationFailed
  | Throw e => Throw e
  end.

Definition validateUserSignature (data : MessageData.t) : bool :=
  match MessageData.isLegacy data with
  | Some true => true
  | _ =>
      match validateUserSignature_try data with
      | Ok b => b
      | Throw _ => false
      end
  end.

End Validation.

(** ** A state-and-exception monad

    A thrown exception keeps the state reached so far, as a rejected promise
    keeps the assignments made before the throw. *)

Definition M (S A : Type) : Type := S -> Res A * S.

Definition ret {S A} (a : A) : M S A := fun s => (Ok a, s).

Definition bind {S A B} (m : M S A) (k : A -> M S B) : M S B :=
  fun s =>
    match m s with
    | (Ok a, s') => k a s'
    | (Throw e, s') => (Throw e, s')
    end.

Definition throw {S A} (e : Exn) : M S A := fun s => (Throw e, s).

Definition gets {S A} (f : S -> A) : M S A := fun s => (Ok (f s), s).

Definition modify {S} (f : S -> S) : M S unit := fun s => (Ok tt, f s).

Definition liftRes {S A} (r : Res A) : M S A := fun s => (r, s).

(** [try { body } catch (error) { handler }] *)
Definition tryCatch {S A} (body : M S A) (handler : Exn -> M S A) : M S A :=
  fun s =>
    match body s with
    | (Ok a, s') => (Ok a, s')
    | (Throw e, s') => handler e s'
    end.

(** [try { body } finally { fin }] *)
Definition tryFinally {S A} (body : M S A) (fin : M S unit) : M S A :=
  fun s =>
    let (r, s') := body s in
    match fin s' with
    | (Ok _, s'') => (r, s'')
    | (Throw e, s'') => (Throw e, s'')
    end.

(** [Promise.allSettled] on one promise: never rejects. *)
Definition settle {S A} (m : M S A) : M S (Res A) :=
  fun s => let (r, s') := m s in (Ok r, s').

(** A block with a local variable of type [L]. *)
Definition local {S L A} (m : M S A) : M (S * L) A :=
  fun '(s, l) => let (r, s') := m s in (r, (s', l)).

Definition getLocal {S L} : M (S * L) L := fun '(s, l) => (Ok l, (s, l)).

Definition setLocal {S L} (l : L) : M (S * L) unit := fun '(s, _) => (Ok tt, (s, l)).

Definition withLocal {S L A} (l : L) (m : M (S * L) A) : M S A :=
  fun s => let '(r, (s', _)) := m (s, l) in (r, s').

Declare Scope monad_scope.
Delimit Scope monad_scope with monad.
Notation "x <- c ;; k" := (bind c (fun x => k))
  (at level 61, c at next level, right associativity) : monad_scope.
Notation "c ;; k" := (bind c (fun _ => k))
  (at level 61, right associativity) : monad_scope.
Local Open Scope monad_scope.

Definition when {S} (b : bool) (m : M S unit) : M S unit := if b then m else ret tt.

(** A [for] loop over an array. *)
Fixpoint forEach {S A} (xs : list A) (body : A -> M S unit) : M S unit :=
  match xs with
  | [] => ret tt
  | x :: rest => body x ;; forEach rest body
  end.

(** ** The session state: [SwarmComment] with its [SwarmHistory] *)

Record UserDetails := {
  privateKey : string;
  ownAddress : string;
  nickname : string;
  ownIndex : Z;
}.

Record State (Env : Type) := mkState {
  userDetails : UserDetails;
  commentOptions : Options.t;
  reactionOptions : Options.t;
  topic : string;
  pollInterval : Z;
  fetchProcessRunning : bool;
  stopFetch : bool;
  reactionIndex : Z;
  isSending : bool;
  startIndex : Z;                          (* history.startIndex *)
  emitter : list EmitterCall;              (* calls on the emitter, oldest first *)
  errorHandler : list (Exn * string);      (* handleError(error, context) calls *)
  store : list StoreCall;                  (* calls on the storage collaborator *)
  env : Env;
}.
Arguments mkState {Env}.
Arguments userDetails {Env}.
Arguments commentOptions {Env}.
Arguments reactionOptions {Env}.
Arguments topic {Env}.
Arguments pollInterval {Env}.
Arguments fetchProcessRunning {Env}.
Arguments stopFetch {Env}.
Arguments reactionIndex {Env}.
Arguments isSending {Env}.
Arguments startIndex {Env}.
Arguments emitter {Env}.
Arguments errorHandler {Env}.
Arguments store {Env}.
Arguments env {Env}.

Section Setters.
Context {Env : Type}.
Implicit Type st : State Env.

Definition set_ownIndex (v : Z) st : State Env :=
  mkState {| privateKey := privateKey (userDetails st);
             ownAddress := ownAddress (userDetails st);
             nickname := nickname (userDetails st);
             ownIndex := v |}
          (commentOptions st) (reactionOptions st) (topic st) (pollInterval st)
          (fetchProcessRunning st) (stopFetch st) (reactionIndex st) (isSending st)
          (startIndex st) (emitter st) (errorHandler st) (store st) (env st).

Definition set_fetchProcessRunning (v : bool) st : State Env :=
  mkState (userDetails st) (commentOptions st) (reactionOptions st) (topic st) (pollInterval st)
          v (stopFetch st) (reactionIndex st) (isSending st)
          (startIndex st) (emitter st) (errorHandler st) (store st) (env st).

Definition set_stopFetch (v : bool) st : State Env :=
  mkState (userDetails st) (commentOptions st) (reactionOptions st) (topic st) (pollInterval st)
          (fetchProcessRunning st) v (reactionIndex st) (isSending st)
          (startIndex st) (emitter st) (errorHandler st) (store st) (env st).

Definition set_reactionIndex (v : Z) st : State Env :=
  mkState (userDetails st) (commentOptions st) (reactionOptions st) (topic st) (pollInterval st)
          (fetchProcessRunning st) (stopFetch st) v (isSending st)
          (startIndex st) (emitter st) (errorHandler st) (store st) (env st).

Definition set_isSending (v : bool) st : State Env :=
  mkState (userDetails st) (commentOptions st) (reactionOptions st) (topic st) (pollInterval st)
          (fetchProcessRunning st) (stopFetch st) (reactionIndex st) v
          (startIndex st) (emitter st) (errorHandler st) (store st) (env st).

Definition set_startIndex (v : Z) st : State Env :=
  mkState (userDetails st) (commentOptions st) (reactionOptions st) (topic st) (pollInterval st)
          (fetchProcessRunning st) (stopFetch st) (reactionIndex st) (isSending st)
          v (emitter st) (errorHandler st) (store st) (env st).

Definition set_emitter (v : list EmitterCall) st : State Env :=
  mkState (userDetails st) (commentOptions st) (reactionOptions st) (topic st) (pollInterval st)
          (fetchProcessRunning st) (stopFetch st) (reactionIndex st) (isSending st)
          (startIndex st) v (errorHandler st) (store st) (env st).

Definition set_errorHandler (v : list (Exn * string)) st : State Env :=
  mkState (userDetails st) (commentOptions st) (reactionOptions st) (topic st) (pollInterval st)
          (fetchProcessRunning st) (stopFetch st) (reactionIndex st) (isSending st)
          (startIndex st) (emitter st) v (store st) (env st).

Definition set_store (v : list StoreCall) st : State Env :=
  mkState (userDetails st) (commentOptions st) (reactionOptions st) (topic st) (pollInterval st)
          (fetchProcessRunning st) (stopFetch st) (reactionIndex st) (isSending st)
          (startIndex st) (emitter st) (errorHandler st) v (env st).

Definition set_env (v : Env) st : State Env :=
  mkState (userDetails st) (commentOptions st) (reactionOptions st) (topic st) (pollInterval st)
          (fetchProcessRunning st) (stopFetch st) (reactionIndex st) (isSending st)
          (startIndex st) (emitter st) (errorHandler st) (store st) v.

(** [this.emitter.emit(name, payload)] *)
Definition emit (name : EventName) (payload : Payload) : M (State Env) unit :=
  modify (fun st => set_emitter (emitter st ++ [Emit name payload]) st).

(** [this.errorHandler.handleError(error, context)] *)
Definition handleError (error : Exn) (context : string) : M (State Env) unit :=
  modify (fun st => set_errorHandler (errorHandler st ++ [(error, context)]) st).

(** An awaited call on the storage collaborator. *)
Definition call {A} (c : StoreCall) (f : Env -> Res A * Env) : M (State Env) A :=
  fun st =>
    let (r, e') := f (env st) in
    (r, set_env e' (set_store (store st ++ [c]) st)).

(** A synchronous call on the clock or the id generator. *)
Definition ask {A} (f : Env -> A * Env) : M (State Env) A :=
  fun st => let (a, e') := f (env st) in (Ok a, set_env e' st).

End Setters.

(** JavaScript truthiness. *)
Definition truthyBigint (x : option Z) : bool :=
  match x with
  | Some z => negb (z =? 0)
  | None => false
  end.

Definition truthyString (x : option string) : option string :=
  match x with
  | Some EmptyString => None
  | other => other
  end.

Definition payloadOf (data : option MessageData.t) : Payload :=
  match data with
  | Some m => PMessage m
  | None => PEmptyObject
  end.

Definition isNotFoundError (error : Exn) : bool :=
  match error with
  | External true _ => true
  | _ => false
  end.

(** ** utils/bee.ts, lib/history.ts, lib/core.ts *)

Section Engine.
Context {Env : Type} {C : Collaborators Env}.

Local Abbreviation St := (State Env).

(** *** utils/common.ts: retryAwaitableAsync (the delay is not modelled) *)
Fixpoint retryAwaitableAsync {A} (fn : M St A) (retries : nat) : M St A :=
  tryCatch fn
    (fun error =>
       match retries with
       | S r => retryAwaitableAsync fn r
       | O => handleError error "Utils.retryAwaitableAsync" ;; throw error
       end).

(** *** utils/bee.ts *)
Definition fetchMessagesInRange (startIndex endIndex : Z) (commentOptions : Options.t)
  : M St unit :=
  let from := FeedIndex.fromBigInt startIndex in
  let to := FeedIndex.fromBigInt endIndex in
  comments <- call (ReadRange from to commentOptions)
                   (readCommentsInRange from to commentOptions) ;;
  match comments with
  | None => ret tt
  | Some comments =>
      forEach comments
        (fun c =>
           if negb (validateUserSignature c) then ret tt
           else emit MESSAGE_RECEIVED (PMessage c))
  end.

(** *** SwarmHistory *)

Definition history_fetchLatestMessage : M St (option MessageData.t * FeedIndex.t) :=
  st <- gets id ;;
  latestComment <- call (ReadSingle None (commentOptions st))
                        (readSingleComment None (commentOptions st)) ;;
  parsedIx <- liftRes (indexStrToBigint
                         (match latestComment with
                          | Some c => MessageData.index c
                          | None => None
                          end)) ;;
  match latestComment, parsedIx with
  | Some c, Some ix =>
      if negb (truthyBigint parsedIx) then ret (None, FeedIndex.MINUS_ONE)
      else ret (Some c, FeedIndex.fromBigInt ix)
  | _, _ => ret (None, FeedIndex.MINUS_ONE)
  end.

Definition history_init (firstIndex : option Z) : M St unit :=
  tryCatch
    (match firstIndex with
     | Some f => modify (set_startIndex f)
     | None =>
         r <- history_fetchLatestMessage ;;
         let '(comment, index) := r in
         when (negb (FeedIndex.equals index FeedIndex.MINUS_ONE))
              (emit MESSAGE_RECEIVED (payloadOf comment)) ;;
         modify (set_startIndex (FeedIndex.toBigInt index))
     end)
    (fun error =>
       if isNotFoundError error then ret tt
       else handleError error "SwarmHistory.init").

Definition fetchPreviousMessageState : M St unit :=
  st <- gets id ;;
  if startIndex st <=? 0 then ret tt
  else
    let newStartIndex :=
      if COMMENTS_TO_READ <? startIndex st then startIndex st - COMMENTS_TO_READ else 0 in
    fetchMessagesInRange newStartIndex (startIndex st - 1) (commentOptions st) ;;
    modify (set_startIndex newStartIndex).

Definition fetchLatestReactionState (index prevIndex : option Z) : M St FeedIndex.t :=
  st <- gets id ;;
  let ix := option_map FeedIndex.fromBigInt index in
  reactionState <- call (ReadReactions ix (reactionOptions st))
                        (readReactionsWithIndex ix (reactionOptions st)) ;;
  nextIxBigInt <- liftRes (indexStrToBigint (Some (nextIndex reactionState))) ;;
  match nextIxBigInt with
  | None => ret FEED_INDEX_ZERO
  | Some next =>
      if negb (truthyBigint nextIxBigInt) || (next <? 0)
         || FeedIndex.equals (FeedIndex.fromBigInt next) FeedIndex.MINUS_ONE
      then ret FEED_INDEX_ZERO
      else
        when (match prevIndex with
              | Some prev => prev + 1 <? next
              | None => false
              end)
             (forEach (messages reactionState)
                      (fun reaction => emit MESSAGE_RECEIVED (PMessage reaction))) ;;
        ret (FeedIndex.fromBigInt next)
  end.

Definition hasPreviousMessages (st : St) : bool := 0 <? startIndex st.

Definition cleanup : M St unit := modify (set_startIndex (-1)).

(** *** SwarmComment *)

Definition fetchLatestMessage : M St unit :=
  st <- gets id ;;
  if isSending st then ret tt
  else
    tryCatch
      (r <- history_fetchLatestMessage ;;
       let '(comment, index) := r in
       st <- gets id ;;
       when (negb (FeedIndex.equals index FeedIndex.MINUS_ONE)
             && (ownIndex (userDetails st) <? FeedIndex.toBigInt index))
            (modify (set_ownIndex (FeedIndex.toBigInt index)) ;;
             emit MESSAGE_RECEIVED (payloadOf comment)))
      (fun err => handleError err "Comment.fetchLatestMessage").

Definition fetchLatestReactions (index : option Z) : M St unit :=
  tryCatch
    (st <- gets id ;;
     next <- fetchLatestReactionState index (Some (reactionIndex st)) ;;
     let reactionNextIndex := FeedIndex.toBigInt next in
     st <- gets id ;;
     when (reactionIndex st <? reactionNextIndex - 1)
          (modify (set_reactionIndex (reactionNextIndex - 1))))
    (fun err => handleError err "Comment.fetchLatestReactions").

Definition verifyWriteSuccess (index : FeedIndex.t) (writeResult : option UploadResult)
           (data : option MessageData.t) : M St unit :=
  match writeResult with
  | None => throw WriteFailedEmptyResponse
  | Some _ =>
      match data with
      | None => ret tt
      | Some data =>
          st <- gets id ;;
          dataCheck <- call (ReadSingle (Some index) (commentOptions st))
                            (readSingleComment (Some index) (commentOptions st)) ;;
          match dataCheck with
          | None => throw CommentCheckFailedEmptyResponse
          | Some dataCheck =>
              if negb (MessageData.id dataCheck =? MessageData.id data)%string
                 || negb (MessageData.timestamp dataCheck =? MessageData.timestamp data)
              then throw (WriteVerificationFailed
                            (MessageData.message data) (MessageData.message dataCheck)
                            (MessageData.timestamp data) (MessageData.timestamp dataCheck))
              else ret tt
          end
      end
  end.

Definition getSignature (message : string) : M St string :=
  st <- gets id ;;
  let ownAddress := ethAddressToString (ownAddress (userDetails st)) in
  let privateKey := privateKey (userDetails st) in
  if negb (signerAddress privateKey =? ownAddress)%string then throw AddressMismatch
  else
    timestamp <- ask Date_now ;;
    ret (sign privateKey
              (JSON_stringify
                 [ ("username", JStr (nickname (userDetails st)));
                   ("address", JStr ownAddress);
                   ("message", JStr message);
                   ("timestamp", JNum timestamp) ])).

Definition orEmpty (x : option (list MessageData.t)) : list MessageData.t :=
  match x with
  | Some l => l
  | None => []
  end.

(** [sendMessage], REACTION branch, up to the write (lines 135-145):
    resync, choose the slot, merge the snapshot, set the guard. *)
Definition sendReaction_prepare (prevState : option (list MessageData.t))
  : M (St * MessageData.t) (list MessageData.t * FeedIndex.t) :=
  local (fetchLatestReactions None) ;;
  st <- local (gets id) ;;
  let reactionNextIndex :=
    if reactionIndex st =? -1 then FEED_INDEX_ZERO
    else FeedIndex.fromBigInt (reactionIndex st + 1) in
  messageObj <- getLocal ;;
  setLocal (MessageData.withIndex (FeedIndex.toString reactionNextIndex) messageObj) ;;
  messageObj <- getLocal ;;
  let newReactionState := orEmpty (updateReactions (orEmpty prevState) messageObj) in
  local (modify (set_isSending true)) ;;
  ret (newReactionState, reactionNextIndex).

(** REACTION branch from the write on (lines 147-151). *)
Definition sendReaction_commit (newReactionState : list MessageData.t)
           (reactionNextIndex : FeedIndex.t) : M (St * MessageData.t) unit :=
  st <- local (gets id) ;;
  res <- local (call (WriteReactions newReactionState reactionNextIndex (reactionOptions st))
                     (writeReactionsToIndex newReactionState reactionNextIndex
                                            (reactionOptions st))) ;;
  local (verifyWriteSuccess reactionNextIndex res None) ;;
  local (modify (set_reactionIndex (FeedIndex.toBigInt reactionNextIndex))).

(** TEXT/THREAD branch up to the write (lines 154-162). *)
Definition sendText_prepare : M (St * MessageData.t) Z :=
  local fetchLatestMessage ;;
  st <- local (gets id) ;;
  let nextIndex :=
    if ownIndex (userDetails st) =? -1 then 0 else ownIndex (userDetails st) + 1 in
  messageObj <- getLocal ;;
  setLocal (MessageData.withIndex
              (FeedIndex.toString (FeedIndex.fromBigInt nextIndex)) messageObj) ;;
  local (modify (set_isSending true)) ;;
  ret nextIndex.

(** TEXT/THREAD branch from the write on (lines 164-168). *)
Definition sendText_commit (nextIndex : Z) : M (St * MessageData.t) unit :=
  st <- local (gets id) ;;
  messageObj <- getLocal ;;
  res <- local (call (WriteComment messageObj (FeedIndex.fromBigInt nextIndex)
                                   (commentOptions st))
                     (writeCommentToIndex messageObj (FeedIndex.fromBigInt nextIndex)
                                          (commentOptions st))) ;;
  local (verifyWriteSuccess (FeedIndex.fromBigInt nextIndex) res (Some messageObj)) ;;
  local (modify (set_ownIndex nextIndex)).

(** The [try] block of [sendMessage]. *)
Definition sendMessage_try (type : MessageType) (prevState : option (list MessageData.t))
  : M (St * MessageData.t) unit :=
  messageObj <- getLocal ;;
  local (emit MESSAGE_REQUEST_INITIATED (PMessage messageObj)) ;;
  match type with
  | REACTION =>
      r <- sendReaction_prepare prevState ;;
      sendReaction_commit (fst r) (snd r)
  | _ =>
      nextIndex <- sendText_prepare ;;
      sendText_commit nextIndex
  end ;;
  messageObj <- getLocal ;;
  local (emit MESSAGE_REQUEST_UPLOADED (PMessage messageObj)).

Definition sendMessage_catch (error : Exn) : M (St * MessageData.t) unit :=
  messageObj <- getLocal ;;
  local (emit MESSAGE_REQUEST_ERROR (PMessage messageObj)) ;;
  local (handleError error "Comment.sendMessage").

(** The object literal that [sendMessage] starts from. *)
Definition newMessage (message : string) (type : MessageType)
           (targetMessageId id : option string) : M St MessageData.t :=
  id' <- match truthyString id with
         | Some i => ret i
         | None => ask uuidv4
         end ;;
  st <- gets Datatypes.id ;;
  signature <- getSignature message ;;
  now <- ask Date_now ;;
  ret (MessageData.mk id' (nickname (userDetails st)) (ownAddress (userDetails st))
                      (topic st) (Some signature) now type targetMessageId message
                      None None).

Definition sendMessage (message : string) (type : MessageType)
           (targetMessageId id : option string) (prevState : option (list MessageData.t))
  : M St unit :=
  messageObj <- newMessage message type targetMessageId id ;;
  withLocal messageObj
    (tryFinally
       (tryCatch (sendMessage_try type prevState) sendMessage_catch)
       (local (modify (set_isSending false)))).

(** [retrySendMessage] starts the send and does not await it: its own
    promise never rejects. *)
Definition retrySendMessage (message : MessageData.t) : M St unit :=
  _ <- settle (sendMessage (MessageData.message message) (MessageData.type message)
                           (MessageData.targetMessageId message)
                           (Some (MessageData.id message)) None) ;;
  ret tt.

Definition fetchPreviousMessages : M St unit :=
  tryFinally
    (emit LOADING_PREVIOUS_MESSAGES (PBool true) ;;
     fetchPreviousMessageState)
    (emit LOADING_PREVIOUS_MESSAGES (PBool false)).

Definition initOwnIndex (latestIndex : option Z) : M St unit :=
  match latestIndex with
  | Some l => modify (set_ownIndex l)
  | None => ret tt
  end ;;
  st <- gets id ;;
  comment <- retryAwaitableAsync
               (call (ReadSingle None (commentOptions st))
                     (readSingleComment None (commentOptions st)))
               10 ;;
  parsedIx <- liftRes (indexStrToBigint
                         (match comment with
                          | Some c => MessageData.index c
                          | None => None
                          end)) ;;
  st <- gets id ;;
  match parsedIx with
  | Some ix =>
      when (truthyBigint parsedIx
            && negb (FeedIndex.equals (FeedIndex.fromBigInt ix) FeedIndex.MINUS_ONE)
            && (ownIndex (userDetails st) <? ix))
           (let startIndex :=
              match latestIndex with
              | None => ix - COMMENTS_TO_READ
              | Some _ => ownIndex (userDetails st)
              end in
            modify (set_ownIndex ix) ;;
            fetchMessagesInRange (startIndex + 1) ix (commentOptions st))
  | None => ret tt
  end.

Definition initReactionIndex (reactionIndex : option Z) : M St unit :=
  match reactionIndex with
  | None => fetchLatestReactions None
  | Some r => modify (set_reactionIndex r)
  end.

(** [init]: the three initialisations are started together
    ([Promise.allSettled], lines 194-198) and each is run here to its end
    before the next.  The order in which calls and events of different
    initialisations are entered in the logs is that of this run and is not
    fixed by the code; within one initialisation the order is the code's. *)
Definition init (options : option PreloadOptions) : M St unit :=
  tryCatch
    (emit LOADING_INIT (PBool true) ;;
     let latest := match options with Some o => latestIndex o | None => None end in
     let first := match options with Some o => firstIndex o | None => None end in
     let reaction := match options with Some o => preloadReactionIndex o | None => None end in
     ownIndexResult <- settle (initOwnIndex latest) ;;
     _ <- settle (history_init (match first with Some f => Some f | None => latest end)) ;;
     _ <- settle (initReactionIndex reaction) ;;
     match ownIndexResult with
     | Throw reason => throw reason
     | Ok _ => emit LOADING_INIT (PBool false)
     end)
    (fun error =>
       handleError error "Comment.initSelfState" ;;
       emit CRITICAL_ERROR (PError error)).

(** One run of the [poll] closure; [true] when it reschedules itself.  The
    two refreshes are started together and touch different pointers. *)
Definition poll : M St bool :=
  st <- gets id ;;
  if stopFetch st then modify (set_fetchProcessRunning false) ;; ret false
  else
    _ <- settle fetchLatestMessage ;;
    _ <- settle (fetchLatestReactions (Some (reactionIndex st + 1))) ;;
    ret true.

Definition stopMessagesFetchProcess : M St unit := modify (set_stopFetch true).

Definition stop : M St unit :=
  modify (fun st => set_emitter (emitter st ++ [CleanAll]) st) ;;
  stopMessagesFetchProcess ;;
  cleanup ;;
  modify (set_reactionIndex (-1)) ;;
  modify (set_fetchProcessRunning false).

(** *** Operations that overlap

    An [async] function runs up to an [await], gives way, and goes on from
    the state the others have left when the awaited call settles.
    [sendMessage] is given above in the halves before and after its write.
    The message refresh and [initOwnIndex] are divided here in the same way
    at their read: what is done before the read goes out, and what is done
    from the settled read on.  A store call is entered in the log where it
    settles. *)

(** [fetchLatestMessage], line 253: the guard test; [true] when the read
    goes out. *)
Definition fetchLatestMessage_enter : M St bool :=
  st <- gets id ;;
  ret (negb (isSending st)).

(** [fetchLatestMessage] from the read on (lines 255-266); the guard is
    not looked at again. *)
Definition fetchLatestMessage_settle : M St unit :=
  tryCatch
    (r <- history_fetchLatestMessage ;;
     let '(comment, index) := r in
     st <- gets id ;;
     when (negb (FeedIndex.equals index FeedIndex.MINUS_ONE)
           && (ownIndex (userDetails st) <? FeedIndex.toBigInt index))
          (modify (set_ownIndex (FeedIndex.toBigInt index)) ;;
           emit MESSAGE_RECEIVED (payloadOf comment)))
    (fun err => handleError err "Comment.fetchLatestMessage").

(** [initOwnIndex] up to the tip read (lines 212-215): the seeding. *)
Definition initOwnIndex_seed (latestIndex : option Z) : M St unit :=
  match latestIndex with
  | Some l => modify (set_ownIndex l)
  | None => ret tt
  end.

(** [initOwnIndex] from the tip read on (lines 220-241). *)
Definition initOwnIndex_settle (latestIndex : option Z) : M St unit :=
  st <- gets id ;;
  comment <- retryAwaitableAsync
               (call (ReadSingle None (commentOptions st))
                     (readSingleComment None (commentOptions st))) 10 ;;
  parsedIx <- liftRes (indexStrToBigint
                         (match comment with
                          | Some c => MessageData.index c
                          | None => None
                          end)) ;;
  st <- gets id ;;
  match parsedIx with
  | Some ix =>
      when (truthyBigint parsedIx
            && negb (FeedIndex.equals (FeedIndex.fromBigInt ix) FeedIndex.MINUS_ONE)
            && (ownIndex (userDetails st) <? ix))
           (let startIndex :=
              match latestIndex with
              | None => ix - COMMENTS_TO_READ
              | Some _ => ownIndex (userDetails st)
              end in
            modify (set_ownIndex ix) ;;
            fetchMessagesInRange (startIndex + 1) ix (commentOptions st))
  | None => ret tt
  end.

End Engine.

(** ** Vocabulary of the theorems *)

Section Operations.
Context {Env : Type} {C : Collaborators Env}.

(** The session's own address is the one derived from its key, as the
    constructor computes it; then [getSignature] does not throw. *)
Definition keyMatches (st : State Env) : Prop :=
  signerAddress (privateKey (userDetails st))
  = ethAddressToString (ownAddress (userDetails st)).

(** The result and the final state of the [try]/[catch] of a send started
    from [st] with the message object [messageObj]. *)
Definition sendOutcome (type : MessageType) (prevState : option (list MessageData.t))
           (messageObj : MessageData.t) (st : State Env) : Res unit * State Env :=
  let '(r, (st', _)) := sendMessage_try type prevState (st, messageObj) in (r, st').

(** What a fetched page delivers: one MESSAGE_RECEIVED per entry that
    passes [validateUserSignature], in page order. *)
Definition delivered (comments : list MessageData.t) : list EmitterCall :=
  map (fun c => Emit MESSAGE_RECEIVED (PMessage c)) (filter validateUserSignature comments).

(** The state after [handleError(e, context)]. *)
Definition reported (e : Exn) (context : string) (st : State Env) : State Env :=
  set_errorHandler (errorHandler st ++ [(e, context)]) st.

(** The state after an awaited store call [c] that left the world as [e']. *)
Definition asked (c : StoreCall) (e' : Env) (st : State Env) : State Env :=
  set_env e' (set_store (store st ++ [c]) st).

(** [latest?.index] *)
Definition indexOf (latest : option MessageData.t) : option string :=
  match latest with
  | Some c => MessageData.index c
  | None => None
  end.

(** The guarded assignment at the end of [fetchLatestReactions]. *)
Definition bumpReaction (next : Z) (st : State Env) : State Env :=
  if reactionIndex st <? next - 1 then set_reactionIndex (next - 1) st else st.

Definition received (l : list MessageData.t) : list EmitterCall :=
  map (fun m => Emit MESSAGE_RECEIVED (PMessage m)) l.

(** What no operation of a session changes. *)
Definition sameSettings (st st' : State Env) : Prop :=
  privateKey (userDetails st') = privateKey (userDetails st)
  /\ ownAddress (userDetails st') = ownAddress (userDetails st)
  /\ nickname (userDetails st') = nickname (userDetails st)
  /\ commentOptions st' = commentOptions st
  /\ reactionOptions st' = reactionOptions st
  /\ topic st' = topic st.

(** The state after [emitter.emit(name, payload)]. *)
Definition emitted (name : EventName) (payload : Payload) (st : State Env) : State Env :=
  set_emitter (emitter st ++ [Emit name payload]) st.

(** [this.userDetails.ownIndex === -1n ? 0n : this.userDetails.ownIndex + 1n] *)
Definition nextWriteIndex (pointer : Z) : Z :=
  if pointer =? -1 then 0 else pointer + 1.

(** [this.reactionIndex === -1n ? FEED_INDEX_ZERO : FeedIndex.fromBigInt(this.reactionIndex + 1n)] *)
Definition nextReactionIndex (pointer : Z) : FeedIndex.t :=
  if pointer =? -1 then FEED_INDEX_ZERO else FeedIndex.fromBigInt (pointer + 1).

(** The test of [verifyWriteSuccess] on the entry read back. *)
Definition mismatch (dataCheck data : MessageData.t) : bool :=
  negb (MessageData.id dataCheck =? MessageData.id data)%string
  || negb (MessageData.timestamp dataCheck =? MessageData.timestamp data).

(** Neither pointer is lower in [st'] than in [st]. *)
Definition pointersLe (st st' : State Env) : Prop :=
  ownIndex (userDetails st) <= ownIndex (userDetails st')
  /\ reactionIndex st <= reactionIndex st'.

(** *** The operations that the pointer invariant ranges over *)

(** Each operation run from its start to its end with no other operation
    in between: refreshes, poll ticks, [initOwnIndex] (seeded, when it is,
    with a checkpoint that is not below the pointer), page loads, and sends
    whatever their outcome (a reaction send from a reaction pointer below
    the last feed index, so that the slot after it exists). *)
Inductive op_step : State Env -> State Env -> Prop :=
| step_refreshMessage st :
    op_step st (snd (fetchLatestMessage st))
| step_refreshReactions index st :
    op_step st (snd (fetchLatestReactions index st))
| step_poll st :
    op_step st (snd (poll st))
| step_backfill latestIndex st :
    match latestIndex with
    | Some l => ownIndex (userDetails st) <= l
    | None => True
    end ->
    op_step st (snd (initOwnIndex latestIndex st))
| step_previousPage st :
    op_step st (snd (fetchPreviousMessages st))
| step_send message type targetMessageId id prevState st :
    (type = REACTION -> reactionIndex st < 2 ^ 64 - 1) ->
    op_step st (snd (sendMessage message type targetMessageId id prevState st)).

Inductive op_steps : State Env -> State Env -> Prop :=
| steps_refl st : op_steps st st
| steps_cons st1 st2 st3 : op_step st1 st2 -> op_steps st2 st3 -> op_steps st1 st3.

End Operations.

(** The indices [from], [from + 1], ..., [to] that a range read asks for. *)
Definition indicesOf (from to : Z) : list Z :=
  map (fun k => from + Z.of_nat k) (seq 0 (Z.to_nat (to - from + 1))).

(** The range read made by a call, if it is one. *)
Definition requestedIndices (c : StoreCall) : list Z :=
  match c with
  | ReadRange from to _ => indicesOf (FeedIndex.toBigInt from) (FeedIndex.toBigInt to)
  | _ => []
  end.

(** ** An in-memory storage node, for running the engine on examples

    Slots of the comment feed hold entries; a write to a taken slot is not an
    error and leaves the slot as it is.  The node answers a tip lookup from
    [tip], which may lag behind the slots other writers have filled. *)

Module MemoryNode.

Record World := {
  online : bool;
  slots : list (Z * MessageData.t);
  tip : option Z;
  reactionState : ReactionsWithIndex;
  now : Z;
}.

Fixpoint lookup (i : Z) (l : list (Z * MessageData.t)) : option MessageData.t :=
  match l with
  | [] => None
  | (k, m) :: rest => if k =? i then Some m else lookup i rest
  end.

Definition withSlots (l : list (Z * MessageData.t)) (w : World) : World :=
  {| online := online w; slots := l; tip := tip w;
     reactionState := reactionState w; now := now w |}.

Definition withReactions (r : ReactionsWithIndex) (w : World) : World :=
  {| online := online w; slots := slots w; tip := tip w;
     reactionState := r; now := now w |}.

Definition tick (w : World) : World :=
  {| online := online w; slots := slots w; tip := tip w;
     reactionState := reactionState w; now := now w + 1 |}.

Definition unreachable : Exn := External false "connection refused".

Definition readSingle (ix : option FeedIndex.t) (_ : Options.t) (w : World)
  : Res (option MessageData.t) * World :=
  if negb (online w) then (Throw unreachable, w)
  else
    match ix with
    | Some i => (Ok (lookup i (slots w)), w)
    | None =>
        match tip w with
        | Some t => (Ok (lookup t (slots w)), w)
        | None => (Ok None, w)
        end
    end.

Definition readRange (from to : FeedIndex.t) (_ : Options.t) (w : World)
  : Res (option (list MessageData.t)) * World :=
  (Ok (Some (flat_map (fun i => match lookup i (slots w) with
                                | Some m => [m]
                                | None => []
                                end)
                      (indicesOf from to))), w).

Definition readReactions (_ : option FeedIndex.t) (_ : Options.t) (w : World)
  : Res ReactionsWithIndex * World :=
  if negb (online w) then (Throw unreachable, w) else (Ok (reactionState w), w).

Definition writeComment (m : MessageData.t) (ix : FeedIndex.t) (_ : Options.t) (w : World)
  : Res (option UploadResult) * World :=
  match lookup ix (slots w) with
  | Some _ => (Ok (Some "receipt"), w)
  | None => (Ok (Some "receipt"), withSlots ((ix, m) :: slots w) w)
  end.

Definition writeReactions (snapshot : list MessageData.t) (ix : FeedIndex.t)
           (_ : Options.t) (w : World) : Res (option UploadResult) * World :=
  (Ok (Some "receipt"),
   withReactions {| messages := snapshot; nextIndex := FeedIndex.toString (ix + 1) |} w).

#[export] Instance node : Collaborators World := {
  readSingleComment := readSingle;
  readCommentsInRange := readRange;
  readReactionsWithIndex := readReactions;
  writeCommentToIndex := writeComment;
  writeReactionsToIndex := writeReactions;
  updateReactions := fun prev m => Some (prev ++ [m])%list;
  uuidv4 := fun w => ("uuid", w);
  Date_now := fun w => (now w, tick w);
  JSON_stringify := fun fields =>
    concat "," (map (fun kv => match snd kv with
                               | JStr s => s
                               | JNum z => Js.bigintToString z
                               end) fields);
  keccak256 := fun s => s;
  ethAddressToString := fun a => a;
  signerAddress := fun k => "address-of-" ++ k;
  sign := fun k text => "signed-by-" ++ k;
  signatureIsValid := fun sig _ address =>
    if (sig =? "malformed")%string then Throw (External false "bad signature bytes")
    else Ok (sig =? "signed-by-" ++ address)%string;
}.

Definition commentOpts : Options.t := Options.mk "topic" "feed-owner" "http://bee" "stamp".
Definition reactionOpts : Options.t := Options.mk "topic-reactions" "feed-owner" "http://bee" "stamp".

(** An entry signed by [author] ([signed = true]) or carrying a signature
    that does not verify. *)
Definition entry (id : string) (author : string) (ts : Z) (ix : Z) (signed : bool)
  : MessageData.t :=
  MessageData.mk id "nick" author "topic"
                 (Some (if signed then "signed-by-" ++ author else "forged")) ts TEXT None
                 ("body of " ++ id) (Some (FeedIndex.toString ix)) None.

Definition world (l : list (Z * MessageData.t)) (t : option Z) (nextReaction : Z) : World :=
  {| online := true; slots := l; tip := t;
     reactionState := {| messages := []; nextIndex := FeedIndex.toString nextReaction |};
     now := 1000 |}.

Definition offline (w : World) : World :=
  {| online := false; slots := slots w; tip := tip w;
     reactionState := reactionState w; now := now w |}.

(** A session of user [alice] with the given pointers over the world [w]. *)
Definition session (own reaction cursor : Z) (sending : bool) (w : World) : State World :=
  mkState {| privateKey := "alice"; ownAddress := "address-of-alice";
             nickname := "Alice"; ownIndex := own |}
          commentOpts reactionOpts "topic" 2000 true false reaction sending cursor
          [] [] [] w.

Definition bob3 := entry "m3" "address-of-bob" 900 3 true.
Definition bob4 := entry "m4" "address-of-bob" 950 4 true.
Definition eve4 := entry "m4" "address-of-eve" 950 4 false.
Definition carol5 := entry "m5" "address-of-carol" 990 5 true.

(** The node reports slot 3 as the tip and slot 4 is free. *)
Definition quietWorld : World := world [(3, bob3)] (Some 3) 0.

(** The node still reports slot 3 as the tip, but another writer has taken
    slot 4 in the meantime. *)
Definition racedWorld : World := world [(3, bob3); (4, bob4)] (Some 3) 0.

(** A page with one forged entry. *)
Definition pageWorld : World := world [(3, bob3); (4, eve4); (5, carol5)] (Some 5) 0.

(** Entries 0..13, all signed, the tip at 13; the reaction stream has
    five snapshots. *)
Definition longWorld : World :=
  world (map (fun i => (i, entry "m" "address-of-bob" (900 + i) i true)) (indicesOf 0 13))
        (Some 13) 5.

(** As [longWorld], but the entry in slot 12 carries a signature that does
    not verify. *)
Definition forgedWorld : World :=
  world (map (fun i => (i, entry "m" "address-of-bob" (900 + i) i (negb (i =? 12))))
             (indicesOf 0 13))
        (Some 13) 5.

(** Another author's entry [m] lands in slot [ix], and the node reports it
    as the tip. *)
Definition arrive (ix : Z) (m : MessageData.t) (w : World) : World :=
  {| online := online w; slots := (ix, m) :: slots w; tip := Some ix;
     reactionState := reactionState w; now := now w |}.

(** Other authors have written reaction snapshots up to slot [next - 1]. *)
Definition reacted (next : Z) (w : World) : World :=
  withReactions {| messages := messages (reactionState w);
                   nextIndex := FeedIndex.toString next |} w.

Definition legacyEntry : MessageData.t :=
  MessageData.mk "old" "nick" "address-of-bob" "topic" None 1 TEXT None
                 "unsigned" (Some "0") (Some true).

(** What [newMessage "hello" TEXT None (Some "a1")] builds at time 1001. *)
Definition aliceHello : MessageData.t :=
  MessageData.mk "a1" "Alice" "address-of-alice" "topic" (Some "signed-by-alice") 1001
                 TEXT None "hello" None None.

Definition reactionR1 : MessageData.t :=
  MessageData.mk "r1" "Alice" "address-of-alice" "topic" (Some "signed-by-alice") 1001
                 REACTION (Some "m3") "+1" None None.

End MemoryNode.

(** ** Further code of the same files *)

(** *** utils/common.ts: remove0x *)

Module JsString.

(** [String.prototype.toLowerCase] on one code unit below 256: the letters
    A-Z and the Latin-1 capitals other than the multiplication sign. *)
Definition lowerCode (n : Z) : Z :=
  if ((65 <=? n) && (n <=? 90)) || ((192 <=? n) && (n <=? 222) && negb (n =? 215))
  then n + 32 else n.

Definition lowerChar (c : ascii) : ascii := ascii_of_N (Z.to_N (lowerCode (Js.code c))).

Fixpoint toLowerCase (s : string) : string :=
  match s with
  | String c r => String (lowerChar c) (toLowerCase r)
  | EmptyString => EmptyString
  end.

(** [hex.startsWith('0x')] *)
Definition startsWith0x (s : string) : bool :=
  match s with
  | String c0 (String c1 _) => ((c0 =? "0") && (c1 =? "x"))%char
  | _ => false
  end.

(** [hex.slice(2)] *)
Definition slice2 (s : string) : string :=
  match s with
  | String _ (String _ r) => r
  | _ => EmptyString
  end.

End JsString.

Definition remove0x (hex : string) : string :=
  JsString.toLowerCase (if JsString.startsWith0x hex then JsString.slice2 hex else hex).

(** *** lib/constants.ts *)

Definition DEFAULT_POLL_INTERVAL : Z := 2000.
Definition MINIMUM_POLL_INTERVAL : Z := 500.
Definition PLACEHOLDER_STAMP : string :=
  "0x0123456789abcdef0123456789abcdef0123456789abcdef0123456789abcdef".

(** *** SwarmComment: constructor, orderMessages *)

Record CommentSettings := {
  user_privateKey : string;
  user_nickname : string;
  infra_beeUrl : string;
  infra_stamp : option string;
  infra_topic : string;
  infra_pollInterval : option Z;
}.

(** What the constructor asks of bee-js and the comment system about the
    topic: [Topic.fromString(t).toString()], the key derived from the topic
    and the identifier of the reaction feed. *)
Class TopicCollaborators := {
  Topic_fromString : string -> string;
  getPrivateKeyFromIdentifier : string -> string;
  getReactionFeedId : string -> string;
}.

(** Topic helpers of an example deployment. *)
Definition exampleTopics : TopicCollaborators :=
  {| Topic_fromString := fun t => t;
     getPrivateKeyFromIdentifier := fun t => "key-of-" ++ t;
     getReactionFeedId := fun t => t ++ "-reactions" |}.

(** [settings.infra.pollInterval || DEFAULT_POLL_INTERVAL], then the floor *)
Definition pollIntervalOf (requested : option Z) : Z :=
  let pollInterval :=
    match requested with
    | Some 0 => DEFAULT_POLL_INTERVAL
    | Some p => p
    | None => DEFAULT_POLL_INTERVAL
    end in
  if pollInterval <? MINIMUM_POLL_INTERVAL then MINIMUM_POLL_INTERVAL else pollInterval.

Section Constructor.
Context {Env : Type} {C : Collaborators Env} {T : TopicCollaborators}.

(** [new SwarmComment(settings)], with the world the session will live in. *)
Definition construct (settings : CommentSettings) (world : Env) : State Env :=
  let ownAddress := signerAddress (remove0x (user_privateKey settings)) in
  let userDetails := {| privateKey := user_privateKey settings;
                        ownAddress := ownAddress;
                        nickname := user_nickname settings;
                        ownIndex := -1 |} in
  let signer := getPrivateKeyFromIdentifier (infra_topic settings) in
  let topic := Topic_fromString (infra_topic settings) in
  let stamp := match truthyString (infra_stamp settings) with
               | Some s => s
               | None => PLACEHOLDER_STAMP
               end in
  let commentOptions := Options.mk topic (signerAddress signer) (infra_beeUrl settings) stamp in
  let reactionOptions := Options.mk (getReactionFeedId topic) (signerAddress signer)
                                    (infra_beeUrl settings) stamp in
  mkState userDetails commentOptions reactionOptions topic
          (pollIntervalOf (infra_pollInterval settings))
          false false (-1) false (-1) [] [] [] world.

End Constructor.

(** [messages.sort((a, b) => a.timestamp - b.timestamp)]: the sort is stable,
    so its result is the one list that is ordered by timestamp and keeps
    entries of equal timestamp in their order; it is computed here by
    insertion.  (The array is sorted in place; the list is the array after
    the call.) *)
Fixpoint insertByTimestamp (m : MessageData.t) (l : list MessageData.t)
  : list MessageData.t :=
  match l with
  | [] => [m]
  | x :: rest =>
      if MessageData.timestamp m <=? MessageData.timestamp x then m :: x :: rest
      else x :: insertByTimestamp m rest
  end.

Fixpoint orderMessages (messages : list MessageData.t) : list MessageData.t :=
  match messages with
  | [] => []
  | m :: rest => insertByTimestamp m (orderMessages rest)
  end.

(** *** Repeated page loads *)

Section Paging.
Context {Env : Type} {C : Collaborators Env}.

(** [k] calls of [fetchPreviousMessages], each awaited before the next;
    stops at the first call that throws. *)
Fixpoint loadPages (k : nat) : M (State Env) unit :=
  match k with
  | O => ret tt
  | S k' => fetchPreviousMessages ;; loadPages k'
  end.

(** The indices asked for by the range reads among [calls]. *)
Definition requestedBy (calls : list StoreCall) : list Z :=
  flat_map requestedIndices calls.

(** The two events that end a send. *)
Definition isTerminal (c : EmitterCall) : bool :=
  match c with
  | Emit MESSAGE_REQUEST_UPLOADED _ => true
  | Emit MESSAGE_REQUEST_ERROR _ => true
  | _ => false
  end.

(** A delivery to the listener. *)
Definition isReceived (c : EmitterCall) : bool :=
  match c with
  | Emit MESSAGE_RECEIVED _ => true
  | _ => false
  end.

End Paging.


(** *** SwarmComment: startMessagesFetchProcess and its timer *)

Section Scheduler.
Context {Env : Type} {C : Collaborators Env}.

(** The session with the number of [setTimeout(poll, pollInterval)]
    callbacks that are pending. *)
Definition Process : Type := State Env * nat.

(** [setTimeout(poll, this.pollInterval)] *)
Definition setTimeout_poll : M Process unit := fun '(st, n) => (Ok tt, (st, S n)).

(** One call of the [poll] closure, with its rescheduling. *)
Definition runPoll : M Process unit :=
  again <- local poll ;;
  if again then setTimeout_poll else ret tt.

Definition startMessagesFetchProcess : M Process unit :=
  st <- local (gets id) ;;
  if fetchProcessRunning st then ret tt
  else
    local (modify (set_fetchProcessRunning true)) ;;
    local (modify (set_stopFetch false)) ;;
    runPoll.

(** A pending timer fires and calls [poll]. *)
Definition timerFires : M Process unit :=
  fun '(st, n) =>
    match n with
    | O => (Ok tt, (st, n))
    | S n' => runPoll (st, n')
    end.

(** What a refresh leaves in the two logs: deliveries, and at most one
    report under its own context. *)
Definition refreshLogs (context : string) (s s' : State Env) : Prop :=
  exists l reports,
    emitter s' = (emitter s ++ received l)%list
    /\ errorHandler s' = (errorHandler s ++ reports)%list
    /\ (List.length reports <= 1)%nat
    /\ forall x, In x reports -> snd x = context.

(** [s'] comes from [s] by deliveries to the listener only. *)
Definition deliveriesOnly (s s' : State Env) : Prop :=
  exists mid,
    emitter s' = (emitter s ++ mid)%list /\ forallb isReceived mid = true.

End Scheduler.

(** *** A session as a whole *)

Section Session.
Context {Env : Type} {C : Collaborators Env}.

(** What the constructor fixes for the life of a session. *)
Definition sameSession (st st' : State Env) : Prop :=
  privateKey (userDetails st') = privateKey (userDetails st)
  /\ ownAddress (userDetails st') = ownAddress (userDetails st)
  /\ nickname (userDetails st') = nickname (userDetails st)
  /\ commentOptions st' = commentOptions st
  /\ reactionOptions st' = reactionOptions st
  /\ topic st' = topic st
  /\ pollInterval st' = pollInterval st.

(** The operations of a session, each run to its end: [init], starting
    the poll loop, a run of the [poll] closure, a send, a retried send, a
    page load and [stop]. *)
Inductive api_step : State Env -> State Env -> Prop :=
| api_init options st :
    api_step st (snd (init options st))
| api_startPolling st n :
    api_step st (fst (snd (startMessagesFetchProcess (st, n))))
| api_poll st :
    api_step st (snd (poll st))
| api_send message type targetMessageId id prevState st :
    api_step st (snd (sendMessage message type targetMessageId id prevState st))
| api_retry message st :
    api_step st (snd (retrySendMessage message st))
| api_previous st :
    api_step st (snd (fetchPreviousMessages st))
| api_stop st :
    api_step st (snd (stop st)).

Inductive api_steps : State Env -> State Env -> Prop :=
| api_refl st : api_steps st st
| api_cons st1 st2 st3 : api_step st1 st2 -> api_steps st2 st3 -> api_steps st1 st3.

End Session.

(** ** Content-addressed and single-owner chunks

    Byte arrays are lists of bytes; [a.slice(i)] is [skipn i a] and
    [a.slice(0, n)] is [firstn n a].  The classes of bee-js and the hash of
    cafe-utility are outside the repository: the length of a [Span], the
    bytes [Span.fromBigInt] gives, the hash, the reduction of the 128
    segments and the key operations are the methods of [Library].  An
    [Identifier] and a [PrivateKey] are taken as already built from valid
    bytes. *)

Module Chunks.

Definition bytes := list Byte.byte.

Inductive Error :=
| PayloadSizeOutOfLimits (size : nat)     (* RangeError, makeContentAddressedChunk *)
| PayloadExceedsChunk (size : nat).       (* BeeArgumentError, calculateBmtRootHash *)

Inductive Result (A : Type) :=
| Return (a : A)
| Raise (e : Error).
Arguments Return {A} a.
Arguments Raise {A} e.

Class Library := {
  Span_LENGTH : nat;
  Span_fromBigInt : Z -> bytes;            (* Span.fromBigInt(n).toUint8Array() *)
  keccak256 : bytes -> bytes;              (* Binary.keccak256 *)
  reduceSegments : bytes -> bytes;         (* Binary.log2Reduce(Binary.partition(input, 32), ...) *)
  TextEncoder_encode : string -> bytes;
  sign : bytes -> bytes -> bytes;          (* key.sign(data).toUint8Array() *)
  addressOfKey : bytes -> bytes;           (* key.publicKey().address().toUint8Array() *)
}.

Definition MIN_PAYLOAD_SIZE : nat := 1.
Definition MAX_PAYLOAD_SIZE : nat := 4096.
Definition MAX_CHUNK_PAYLOAD_SIZE : nat := 4096.

Record Chunk := {
  data : bytes;
  span : bytes;
  payload : bytes;
  address : bytes;
}.

Record SingleOwnerChunk := {
  soc_data : bytes;
  soc_identifier : bytes;
  soc_signature : bytes;
  soc_span : bytes;
  soc_payload : bytes;
  soc_address : bytes;
  soc_owner : bytes;
}.

Section Functions.
Context {L : Library}.

(** [new Uint8Array(MAX_CHUNK_PAYLOAD_SIZE)] with [input.set(payload)] *)
Definition padded (payload : bytes) : bytes :=
  (payload ++ repeat Byte.x00 (MAX_CHUNK_PAYLOAD_SIZE - List.length payload))%list.

Definition calculateBmtRootHash (payload : bytes) : Result bytes :=
  if (MAX_CHUNK_PAYLOAD_SIZE <? List.length payload)%nat
  then Raise (PayloadExceedsChunk (List.length payload))
  else Return (reduceSegments (padded payload)).

Definition calculateChunkAddress (chunkContent : bytes) : Result bytes :=
  let span := firstn Span_LENGTH chunkContent in
  let payload := skipn Span_LENGTH chunkContent in
  match calculateBmtRootHash payload with
  | Raise e => Raise e
  | Return rootHash => Return (keccak256 (span ++ rootHash)%list)
  end.

Definition makeContentAddressedChunk (payloadBytes : bytes + string) : Result Chunk :=
  let payloadBytes :=
    match payloadBytes with
    | inl b => b
    | inr s => TextEncoder_encode s
    end in
  if (List.length payloadBytes <? MIN_PAYLOAD_SIZE)%nat
     || (MAX_PAYLOAD_SIZE <? List.length payloadBytes)%nat
  then Raise (PayloadSizeOutOfLimits (List.length payloadBytes))
  else
    let span := Span_fromBigInt (Z.of_nat (List.length payloadBytes)) in
    let data := (span ++ payloadBytes)%list in
    match calculateChunkAddress data with
    | Raise e => Raise e
    | Return address =>
        Return {| data := data; span := span;
                  payload := skipn Span_LENGTH data; address := address |}
    end.

Definition makeSOCAddress (identifier address : bytes) : bytes :=
  keccak256 (identifier ++ address)%list.

Definition makeSingleOwnerChunk (chunk : Chunk) (identifier signer : bytes)
  : SingleOwnerChunk :=
  let address := makeSOCAddress identifier (addressOfKey signer) in
  let signature := sign signer (identifier ++ Chunks.address chunk)%list in
  let data := (identifier ++ signature ++ Chunks.data chunk)%list in
  {| soc_data := data;
     soc_identifier := identifier;
     soc_signature := signature;
     soc_span := firstn Span_LENGTH (Chunks.data chunk);
     soc_payload := skipn Span_LENGTH (Chunks.data chunk);
     soc_address := address;
     soc_owner := addressOfKey signer |}.

End Functions.

(** A library for examples: eight-byte spans, little-endian, and
    stand-ins for the hash and the key operations. *)
Definition byteOf (z : Z) : Byte.byte :=
  match Byte.of_N (Z.to_N (z mod 256)) with
  | Some b => b
  | None => Byte.x00
  end.

Definition exampleLibrary : Library :=
  {| Span_LENGTH := 8;
     Span_fromBigInt := fun n => map (fun i => byteOf (n / 256 ^ Z.of_nat i)) (seq 0 8);
     keccak256 := fun b => firstn 32 (b ++ repeat Byte.x00 32);
     reduceSegments := fun b => firstn 32 b;
     TextEncoder_encode := fun s => map byteOf (map Js.code (list_ascii_of_string s));
     sign := fun k d => (k ++ firstn 33 (d ++ repeat Byte.x00 33))%list;
     addressOfKey := fun k => firstn 20 (k ++ repeat Byte.x00 20) |}.

End Chunks.
(** * Theorems *)

(** ** The index codec *)

Section Codec.
Import Js.

Lemma code_digitChar d : 0 <= d < 16 -> code (digitChar d) = if d <? 10 then 48 + d else 87 + d.
Proof.
  intros Hd. unfold code, digitChar.
  rewrite N_ascii_embedding; destruct (d <? 10) eqn:E; lia.
Qed.

Lemma digitValue_digitChar d : 0 <= d < 16 -> digitValue (digitChar d) = Some d.
Proof.
  intros Hd. unfold digitValue. rewrite (code_digitChar d Hd).
  destruct (d <? 10) eqn:E.
  - apply Z.ltb_lt in E.
    replace ((48 <=? 48 + d) && (48 + d <=? 57)) with true by lia.
    f_equal. lia.
  - apply Z.ltb_ge in E.
    replace ((48 <=? 87 + d) && (87 + d <=? 57)) with false by lia.
    replace ((97 <=? 87 + d) && (87 + d <=? 122)) with true by lia.
    f_equal. lia.
Qed.

Lemma radixDigit_digitChar R d : 0 <= d < R -> R <= 16 -> radixDigit R (digitChar d) = Some d.
Proof.
  intros Hd HR. unfold radixDigit. rewrite digitValue_digitChar by lia.
  replace (d <? R) with true by lia. reflexivity.
Qed.

Lemma takeDigits_length_le R s : (List.length (takeDigits R s) <= String.length s)%nat.
Proof.
  induction s as [|c r IH]; simpl; [lia|].
  destruct (radixDigit R c); simpl; lia.
Qed.

Lemma digitString_cons R c r :
  digitString R (String c r) <-> (exists d, radixDigit R c = Some d) /\ digitString R r.
Proof.
  unfold digitString. simpl. pose proof (takeDigits_length_le R r).
  destruct (radixDigit R c) eqn:E; simpl; split.
  - intros H1. split; [eauto | lia].
  - intros [_ H1]. lia.
  - intros H1. lia.
  - intros [[d Hd] _]. discriminate.
Qed.

Lemma takeDigits_app R s t :
  digitString R s -> takeDigits R (s ++ t) = (takeDigits R s ++ takeDigits R t)%list.
Proof.
  induction s as [|c r IH]; intros H; simpl; [reflexivity|].
  apply digitString_cons in H. destruct H as [[d Hd] Hr].
  rewrite Hd. simpl. now rewrite IH.
Qed.

Lemma digitString_app R s t : digitString R s -> digitString R t -> digitString R (s ++ t).
Proof.
  induction s as [|c r IH]; intros Hs Ht; simpl; [assumption|].
  apply digitString_cons in Hs. destruct Hs as [Hd Hr].
  apply digitString_cons. split; auto.
Qed.

Lemma digitString_single R d : 0 <= d < R -> R <= 16 -> digitString R (String (digitChar d) "").
Proof.
  intros Hd HR. unfold digitString. simpl. now rewrite radixDigit_digitChar.
Qed.

Lemma mathInt_snoc R ds d : mathInt R (ds ++ [d]) = mathInt R ds * R + d.
Proof. unfold mathInt. now rewrite fold_left_app. Qed.

Lemma length_app_one s c : String.length (s ++ String c "") = S (String.length s).
Proof. induction s; simpl; congruence. Qed.

(** *** Hexadecimal, fixed width *)

Lemma hexDigits_spec k : forall n, 0 <= n ->
  digitString 16 (hexDigits k n)
  /\ String.length (hexDigits k n) = k
  /\ mathInt 16 (takeDigits 16 (hexDigits k n)) = n mod 16 ^ Z.of_nat k.
Proof.
  induction k as [|k IH]; intros n Hn.
  - simpl. repeat split. now rewrite Z.mod_1_r.
  - cbn [hexDigits].
    assert (Hq : 0 <= n / 16) by (apply Z.div_pos; lia).
    assert (Hr : 0 <= n mod 16 < 16) by (apply Z.mod_pos_bound; lia).
    destruct (IH (n / 16) Hq) as (Hd & Hl & Hv).
    split; [|split].
    + apply digitString_app; [assumption | apply digitString_single; lia].
    + rewrite length_app_one. congruence.
    + rewrite takeDigits_app by assumption. simpl takeDigits at 2.
      rewrite radixDigit_digitChar by lia.
      rewrite mathInt_snoc, Hv.
      rewrite Nat2Z.inj_succ, Z.pow_succ_r by lia.
      rewrite Z.rem_mul_r by lia. lia.
Qed.

(** *** Decimal, no leading zero *)

Lemma decDigits_spec f : forall n, 0 <= n < 10 ^ Z.of_nat f ->
  digitString 10 (decDigits f n)
  /\ mathInt 10 (takeDigits 10 (decDigits f n)) = n.
Proof.
  induction f as [|f IH]; intros n Hn.
  - simpl in *. split; [reflexivity | unfold mathInt; simpl; lia].
  - cbn [decDigits]. destruct (n <? 10) eqn:E.
    + apply Z.ltb_lt in E. split.
      * apply digitString_single; lia.
      * simpl. rewrite radixDigit_digitChar by lia. unfold mathInt. simpl. lia.
    + apply Z.ltb_ge in E.
      assert (Hr : 0 <= n mod 10 < 10) by (apply Z.mod_pos_bound; lia).
      assert (Hq : 0 <= n / 10 < 10 ^ Z.of_nat f).
      { rewrite Nat2Z.inj_succ, Z.pow_succ_r in Hn by lia.
        split; [apply Z.div_pos; lia | apply Z.div_lt_upper_bound; lia]. }
      destruct (IH (n / 10) Hq) as (Hd & Hv). split.
      * apply digitString_app; [assumption | apply digitString_single; lia].
      * rewrite takeDigits_app by assumption. simpl takeDigits at 2.
        rewrite radixDigit_digitChar by lia.
        rewrite mathInt_snoc, Hv.
        pose proof (Z.div_mod n 10). lia.
Qed.

Lemma fuel_enough n : 0 <= n -> n < 10 ^ Z.of_nat (S (Z.to_nat (Z.log2 n))).
Proof.
  intros Hn. rewrite Nat2Z.inj_succ, Z2Nat.id by apply Z.log2_nonneg.
  destruct (Z.eq_dec n 0) as [->|Hz]; [reflexivity|].
  assert (H2 : n < 2 ^ Z.succ (Z.log2 n)) by (apply Z.log2_spec; lia).
  assert (H3 : 2 ^ Z.succ (Z.log2 n) <= 10 ^ Z.succ (Z.log2 n)).
  { apply Z.pow_le_mono_l. lia. }
  lia.
Qed.

Lemma bigintToString_spec n : 0 <= n ->
  digitString 10 (bigintToString n)
  /\ mathInt 10 (takeDigits 10 (bigintToString n)) = n.
Proof.
  intros Hn. unfold bigintToString.
  replace (n <? 0) with false by lia.
  apply decDigits_spec. split; [assumption | now apply fuel_enough].
Qed.

Lemma decDigits_length f : forall n k, 0 <= n < 10 ^ Z.of_nat (S k) ->
  (String.length (decDigits f n) <= S k)%nat.
Proof.
  induction f as [|f IH]; intros n k Hn; simpl; [lia|].
  destruct (n <? 10) eqn:E; simpl; [lia|].
  apply Z.ltb_ge in E. rewrite length_app_one.
  destruct k as [|k]; [simpl in Hn; lia|].
  apply le_n_S, IH.
  rewrite (Nat2Z.inj_succ (S k)), Z.pow_succ_r in Hn by lia.
  split; [apply Z.div_pos; lia | apply Z.div_lt_upper_bound; lia].
Qed.

Lemma hasHexLetter_app s t : hasHexLetter (s ++ t) = hasHexLetter s || hasHexLetter t.
Proof.
  induction s as [|c r IH]; simpl; [reflexivity|].
  rewrite IH. now rewrite !orb_assoc.
Qed.

Lemma hasHexLetter_decimal d : 0 <= d < 10 -> hasHexLetter (String (digitChar d) "") = false.
Proof.
  intros Hd. simpl. rewrite code_digitChar by lia.
  replace (d <? 10) with true by lia. lia.
Qed.

Lemma decDigits_noHexLetter f : forall n, 0 <= n -> hasHexLetter (decDigits f n) = false.
Proof.
  induction f as [|f IH]; intros n Hn; [reflexivity|].
  cbn [decDigits]. destruct (n <? 10) eqn:E.
  - apply hasHexLetter_decimal. lia.
  - rewrite hasHexLetter_app, IH by (apply Z.div_pos; lia).
    apply hasHexLetter_decimal. apply Z.mod_pos_bound. lia.
Qed.

Lemma digitChar_not_zero d : 1 <= d < 10 -> (digitChar d =? "0")%char = false.
Proof.
  intros Hd. apply Ascii.eqb_neq. intros H.
  apply (f_equal code) in H. rewrite code_digitChar in H by lia.
  replace (d <? 10) with true in H by lia. change (code "0") with 48 in H. lia.
Qed.

Lemma decDigits_leading f : forall n, 0 < n < 10 ^ Z.of_nat f ->
  exists c r, decDigits f n = String c r /\ (c =? "0")%char = false.
Proof.
  induction f as [|f IH]; intros n Hn; [simpl in Hn; lia|].
  cbn [decDigits]. destruct (n <? 10) eqn:E.
  - apply Z.ltb_lt in E. eexists _, _. split; [reflexivity|].
    apply digitChar_not_zero. lia.
  - apply Z.ltb_ge in E.
    destruct (IH (n / 10)) as (c & r & Heq & Hc).
    { rewrite Nat2Z.inj_succ, Z.pow_succ_r in Hn by lia.
      split; [apply Z.div_str_pos; lia | apply Z.div_lt_upper_bound; lia]. }
    rewrite Heq. simpl. eauto.
Qed.

(** *** [parseInt] on a string of digits *)

Lemma radixDigit_facts R c d : radixDigit R c = Some d -> R <= 16 ->
  isWhiteSpace c = false
  /\ (c =? "-")%char = false /\ (c =? "+")%char = false
  /\ (c =? "x")%char = false /\ (c =? "X")%char = false.
Proof.
  intros H HR. split.
  - unfold radixDigit, digitValue in H. unfold isWhiteSpace.
    destruct ((48 <=? code c) && (code c <=? 57)) eqn:E1; [lia|].
    destruct ((97 <=? code c) && (code c <=? 122)) eqn:E2; [lia|].
    destruct ((65 <=? code c) && (code c <=? 90)) eqn:E3; [lia|discriminate].
  - repeat split; apply Ascii.eqb_neq; intros ->;
      unfold radixDigit in H; simpl in H;
      match type of H with
      | (if ?b then _ else _) = _ => destruct b eqn:E; [lia | discriminate]
      | _ => discriminate
      end.
Qed.

Lemma parseInt_digitString R c r :
  R = 10 \/ R = 16 -> digitString R (String c r) ->
  parseInt (String c r) R = toDouble (mathInt R (takeDigits R (String c r))).
Proof.
  intros HR H. assert (HR' : R <= 16) by lia.
  apply digitString_cons in H. destruct H as [[d Hd] Hr].
  destruct (radixDigit_facts R c d Hd HR') as (Hw & Hm & Hp & _).
  unfold parseInt. cbn [trimStart]. rewrite Hw, Hm, Hp.
  assert (Hs : (if R =? 16 then stripHexPrefix (String c r) else String c r) = String c r).
  { destruct (R =? 16); [|reflexivity].
    destruct r as [|c1 r']; [reflexivity|].
    apply digitString_cons in Hr. destruct Hr as [[d1 Hd1] _].
    destruct (radixDigit_facts R c1 d1 Hd1 HR') as (_ & _ & _ & Hx & HX).
    cbn [stripHexPrefix]. rewrite Hx, HX, andb_false_r. reflexivity. }
  rewrite Hs. cbn [takeDigits]. rewrite Hd. reflexivity.
Qed.

Lemma toDouble_exact n : n < 2 ^ 53 -> toDouble n = Fin n.
Proof. intros H. unfold toDouble. replace (n <? 2 ^ 53) with true by lia. reflexivity. Qed.

Lemma indexStrToBigint_hex n : 0 <= n < 2 ^ 53 ->
  indexStrToBigint (Some (FeedIndex.toString (FeedIndex.fromBigInt n))) = Ok (Some n).
Proof.
  intros Hn. unfold FeedIndex.fromBigInt, FeedIndex.toString.
  rewrite Z.mod_small by lia.
  destruct (hexDigits_spec 16 n (proj1 Hn)) as (Hd & Hl & Hv).
  rewrite Z.mod_small in Hv by lia.
  destruct (hexDigits 16 n) as [|c r] eqn:E; [discriminate|].
  unfold indexStrToBigint. rewrite Hl.
  replace (10 <? Z.of_nat 16) with true by reflexivity.
  rewrite !orb_true_r.
  rewrite parseInt_digitString by auto.
  rewrite Hv, toDouble_exact by lia. reflexivity.
Qed.

Lemma indexStrToBigint_decimal n : 0 <= n < 10 ^ 10 ->
  indexStrToBigint (Some (bigintToString n)) = Ok (Some n).
Proof.
  intros Hn. destruct (Z.eq_dec n 0) as [->|Hz]; [reflexivity|].
  destruct (bigintToString_spec n (proj1 Hn)) as (Hd & Hv).
  assert (Hlen : (String.length (bigintToString n) <= 10)%nat).
  { unfold bigintToString. replace (n <? 0) with false by lia.
    apply (decDigits_length _ n 9). exact Hn. }
  assert (Hhex : hasHexLetter (bigintToString n) = false).
  { unfold bigintToString. replace (n <? 0) with false by lia.
    apply decDigits_noHexLetter. lia. }
  destruct (decDigits_leading (S (Z.to_nat (Z.log2 n))) n) as (c & r & Heq & Hc).
  { split; [lia | apply fuel_enough; lia]. }
  assert (Hs : bigintToString n = String c r).
  { unfold bigintToString. replace (n <? 0) with false by lia. exact Heq. }
  rewrite Hs in *. unfold indexStrToBigint.
  rewrite Hhex. cbn [startsWith0]. rewrite Hc.
  replace (10 <? Z.of_nat (String.length (String c r))) with false by lia.
  cbn [orb]. rewrite parseInt_digitString by auto.
  rewrite Hv, toDouble_exact by lia. reflexivity.
Qed.

(** C8 (as amended): an index below 2^53 written as the sixteen hexadecimal
    digits of a [FeedIndex], and an index below 10^10 written in decimal,
    are decoded by [indexStrToBigint] to the same index. *)
Theorem index_codec_roundtrip_in_range (n : Z) (Hn : 0 <= n) :
  (n < 2 ^ 53 ->
   indexStrToBigint (Some (FeedIndex.toString (FeedIndex.fromBigInt n))) = Ok (Some n))
  /\ (n < 10 ^ 10 ->
      indexStrToBigint (Some (bigintToString n)) = Ok (Some n)).
Proof.
  split; intros H.
  - apply indexStrToBigint_hex. lia.
  - apply indexStrToBigint_decimal. lia.
Qed.

Lemma index_codec_roundtrip_in_range_witness :
  indexStrToBigint (Some (FeedIndex.toString (FeedIndex.fromBigInt 13))) = Ok (Some 13)
  /\ indexStrToBigint (Some (bigintToString 13)) = Ok (Some 13).
Proof.
  assert (H0 : 0 <= 13) by (intro H; discriminate H).
  split.
  - apply (proj1 (index_codec_roundtrip_in_range 13 H0)). reflexivity.
  - apply (proj2 (index_codec_roundtrip_in_range 13 H0)). reflexivity.
Defined.

(** C8 (as stated) fails: the eleven decimal digits of 10^10 are read as
    hexadecimal, because the string is longer than ten characters. *)
Lemma index_codec_decimal_counterexample :
  indexStrToBigint (Some (bigintToString (10 ^ 10))) = Ok (Some (16 ^ 10))
  /\ ~ (forall n, 0 <= n -> indexStrToBigint (Some (bigintToString n)) = Ok (Some n)).
Proof.
  split; [vm_compute; reflexivity|].
  intros H. specialize (H (10 ^ 10) ltac:(lia)).
  vm_compute in H. discriminate H.
Qed.

(** Beyond 2^53 the hexadecimal form loses precision, since [parseInt]
    yields a double. *)
Example index_codec_hex_rounding :
  indexStrToBigint (Some (FeedIndex.toString (FeedIndex.fromBigInt (2 ^ 53 + 1))))
  = Ok (Some (2 ^ 53)).
Proof. vm_compute. reflexivity. Qed.

Example indexStrToBigint_dec13 : indexStrToBigint (Some "13") = Ok (Some 13).
Proof. reflexivity. Qed.

Example indexStrToBigint_garbage : indexStrToBigint (Some "xyz") = Throw RangeErrorBigInt.
Proof. reflexivity. Qed.

Example indexStrToBigint_undefined : indexStrToBigint None = Ok None.
Proof. reflexivity. Qed.

End Codec.

(** ** Signature validation and page delivery *)

Section Delivery.
Context {Env : Type} {C : Collaborators Env}.
Implicit Type st : State Env.

Lemma set_emitter_nil st : set_emitter (emitter st ++ []) st = st.
Proof. destruct st. unfold set_emitter. simpl. now rewrite app_nil_r. Qed.

Lemma forEach_deliver comments : forall st,
  forEach comments
          (fun c => if negb (validateUserSignature c) then ret tt
                    else emit MESSAGE_RECEIVED (PMessage c)) st
  = (Ok tt, set_emitter (emitter st ++ delivered comments) st).
Proof.
  induction comments as [|c rest IH]; intros st.
  - simpl. unfold ret, delivered. simpl. now rewrite set_emitter_nil.
  - cbn [forEach]. unfold bind at 1. unfold delivered. cbn [filter].
    destruct (validateUserSignature c) eqn:E; cbn [negb].
    + unfold emit, modify. rewrite IH. f_equal.
      destruct st. unfold set_emitter, delivered. simpl.
      now rewrite <- app_assoc.
    + unfold ret. now rewrite IH.
Qed.

Lemma fetchMessagesInRange_spec startIndex endIndex opts st r e' :
  readCommentsInRange (FeedIndex.fromBigInt startIndex) (FeedIndex.fromBigInt endIndex)
                      opts (env st) = (r, e') ->
  let asked :=
    set_env e' (set_store (store st ++ [ReadRange (FeedIndex.fromBigInt startIndex)
                                                  (FeedIndex.fromBigInt endIndex) opts]) st) in
  fetchMessagesInRange startIndex endIndex opts st
  = match r with
    | Throw e => (Throw e, asked)
    | Ok None => (Ok tt, asked)
    | Ok (Some comments) => (Ok tt, set_emitter (emitter st ++ delivered comments) asked)
    end.
Proof.
  intros H asked. unfold fetchMessagesInRange, bind, call. rewrite H.
  destruct r as [[comments|]|e]; try reflexivity.
  now rewrite forEach_deliver.
Qed.

Lemma validateUserSignature_legacy data :
  MessageData.isLegacy data = Some true -> validateUserSignature data = true.
Proof. intros H. unfold validateUserSignature. now rewrite H. Qed.

Lemma validateUserSignature_signed data :
  MessageData.isLegacy data <> Some true ->
  (validateUserSignature data = true
   <-> exists sig, MessageData.signature data = Some sig
                   /\ signatureIsValid sig (digestOf data) (MessageData.address data) = Ok true).
Proof.
  intros Hl. unfold validateUserSignature, validateUserSignature_try.
  destruct (MessageData.isLegacy data) as [[|]|]; try congruence;
    (destruct (MessageData.signature data) as [sig|];
     [ destruct (signatureIsValid sig (digestOf data) (MessageData.address data))
         as [[|]|e] eqn:E; split;
       [ eauto | reflexivity | discriminate | intros (s & Hs & Hv); congruence
       | discriminate | intros (s & Hs & Hv); congruence ]
     | split; [discriminate | intros (s & Hs & _); discriminate] ]).
Qed.

(** C9: a legacy entry is accepted; any other entry is accepted exactly
    when its signature verifies the recomputed digest against the claimed
    address; a fetched page delivers its accepted entries, skips the others
    and reports no error. *)
Theorem validation_and_page_delivery :
  (forall data, MessageData.isLegacy data = Some true -> validateUserSignature data = true)
  /\ (forall data, MessageData.isLegacy data <> Some true ->
        (validateUserSignature data = true
         <-> exists sig, MessageData.signature data = Some sig
               /\ signatureIsValid sig (digestOf data) (MessageData.address data) = Ok true))
  /\ (forall startIndex endIndex opts st comments e',
        readCommentsInRange (FeedIndex.fromBigInt startIndex) (FeedIndex.fromBigInt endIndex)
                            opts (env st) = (Ok (Some comments), e') ->
        let '(r, st') := fetchMessagesInRange startIndex endIndex opts st in
        r = Ok tt
        /\ emitter st' = (emitter st ++ delivered comments)%list
        /\ errorHandler st' = errorHandler st
        /\ (forall c, In (Emit MESSAGE_RECEIVED (PMessage c)) (delivered comments)
                      <-> In c comments /\ validateUserSignature c = true)).
Proof.
  split; [exact validateUserSignature_legacy|].
  split; [exact validateUserSignature_signed|].
  intros startIndex endIndex opts st comments e' H.
  rewrite (fetchMessagesInRange_spec _ _ _ _ _ _ H).
  split; [reflexivity|]. split; [destruct st; reflexivity|].
  split; [destruct st; reflexivity|].
  intros c. unfold delivered. rewrite in_map_iff. split.
  - intros (x & Hx & Hin). inversion Hx; subst. now apply filter_In in Hin.
  - intros Hc. exists c. split; [reflexivity | now apply filter_In].
Qed.

End Delivery.

(** ** History paging *)

Section History.
Context {Env : Type} {C : Collaborators Env}.
Implicit Type st : State Env.

Lemma hasPreviousMessages_iff st : hasPreviousMessages st = true <-> 0 < startIndex st.
Proof. unfold hasPreviousMessages. apply Z.ltb_lt. Qed.

Lemma hasPreviousMessages_false_iff st : hasPreviousMessages st = false <-> startIndex st <= 0.
Proof. unfold hasPreviousMessages. apply Z.ltb_ge. Qed.

Lemma fetchPreviousMessageState_idle st :
  startIndex st <= 0 -> fetchPreviousMessageState st = (Ok tt, st).
Proof.
  intros H. unfold fetchPreviousMessageState, bind, gets, id.
  replace (startIndex st <=? 0) with true by lia. reflexivity.
Qed.

Lemma fetchPreviousMessageState_spec st r e' :
  0 < startIndex st ->
  let newStartIndex :=
    if COMMENTS_TO_READ <? startIndex st then startIndex st - COMMENTS_TO_READ else 0 in
  readCommentsInRange (FeedIndex.fromBigInt newStartIndex)
                      (FeedIndex.fromBigInt (startIndex st - 1))
                      (commentOptions st) (env st) = (r, e') ->
  let asked :=
    set_env e' (set_store (store st ++ [ReadRange (FeedIndex.fromBigInt newStartIndex)
                                                  (FeedIndex.fromBigInt (startIndex st - 1))
                                                  (commentOptions st)]) st) in
  fetchPreviousMessageState st
  = match r with
    | Throw e => (Throw e, asked)
    | Ok None => (Ok tt, set_startIndex newStartIndex asked)
    | Ok (Some comments) =>
        (Ok tt, set_startIndex newStartIndex
                  (set_emitter (emitter st ++ delivered comments) asked))
    end.
Proof.
  intros Hpos newStartIndex H asked.
  unfold fetchPreviousMessageState, bind at 1, gets, id.
  replace (startIndex st <=? 0) with false by lia.
  unfold bind. fold newStartIndex.
  rewrite (fetchMessagesInRange_spec _ _ _ _ _ _ H).
  destruct r as [[comments|]|e]; reflexivity.
Qed.

Lemma fetchPreviousMessageState_page st cursor r e' :
  startIndex st = cursor -> 0 < cursor ->
  let newStartIndex := if COMMENTS_TO_READ <? cursor then cursor - COMMENTS_TO_READ else 0 in
  readCommentsInRange (FeedIndex.fromBigInt newStartIndex) (FeedIndex.fromBigInt (cursor - 1))
                      (commentOptions st) (env st) = (Ok r, e') ->
  startIndex (snd (fetchPreviousMessageState st)) = newStartIndex
  /\ store (snd (fetchPreviousMessageState st))
     = (store st ++ [ReadRange (FeedIndex.fromBigInt newStartIndex)
                               (FeedIndex.fromBigInt (cursor - 1)) (commentOptions st)])%list.
Proof.
  intros Hc Hpos newStartIndex H. subst cursor.
  rewrite (fetchPreviousMessageState_spec st (Ok r) e' Hpos H).
  destruct r; destruct st; split; reflexivity.
Qed.

Lemma indicesOf_In a b i : In i (indicesOf a b) -> a <= i <= b.
Proof.
  unfold indicesOf. intros H. apply in_map_iff in H. destruct H as (k & <- & Hk).
  apply in_seq in Hk. lia.
Qed.

Lemma fetchPreviousMessageState_range st :
  let cursor := startIndex st in
  let a := if COMMENTS_TO_READ <? cursor then cursor - COMMENTS_TO_READ else 0 in
  0 < cursor ->
  store (snd (fetchPreviousMessageState st))
  = (store st ++ [ReadRange (FeedIndex.fromBigInt a) (FeedIndex.fromBigInt (cursor - 1))
                            (commentOptions st)])%list
  /\ 0 <= a <= cursor - 1
  /\ (cursor <= 2 ^ 64 ->
      requestedIndices (ReadRange (FeedIndex.fromBigInt a) (FeedIndex.fromBigInt (cursor - 1))
                                  (commentOptions st))
      = indicesOf a (cursor - 1)
      /\ forall i, In i (indicesOf a (cursor - 1)) -> 0 <= i < cursor).
Proof.
  intros cursor a Hpos.
  assert (Ha : 0 <= a <= cursor - 1).
  { unfold a, COMMENTS_TO_READ. destruct (9 <? cursor) eqn:E; lia. }
  split; [|split; [exact Ha|]].
  - destruct (readCommentsInRange (FeedIndex.fromBigInt a)
                (FeedIndex.fromBigInt (cursor - 1))
                (commentOptions st) (env st)) as [r e'] eqn:E.
    rewrite (fetchPreviousMessageState_spec st r e' Hpos E).
    destruct r as [[comments|]|e]; destruct st; reflexivity.
  - intros Hmax. split.
    + cbn [requestedIndices]. unfold FeedIndex.toBigInt, FeedIndex.fromBigInt.
      rewrite !Z.mod_small by lia. reflexivity.
    + intros i Hi. apply indicesOf_In in Hi. lia.
Qed.

(** C4 (as amended): [hasPreviousMessages] is true exactly when the cursor
    is above 0, so it is false at 0 and at the initial -1 alike; when the
    range read does not throw, a page load from cursor 12 asks for the nine
    indices 3..11 and moves the cursor to 3, and from cursor 5 asks for the
    five indices 0..4 and moves the cursor to 0; a page load at a cursor
    [<= 0] does nothing at all, and at a cursor above 0 it makes exactly one
    range read, from [cursor - 9] (from 0 when the cursor is at most 9) to
    [cursor - 1], whose indices all lie in [0 .. cursor - 1]. *)
Theorem history_paging :
  (forall st, hasPreviousMessages st = true <-> 0 < startIndex st)
  /\ (forall st, hasPreviousMessages st = false <-> startIndex st <= 0)
  /\ (forall st r e',
        startIndex st = 12 ->
        readCommentsInRange 3 11 (commentOptions st) (env st) = (Ok r, e') ->
        startIndex (snd (fetchPreviousMessageState st)) = 3
        /\ store (snd (fetchPreviousMessageState st))
           = (store st ++ [ReadRange 3 11 (commentOptions st)])%list
        /\ requestedIndices (ReadRange 3 11 (commentOptions st)) = [3; 4; 5; 6; 7; 8; 9; 10; 11])
  /\ (forall st r e',
        startIndex st = 5 ->
        readCommentsInRange 0 4 (commentOptions st) (env st) = (Ok r, e') ->
        startIndex (snd (fetchPreviousMessageState st)) = 0
        /\ store (snd (fetchPreviousMessageState st))
           = (store st ++ [ReadRange 0 4 (commentOptions st)])%list
        /\ requestedIndices (ReadRange 0 4 (commentOptions st)) = [0; 1; 2; 3; 4])
  /\ (forall st,
        let cursor := startIndex st in
        let a := if COMMENTS_TO_READ <? cursor then cursor - COMMENTS_TO_READ else 0 in
        (cursor <= 0 -> fetchPreviousMessageState st = (Ok tt, st))
        /\ (0 < cursor ->
            store (snd (fetchPreviousMessageState st))
            = (store st ++ [ReadRange (FeedIndex.fromBigInt a)
                                      (FeedIndex.fromBigInt (cursor - 1))
                                      (commentOptions st)])%list
            /\ 0 <= a <= cursor - 1
            /\ (cursor <= 2 ^ 64 ->
                requestedIndices (ReadRange (FeedIndex.fromBigInt a)
                                            (FeedIndex.fromBigInt (cursor - 1))
                                            (commentOptions st))
                = indicesOf a (cursor - 1)
                /\ forall i, In i (indicesOf a (cursor - 1)) -> 0 <= i < cursor))).
Proof.
  split; [exact hasPreviousMessages_iff|].
  split; [exact hasPreviousMessages_false_iff|].
  split; [|split].
  - intros st r e' Hc H.
    destruct (fetchPreviousMessageState_page st 12 r e' Hc ltac:(lia) H) as [H1 H2].
    repeat split; assumption.
  - intros st r e' Hc H.
    destruct (fetchPreviousMessageState_page st 5 r e' Hc ltac:(lia) H) as [H1 H2].
    repeat split; assumption.
  - intros st cursor a. split.
    + apply fetchPreviousMessageState_idle.
    + apply fetchPreviousMessageState_range.
Qed.

(** *** stop *)

Lemma stop_spec st :
  let st' := snd (stop st) in
  fst (stop st) = Ok tt
  /\ reactionIndex st' = -1 /\ startIndex st' = -1
  /\ userDetails st' = userDetails st
  /\ stopFetch st' = true /\ fetchProcessRunning st' = false
  /\ emitter st' = (emitter st ++ [CleanAll])%list.
Proof. destruct st. repeat split. Qed.

End History.

(** ** The two tip refreshes *)

Section Refresh.
Context {Env : Type} {C : Collaborators Env}.
Implicit Type st : State Env.

Lemma fetchLatestMessage_guarded st :
  isSending st = true -> fetchLatestMessage st = (Ok tt, st).
Proof. intros H. unfold fetchLatestMessage, bind, gets, id. now rewrite H. Qed.

Lemma fetchLatestMessage_spec st r e' :
  isSending st = false ->
  readSingleComment None (commentOptions st) (env st) = (r, e') ->
  let st1 := asked (ReadSingle None (commentOptions st)) e' st in
  fetchLatestMessage st
  = (Ok tt,
     match r with
     | Throw e => reported e "Comment.fetchLatestMessage" st1
     | Ok latest =>
         match indexStrToBigint (indexOf latest) with
         | Throw e => reported e "Comment.fetchLatestMessage" st1
         | Ok (Some ix) =>
             match latest with
             | Some c =>
                 if negb (ix =? 0)
                    && negb (FeedIndex.equals (FeedIndex.fromBigInt ix) FeedIndex.MINUS_ONE)
                    && (ownIndex (userDetails st) <? FeedIndex.fromBigInt ix)
                 then set_emitter (emitter st ++ [Emit MESSAGE_RECEIVED (PMessage c)])
                                  (set_ownIndex (FeedIndex.fromBigInt ix) st1)
                 else st1
             | None => st1
             end
         | Ok None => st1
         end
     end).
Proof.
  intros Hs H st1.
  unfold fetchLatestMessage, bind at 1, gets at 1, id. rewrite Hs.
  unfold tryCatch, history_fetchLatestMessage, bind, gets, id, call, liftRes.
  rewrite H.
  destruct r as [latest|e]; [|reflexivity].
  fold (indexOf latest).
  destruct (indexStrToBigint (indexOf latest)) as [[ix|]|e]; cycle 1.
  - destruct latest; reflexivity.
  - reflexivity.
  - destruct latest as [c|]; [|reflexivity].
    cbn [truthyBigint]. destruct (ix =? 0) eqn:Ez; cbn [negb].
    + unfold ret, when. cbn [FeedIndex.equals FeedIndex.MINUS_ONE negb andb].
      change (FeedIndex.equals FeedIndex.MINUS_ONE FeedIndex.MINUS_ONE) with true.
      reflexivity.
    + unfold ret, when, FeedIndex.toBigInt.
      destruct (negb (FeedIndex.equals (FeedIndex.fromBigInt ix) FeedIndex.MINUS_ONE)
                && (ownIndex (userDetails (set_env e' (set_store (store st ++ [ReadSingle None (commentOptions st)]) st)))
                    <? FeedIndex.fromBigInt ix)) eqn:Ec.
      * destruct st; cbn in Ec |- *. rewrite Ec. reflexivity.
      * destruct st; cbn in Ec |- *. rewrite Ec. reflexivity.
Qed.

(** Both sides are spelled out on a state given field by field. *)
Ltac settle_state st :=
  destruct st;
  cbv [bind ret when gets modify throw tryCatch handleError emit
       FEED_INDEX_ZERO FeedIndex.toBigInt bumpReaction asked reported];
  cbn;
  repeat match goal with
         | |- context [if ?b then _ else _] => destruct b
         end;
  reflexivity.

Lemma forEach_emit (l : list MessageData.t) : forall st,
  forEach l (fun reaction => emit MESSAGE_RECEIVED (PMessage reaction)) st
  = (Ok tt, set_emitter (emitter st ++ received l) st).
Proof.
  induction l as [|m rest IH]; intros st.
  - simpl. unfold ret. now rewrite set_emitter_nil.
  - cbn [forEach]. unfold bind at 1, emit at 1, modify. rewrite IH. f_equal.
    destruct st. unfold set_emitter, received. simpl. now rewrite <- app_assoc.
Qed.

Lemma fetchLatestReactions_spec index st r e' :
  let ix := option_map FeedIndex.fromBigInt index in
  readReactionsWithIndex ix (reactionOptions st) (env st) = (r, e') ->
  let st1 := asked (ReadReactions ix (reactionOptions st)) e' st in
  fetchLatestReactions index st
  = (Ok tt,
     match r with
     | Throw e => reported e "Comment.fetchLatestReactions" st1
     | Ok rs =>
         match indexStrToBigint (Some (nextIndex rs)) with
         | Throw e => reported e "Comment.fetchLatestReactions" st1
         | Ok None => bumpReaction 0 st1
         | Ok (Some next) =>
             if (next =? 0) || (next <? 0)
                || FeedIndex.equals (FeedIndex.fromBigInt next) FeedIndex.MINUS_ONE
             then bumpReaction 0 st1
             else bumpReaction (FeedIndex.fromBigInt next)
                    (if reactionIndex st + 1 <? next
                     then set_emitter (emitter st ++ received (messages rs)) st1
                     else st1)
         end
     end).
Proof.
  intros ix H st1.
  unfold fetchLatestReactions, tryCatch, bind at 1, gets at 1, id.
  unfold bind at 1, fetchLatestReactionState, bind at 1, gets at 1, id.
  unfold bind at 1, call. fold ix. rewrite H.
  destruct r as [rs|e]; [|reflexivity].
  unfold bind at 1, liftRes.
  destruct (indexStrToBigint (Some (nextIndex rs))) as [[next|]|e]; cycle 1.
  - settle_state st.
  - reflexivity.
  - cbn [truthyBigint]. rewrite negb_involutive.
    destruct ((next =? 0) || (next <? 0)
              || FeedIndex.equals (FeedIndex.fromBigInt next) FeedIndex.MINUS_ONE) eqn:Ec.
    + settle_state st.
    + unfold bind at 1, when.
      destruct (reactionIndex st + 1 <? next) eqn:En.
      * rewrite forEach_emit. settle_state st.
      * settle_state st.
Qed.

Ltac by_cases st :=
  destruct st; cbv [asked reported bumpReaction]; cbn in *;
  repeat match goal with
         | |- context [if ?b then _ else _] => destruct b eqn:?
         end;
  cbn in *; unfold sameSettings; cbn; repeat split; try lia; try congruence.

Lemma fetchLatestMessage_props st :
  let st' := snd (fetchLatestMessage st) in
  fst (fetchLatestMessage st) = Ok tt
  /\ sameSettings st st'
  /\ ownIndex (userDetails st) <= ownIndex (userDetails st')
  /\ reactionIndex st' = reactionIndex st
  /\ isSending st' = isSending st
  /\ startIndex st' = startIndex st.
Proof.
  destruct (isSending st) eqn:Hs.
  - rewrite (fetchLatestMessage_guarded st Hs). cbn. unfold sameSettings.
    repeat split; try lia; congruence.
  - destruct (readSingleComment None (commentOptions st) (env st)) as [r e'] eqn:E.
    rewrite (fetchLatestMessage_spec st r e' Hs E). cbn [fst snd].
    destruct r as [latest|e]; [|by_cases st].
    destruct (indexStrToBigint (indexOf latest)) as [[ix|]|e]; [|by_cases st..].
    destruct latest as [c|]; by_cases st.
Qed.

Lemma fetchLatestReactions_props index st :
  let st' := snd (fetchLatestReactions index st) in
  fst (fetchLatestReactions index st) = Ok tt
  /\ sameSettings st st'
  /\ ownIndex (userDetails st') = ownIndex (userDetails st)
  /\ reactionIndex st <= reactionIndex st'
  /\ isSending st' = isSending st
  /\ startIndex st' = startIndex st
  /\ store st' = (store st ++ [ReadReactions (option_map FeedIndex.fromBigInt index)
                                             (reactionOptions st)])%list.
Proof.
  destruct (readReactionsWithIndex (option_map FeedIndex.fromBigInt index)
                                   (reactionOptions st) (env st)) as [r e'] eqn:E.
  rewrite (fetchLatestReactions_spec index st r e' E). cbn [fst snd].
  destruct r as [rs|e]; [|by_cases st].
  destruct (indexStrToBigint (Some (nextIndex rs))) as [[next|]|e]; by_cases st.
Qed.

(** A refresh whose read fails leaves both pointers as they were and
    reports the error. *)
Lemma failed_refresh_unchanged st index e e1 e2 :
  isSending st = false ->
  readSingleComment None (commentOptions st) (env st) = (Throw e, e1) ->
  readReactionsWithIndex (option_map FeedIndex.fromBigInt index)
                         (reactionOptions st) (env st) = (Throw e, e2) ->
  let sm := snd (fetchLatestMessage st) in
  let sr := snd (fetchLatestReactions index st) in
  ownIndex (userDetails sm) = ownIndex (userDetails st)
  /\ reactionIndex sm = reactionIndex st
  /\ errorHandler sm = (errorHandler st ++ [(e, "Comment.fetchLatestMessage")])%list
  /\ ownIndex (userDetails sr) = ownIndex (userDetails st)
  /\ reactionIndex sr = reactionIndex st
  /\ errorHandler sr = (errorHandler st ++ [(e, "Comment.fetchLatestReactions")])%list.
Proof.
  intros Hs Hm Hr.
  rewrite (fetchLatestMessage_spec st _ _ Hs Hm), (fetchLatestReactions_spec index st _ _ Hr).
  destruct st. repeat split.
Qed.

End Refresh.

(** ** Sending *)

Section Send.
Context {Env : Type} {C : Collaborators Env}.
Implicit Type st : State Env.

Lemma sendMessage_unfold message type targetMessageId id prevState st obj st0 :
  newMessage message type targetMessageId id st = (Ok obj, st0) ->
  sendMessage message type targetMessageId id prevState st
  = let '(r, (st', obj')) := sendMessage_try type prevState (st0, obj) in
    (Ok tt,
     set_isSending false
       match r with
       | Ok _ => st'
       | Throw e =>
           reported e "Comment.sendMessage"
                    (emitted MESSAGE_REQUEST_ERROR (PMessage obj') st')
       end).
Proof.
  intros H. unfold sendMessage, bind at 1. rewrite H.
  unfold withLocal, tryFinally, tryCatch.
  destruct (sendMessage_try type prevState (st0, obj)) as [[[]|e] [st' obj']]; reflexivity.
Qed.

(** The TEXT/THREAD [try] block, outcome by outcome. *)
Lemma sendMessage_try_text type prevState obj st0 w e2 rb e3 :
  type <> REACTION ->
  let st1 := snd (fetchLatestMessage (emitted MESSAGE_REQUEST_INITIATED (PMessage obj) st0)) in
  let nextIndex := nextWriteIndex (ownIndex (userDetails st1)) in
  let idx := FeedIndex.fromBigInt nextIndex in
  let obj1 := MessageData.withIndex (FeedIndex.toString idx) obj in
  writeCommentToIndex obj1 idx (commentOptions st1) (env st1) = (w, e2) ->
  readSingleComment (Some idx) (commentOptions st1) e2 = (rb, e3) ->
  let st3 := asked (WriteComment obj1 idx (commentOptions st1)) e2 (set_isSending true st1) in
  let st4 := asked (ReadSingle (Some idx) (commentOptions st1)) e3 st3 in
  sendMessage_try type prevState (st0, obj)
  = match w with
    | Throw e => (Throw e, (st3, obj1))
    | Ok None => (Throw WriteFailedEmptyResponse, (st3, obj1))
    | Ok (Some _) =>
        match rb with
        | Throw e => (Throw e, (st4, obj1))
        | Ok None => (Throw CommentCheckFailedEmptyResponse, (st4, obj1))
        | Ok (Some dataCheck) =>
            if mismatch dataCheck obj1
            then (Throw (WriteVerificationFailed
                           (MessageData.message obj1) (MessageData.message dataCheck)
                           (MessageData.timestamp obj1) (MessageData.timestamp dataCheck)),
                  (st4, obj1))
            else (Ok tt, (emitted MESSAGE_REQUEST_UPLOADED (PMessage obj1)
                                  (set_ownIndex nextIndex st4), obj1))
        end
    end.
Proof.
  intros Hty st1 nextIndex idx obj1 Hw Hr st3 st4.
  pose proof (fetchLatestMessage_props
                (emitted MESSAGE_REQUEST_INITIATED (PMessage obj) st0)) as (Hok & _).
  assert (Hbody : sendMessage_try type prevState (st0, obj)
                  = bind (bind sendText_prepare sendText_commit)
                         (fun _ => messageObj <- getLocal ;;
                                   local (emit MESSAGE_REQUEST_UPLOADED (PMessage messageObj)))
                         (emitted MESSAGE_REQUEST_INITIATED (PMessage obj) st0, obj)).
  { destruct type; try congruence; reflexivity. }
  rewrite Hbody. clear Hbody.
  unfold sendText_prepare, sendText_commit, verifyWriteSuccess.
  cbv [bind local getLocal setLocal gets modify ret call id throw emit].
  destruct (fetchLatestMessage (emitted MESSAGE_REQUEST_INITIATED (PMessage obj) st0))
    as [r1 s1] eqn:E1.
  cbn [fst snd] in *. subst r1. subst st1.
  fold (nextWriteIndex (ownIndex (userDetails s1))). fold nextIndex. fold idx. fold obj1.
  replace (commentOptions (set_isSending true s1)) with (commentOptions s1)
    by (destruct s1; reflexivity).
  replace (env (set_isSending true s1)) with (env s1) by (destruct s1; reflexivity).
  rewrite Hw. destruct w as [[receipt|]|e]; try reflexivity.
  replace (commentOptions (set_env e2 (set_store (store (set_isSending true s1) ++
             [WriteComment obj1 idx (commentOptions s1)]) (set_isSending true s1))))
    with (commentOptions s1) by (destruct s1; reflexivity).
  replace (env (set_env e2 (set_store (store (set_isSending true s1) ++
             [WriteComment obj1 idx (commentOptions s1)]) (set_isSending true s1))))
    with e2 by (destruct s1; reflexivity).
  rewrite Hr. destruct rb as [[dataCheck|]|e]; try reflexivity.
  fold (mismatch dataCheck obj1).
  destruct (mismatch dataCheck obj1); reflexivity.
Qed.

(** The REACTION [try] block, outcome by outcome. *)
Lemma sendMessage_try_reaction prevState obj st0 w e2 :
  let st1 := snd (fetchLatestReactions None
                    (emitted MESSAGE_REQUEST_INITIATED (PMessage obj) st0)) in
  let idx := nextReactionIndex (reactionIndex st1) in
  let obj1 := MessageData.withIndex (FeedIndex.toString idx) obj in
  let snapshot := orEmpty (updateReactions (orEmpty prevState) obj1) in
  writeReactionsToIndex snapshot idx (reactionOptions st1) (env st1) = (w, e2) ->
  let st3 := asked (WriteReactions snapshot idx (reactionOptions st1)) e2
                   (set_isSending true st1) in
  sendMessage_try REACTION prevState (st0, obj)
  = match w with
    | Throw e => (Throw e, (st3, obj1))
    | Ok None => (Throw WriteFailedEmptyResponse, (st3, obj1))
    | Ok (Some _) =>
        (Ok tt, (emitted MESSAGE_REQUEST_UPLOADED (PMessage obj1)
                         (set_reactionIndex (FeedIndex.toBigInt idx) st3), obj1))
    end.
Proof.
  intros st1 idx obj1 snapshot Hw st3.
  pose proof (fetchLatestReactions_props None
                (emitted MESSAGE_REQUEST_INITIATED (PMessage obj) st0)) as (Hok & _).
  unfold sendMessage_try, sendReaction_prepare, sendReaction_commit, verifyWriteSuccess.
  cbv [bind local getLocal setLocal gets modify ret call id throw emit fst snd].
  fold (emitted MESSAGE_REQUEST_INITIATED (PMessage obj) st0).
  destruct (fetchLatestReactions None (emitted MESSAGE_REQUEST_INITIATED (PMessage obj) st0))
    as [r1 s1] eqn:E1.
  cbn [fst snd] in *. subst r1. subst st1.
  fold (nextReactionIndex (reactionIndex s1)). fold idx. fold obj1. fold snapshot.
  replace (reactionOptions (set_isSending true s1)) with (reactionOptions s1)
    by (destruct s1; reflexivity).
  replace (env (set_isSending true s1)) with (env s1) by (destruct s1; reflexivity).
  rewrite Hw. destruct w as [[receipt|]|e]; reflexivity.
Qed.

Lemma newMessage_spec message type targetMessageId id st :
  keyMatches st ->
  exists obj e',
    newMessage message type targetMessageId id st = (Ok obj, set_env e' st)
    /\ MessageData.message obj = message
    /\ MessageData.type obj = type
    /\ MessageData.targetMessageId obj = targetMessageId
    /\ (forall i, truthyString id = Some i -> MessageData.id obj = i)
    /\ MessageData.index obj = None.
Proof.
  intros Hk. unfold keyMatches in Hk.
  unfold newMessage, getSignature.
  cbv [bind gets ask ret throw Datatypes.id].
  destruct (truthyString id) as [i|] eqn:Ei.
  - cbv [ret]. rewrite Hk, String.eqb_refl. cbn [negb].
    destruct (Date_now (env st)) as [t1 e1] eqn:E1.
    replace (env (set_env e1 st)) with e1 by (destruct st; reflexivity).
    destruct (Date_now e1) as [t2 e2] eqn:E2.
    eexists _, e2. split; [destruct st; reflexivity|].
    cbn. repeat split. intros i' Hi'. congruence.
  - destruct (uuidv4 (env st)) as [u e0] eqn:E0.
    replace (userDetails (set_env e0 st)) with (userDetails st) by (destruct st; reflexivity).
    rewrite Hk, String.eqb_refl. cbn [negb].
    replace (env (set_env e0 st)) with e0 by (destruct st; reflexivity).
    destruct (Date_now e0) as [t1 e1] eqn:E1.
    replace (env (set_env e1 (set_env e0 st))) with e1 by (destruct st; reflexivity).
    destruct (Date_now e1) as [t2 e2] eqn:E2.
    eexists _, e2. split; [destruct st; reflexivity|].
    cbn. repeat split. intros i' Hi'. discriminate.
Qed.

End Send.

(** ** The pointers within a session *)

Section Pointers.
Context {Env : Type} {C : Collaborators Env}.
Implicit Type st : State Env.

Lemma pointersLe_refl st : pointersLe st st.
Proof. unfold pointersLe. lia. Qed.

Lemma pointersLe_trans st1 st2 st3 :
  pointersLe st1 st2 -> pointersLe st2 st3 -> pointersLe st1 st3.
Proof. unfold pointersLe. lia. Qed.

Lemma fetchLatestMessage_le st : pointersLe st (snd (fetchLatestMessage st)).
Proof.
  destruct (fetchLatestMessage_props st) as (_ & _ & H1 & H2 & _).
  unfold pointersLe. lia.
Qed.

Lemma fetchLatestReactions_le index st : pointersLe st (snd (fetchLatestReactions index st)).
Proof.
  destruct (fetchLatestReactions_props index st) as (_ & _ & H1 & H2 & _).
  unfold pointersLe. lia.
Qed.

Lemma poll_le st : pointersLe st (snd (poll st)).
Proof.
  unfold poll, bind at 1, gets at 1, id.
  destruct (stopFetch st).
  - destruct st; unfold pointersLe; cbn; lia.
  - unfold bind, settle, ret.
    pose proof (fetchLatestMessage_le st) as H1.
    destruct (fetchLatestMessage st) as [r1 s1]. cbn [snd] in H1.
    pose proof (fetchLatestReactions_le (Some (reactionIndex st + 1)) s1) as H2.
    destruct (fetchLatestReactions (Some (reactionIndex st + 1)) s1) as [r2 s2].
    cbn [snd] in *. eapply pointersLe_trans; eassumption.
Qed.

(** The retried read changes neither pointer nor any setting. *)
Lemma retry_read_frame (c : StoreCall) (f : Env -> Res (option MessageData.t) * Env)
      (retries : nat) : forall st r s1,
  retryAwaitableAsync (call c f) retries st = (r, s1) ->
  userDetails s1 = userDetails st
  /\ commentOptions s1 = commentOptions st
  /\ reactionIndex s1 = reactionIndex st
  /\ emitter s1 = emitter st.
Proof.
  induction retries as [|n IH]; intros st r s1 H; cbn [retryAwaitableAsync] in H;
    unfold tryCatch, call at 1 in H; destruct (f (env st)) as [[a|e] e'];
    cbv [bind handleError modify throw] in H.
  - inversion H; subst. destruct st; cbn; repeat split.
  - inversion H; subst. destruct st; cbn; repeat split.
  - inversion H; subst. destruct st; cbn; repeat split.
  - apply IH in H. destruct st; cbn in H |- *. exact H.
Qed.

Lemma fetchMessagesInRange_frame a b opts st :
  let st' := snd (fetchMessagesInRange a b opts st) in
  userDetails st' = userDetails st /\ reactionIndex st' = reactionIndex st
  /\ startIndex st' = startIndex st.
Proof.
  destruct (readCommentsInRange (FeedIndex.fromBigInt a) (FeedIndex.fromBigInt b) opts (env st))
    as [r e'] eqn:E.
  rewrite (fetchMessagesInRange_spec a b opts st r e' E).
  destruct r as [[cs|]|e]; destruct st; repeat split.
Qed.

Lemma fetchPreviousMessageState_frame st :
  let st' := snd (fetchPreviousMessageState st) in
  userDetails st' = userDetails st /\ reactionIndex st' = reactionIndex st.
Proof.
  destruct (Z_le_gt_dec (startIndex st) 0) as [Hle|Hgt].
  - rewrite fetchPreviousMessageState_idle by assumption. split; reflexivity.
  - destruct (readCommentsInRange
                (FeedIndex.fromBigInt (if COMMENTS_TO_READ <? startIndex st
                                       then startIndex st - COMMENTS_TO_READ else 0))
                (FeedIndex.fromBigInt (startIndex st - 1))
                (commentOptions st) (env st)) as [r e'] eqn:E.
    rewrite (fetchPreviousMessageState_spec st r e' ltac:(lia) E).
    destruct r as [[cs|]|e]; destruct st; split; reflexivity.
Qed.

Lemma fetchPreviousMessages_le st : pointersLe st (snd (fetchPreviousMessages st)).
Proof.
  unfold fetchPreviousMessages, tryFinally, bind, emit, modify.
  pose proof (fetchPreviousMessageState_frame
                (set_emitter (emitter st ++ [Emit LOADING_PREVIOUS_MESSAGES (PBool true)]) st))
    as (Hu & Hr).
  destruct (fetchPreviousMessageState
              (set_emitter (emitter st ++ [Emit LOADING_PREVIOUS_MESSAGES (PBool true)]) st))
    as [r s1].
  cbn [snd] in *. unfold pointersLe.
  destruct s1; destruct st; cbn in *. subst. lia.
Qed.

Lemma newMessage_frame message type targetMessageId id st r st0 :
  newMessage message type targetMessageId id st = (r, st0) ->
  exists e', st0 = set_env e' st.
Proof.
  unfold newMessage, getSignature. cbv [bind gets ask ret throw Datatypes.id].
  intros H.
  destruct (truthyString id) as [i|].
  - cbv [ret] in H.
    destruct (negb _) in H.
    + inversion H as [[Hr Hs]]. exists (env st). try rewrite <- Hs. destruct st; reflexivity.
    + destruct (Date_now (env st)) as [t1 e1].
      replace (env (set_env e1 st)) with e1 in H by (destruct st; reflexivity).
      destruct (Date_now e1) as [t2 e2].
      inversion H as [[Hr Hs]]. exists e2. try rewrite <- Hs. destruct st; reflexivity.
  - destruct (uuidv4 (env st)) as [u e0].
    replace (userDetails (set_env e0 st)) with (userDetails st) in H
      by (destruct st; reflexivity).
    destruct (negb _) in H.
    + inversion H as [[Hr Hs]]. exists e0. try rewrite <- Hs. destruct st; reflexivity.
    + replace (env (set_env e0 st)) with e0 in H by (destruct st; reflexivity).
      destruct (Date_now e0) as [t1 e1].
      replace (env (set_env e1 (set_env e0 st))) with e1 in H by (destruct st; reflexivity).
      destruct (Date_now e1) as [t2 e2].
      inversion H as [[Hr Hs]]. exists e2. try rewrite <- Hs. destruct st; reflexivity.
Qed.

Lemma rejected_send_le message type targetMessageId id prevState st st0 e :
  newMessage message type targetMessageId id st = (Throw e, st0) ->
  pointersLe st (snd (sendMessage message type targetMessageId id prevState st)).
Proof.
  intros Hn. unfold sendMessage, bind. rewrite Hn.
  destruct (newMessage_frame _ _ _ _ _ _ _ Hn) as [e0 ->].
  destruct st; unfold pointersLe; cbn; lia.
Qed.

(** A reaction refresh leaves the reaction pointer below the last feed
    index when it found it there. *)
Lemma fetchLatestReactions_below index st :
  reactionIndex st < 2 ^ 64 - 1 ->
  reactionIndex (snd (fetchLatestReactions index st)) < 2 ^ 64 - 1.
Proof.
  intros Hb.
  destruct (readReactionsWithIndex (option_map FeedIndex.fromBigInt index)
                                   (reactionOptions st) (env st)) as [r e'] eqn:E.
  rewrite (fetchLatestReactions_spec index st r e' E). cbn [snd].
  assert (Hz : forall s : State Env, reactionIndex s = reactionIndex st ->
                                     reactionIndex (bumpReaction 0 s) < 2 ^ 64 - 1).
  { intros s Hs. unfold bumpReaction. destruct (_ <? _); destruct s; cbn in *; lia. }
  destruct r as [rs|e]; [|destruct st; exact Hb].
  destruct (indexStrToBigint (Some (nextIndex rs))) as [[next|]|e].
  - destruct ((next =? 0) || (next <? 0)
              || FeedIndex.equals (FeedIndex.fromBigInt next) FeedIndex.MINUS_ONE) eqn:Ec.
    + apply Hz. destruct st; reflexivity.
    + apply orb_false_elim in Ec. destruct Ec as [_ Hne].
      unfold FeedIndex.equals, FeedIndex.MINUS_ONE in Hne. apply Z.eqb_neq in Hne.
      assert (Hm : 0 <= FeedIndex.fromBigInt next < 2 ^ 64)
        by (unfold FeedIndex.fromBigInt; apply Z.mod_pos_bound; lia).
      unfold bumpReaction.
      destruct (reactionIndex st + 1 <? next);
        match goal with
        | |- context [if ?b then _ else _] => destruct b
        end; destruct st; cbn in *; lia.
  - apply Hz. destruct st; reflexivity.
  - destruct st; exact Hb.
Qed.

Lemma nextReactionIndex_ge pointer :
  pointer < 2 ^ 64 - 1 -> pointer <= FeedIndex.toBigInt (nextReactionIndex pointer).
Proof.
  intros Hb. unfold nextReactionIndex, FEED_INDEX_ZERO, FeedIndex.toBigInt, FeedIndex.fromBigInt.
  destruct (pointer =? -1) eqn:E.
  - apply Z.eqb_eq in E. subst. rewrite Z.mod_small by lia. lia.
  - destruct (Z_lt_ge_dec (pointer + 1) 0) as [Hn|Hp].
    + pose proof (Z.mod_pos_bound (pointer + 1) (2 ^ 64) ltac:(lia)). lia.
    + rewrite Z.mod_small by lia. lia.
Qed.

Lemma nextWriteIndex_ge pointer : pointer <= nextWriteIndex pointer.
Proof. unfold nextWriteIndex. destruct (pointer =? -1) eqn:E; lia. Qed.

(** The [try] block of a send, whatever its outcome. *)
Lemma sendMessage_try_le type prevState obj st0 r st' obj' :
  (type = REACTION -> reactionIndex st0 < 2 ^ 64 - 1) ->
  sendMessage_try type prevState (st0, obj) = (r, (st', obj')) ->
  pointersLe st0 st'.
Proof.
  intros Hb H.
  set (sti := emitted MESSAGE_REQUEST_INITIATED (PMessage obj) st0) in *.
  assert (Hi : pointersLe st0 sti) by (destruct st0; unfold pointersLe; cbn; lia).
  destruct (MessageType_eq_dec type REACTION) as [->|Hty].
  - pose proof (fetchLatestReactions_le None sti) as H1.
    assert (Hge : reactionIndex (snd (fetchLatestReactions None sti))
                  <= FeedIndex.toBigInt
                       (nextReactionIndex
                          (reactionIndex (snd (fetchLatestReactions None sti))))).
    { apply nextReactionIndex_ge. apply fetchLatestReactions_below.
      replace (reactionIndex sti) with (reactionIndex st0) by (destruct st0; reflexivity).
      apply Hb. reflexivity. }
    destruct (writeReactionsToIndex
                (orEmpty (updateReactions (orEmpty prevState)
                   (MessageData.withIndex
                      (FeedIndex.toString
                         (nextReactionIndex
                            (reactionIndex (snd (fetchLatestReactions None sti))))) obj)))
                (nextReactionIndex (reactionIndex (snd (fetchLatestReactions None sti))))
                (reactionOptions (snd (fetchLatestReactions None sti)))
                (env (snd (fetchLatestReactions None sti))))
      as [w e2] eqn:Ew.
    rewrite (sendMessage_try_reaction prevState obj st0 w e2 Ew) in H.
    fold sti in H.
    destruct (snd (fetchLatestReactions None sti)) as [] eqn:E1.
    destruct w as [[receipt|]|e1]; inversion H; subst;
      (eapply pointersLe_trans; [exact Hi|]);
      (eapply pointersLe_trans; [exact H1|]);
      unfold pointersLe; cbn in *; lia.
  - pose proof (fetchLatestMessage_le sti) as H1.
    pose proof (nextWriteIndex_ge (ownIndex (userDetails (snd (fetchLatestMessage sti)))))
      as Hge.
    destruct (writeCommentToIndex
                (MessageData.withIndex
                   (FeedIndex.toString
                      (FeedIndex.fromBigInt
                         (nextWriteIndex
                            (ownIndex (userDetails (snd (fetchLatestMessage sti))))))) obj)
                (FeedIndex.fromBigInt
                   (nextWriteIndex (ownIndex (userDetails (snd (fetchLatestMessage sti))))))
                (commentOptions (snd (fetchLatestMessage sti)))
                (env (snd (fetchLatestMessage sti))))
      as [w e2] eqn:Ew.
    destruct (readSingleComment
                (Some (FeedIndex.fromBigInt
                         (nextWriteIndex
                            (ownIndex (userDetails (snd (fetchLatestMessage sti)))))))
                (commentOptions (snd (fetchLatestMessage sti))) e2)
      as [rb e3] eqn:Er.
    rewrite (sendMessage_try_text type prevState obj st0 w e2 rb e3 Hty Ew Er) in H.
    fold sti in H.
    destruct (snd (fetchLatestMessage sti)) as [] eqn:E1.
    destruct w as [[receipt|]|e1];
      [ destruct rb as [[dataCheck|]|e1];
        [ match type of H with
          | context [mismatch ?a ?b] => destruct (mismatch a b)
          end | | ] | | ];
      inversion H; subst;
      (eapply pointersLe_trans; [exact Hi|]);
      (eapply pointersLe_trans; [exact H1|]);
      unfold pointersLe; cbn in *; lia.
Qed.

(** A send run on its own, whatever its outcome. *)
Lemma sendMessage_le message type targetMessageId id prevState st :
  (type = REACTION -> reactionIndex st < 2 ^ 64 - 1) ->
  pointersLe st (snd (sendMessage message type targetMessageId id prevState st)).
Proof.
  intros Hb.
  destruct (newMessage message type targetMessageId id st) as [[obj|e] st0] eqn:Hn.
  - rewrite (sendMessage_unfold _ _ _ _ _ _ _ _ Hn).
    destruct (newMessage_frame _ _ _ _ _ _ _ Hn) as [e0 ->].
    destruct (sendMessage_try type prevState (set_env e0 st, obj)) as [r [st' obj']] eqn:E.
    apply sendMessage_try_le in E; [|destruct st; exact Hb].
    cbn [snd]. destruct r; destruct st'; destruct st; unfold pointersLe in *; cbn in *; lia.
  - eapply rejected_send_le; eassumption.
Qed.

(** [initOwnIndex] from its tip read on lowers neither pointer. *)
Lemma initOwnIndex_settle_le latest st : pointersLe st (snd (initOwnIndex_settle latest st)).
Proof.
  unfold initOwnIndex_settle, bind at 1, gets at 1, id, bind at 1.
  destruct (retryAwaitableAsync
              (call (ReadSingle None (commentOptions st))
                    (readSingleComment None (commentOptions st))) 10 st)
    as [r s1] eqn:E.
  destruct (retry_read_frame _ _ _ _ _ _ E) as (Hu & _ & Hr & _).
  destruct r as [comment|e].
  2:{ cbn [snd]. unfold pointersLe. rewrite Hu, Hr. lia. }
  unfold bind at 1, liftRes.
  destruct (indexStrToBigint _) as [[ix|]|e].
  - unfold bind at 1, gets at 1, id, when.
    destruct (truthyBigint (Some ix)
              && negb (FeedIndex.equals (FeedIndex.fromBigInt ix) FeedIndex.MINUS_ONE)
              && (ownIndex (userDetails s1) <? ix)) eqn:Ec.
    + unfold bind at 1, modify.
      set (from := match latest with
                   | None => ix - COMMENTS_TO_READ
                   | Some _ => ownIndex (userDetails s1)
                   end + 1).
      pose proof (fetchMessagesInRange_frame from ix (commentOptions s1)
                    (set_ownIndex ix s1)) as (Hu2 & Hr2 & _).
      destruct (fetchMessagesInRange from ix (commentOptions s1) (set_ownIndex ix s1))
        as [r2 s2].
      cbn [snd] in *. unfold pointersLe. rewrite Hu2, Hr2.
      apply andb_prop in Ec. destruct Ec as [_ Hlt]. apply Z.ltb_lt in Hlt.
      rewrite Hu in Hlt. destruct s1; cbn in *. lia.
    + cbn [snd ret]. unfold pointersLe. rewrite Hu, Hr. lia.
  - cbn [snd ret bind gets id]. unfold pointersLe. rewrite Hu, Hr. lia.
  - cbn [snd]. unfold pointersLe. rewrite Hu, Hr. lia.
Qed.

(** [initOwnIndex] is its seeding followed by the part from the read on. *)
Lemma initOwnIndex_halves latest st :
  initOwnIndex latest st = initOwnIndex_settle latest (snd (initOwnIndex_seed latest st)).
Proof. destruct latest; reflexivity. Qed.

Lemma initOwnIndex_le latest st :
  match latest with
  | Some l => ownIndex (userDetails st) <= l
  | None => True
  end ->
  pointersLe st (snd (initOwnIndex latest st)).
Proof.
  intros H. rewrite initOwnIndex_halves.
  eapply pointersLe_trans; [|apply initOwnIndex_settle_le].
  destruct latest; destruct st; unfold pointersLe; cbn in *; lia.
Qed.

Lemma op_step_le st st' : op_step st st' -> pointersLe st st'.
Proof.
  intros H. destruct H.
  - apply fetchLatestMessage_le.
  - apply fetchLatestReactions_le.
  - apply poll_le.
  - apply initOwnIndex_le. assumption.
  - apply fetchPreviousMessages_le.
  - apply sendMessage_le. assumption.
Qed.

End Pointers.

(** ** Write verification, the sending guard, retries and backfill *)

Section Verification.
Context {Env : Type} {C : Collaborators Env}.
Implicit Type st : State Env.

Lemma mismatch_true dataCheck data :
  mismatch dataCheck data = true
  <-> MessageData.id dataCheck <> MessageData.id data
      \/ MessageData.timestamp dataCheck <> MessageData.timestamp data.
Proof.
  unfold mismatch. rewrite orb_true_iff, !negb_true_iff, String.eqb_neq, Z.eqb_neq.
  reflexivity.
Qed.

Lemma mismatch_false dataCheck data :
  mismatch dataCheck data = false
  <-> MessageData.id dataCheck = MessageData.id data
      /\ MessageData.timestamp dataCheck = MessageData.timestamp data.
Proof.
  unfold mismatch. rewrite orb_false_iff, !negb_false_iff, String.eqb_eq, Z.eqb_eq.
  reflexivity.
Qed.

Lemma nextWriteIndex_succ p : nextWriteIndex p = p + 1.
Proof. unfold nextWriteIndex. destruct (p =? -1) eqn:E; lia. Qed.

(** C2: in a text or thread send whose upload is acknowledged and read
    back, [p] being the message pointer when the write goes out: a
    read-back with another id or timestamp ends the send in an error with
    the pointer still [p]; a matching read-back leaves it at [p + 1], which
    is 0 for [p = -1]. *)
Theorem text_send_pointer
        message type targetMessageId id prevState st obj st0 receipt e2 dataCheck e3 :
  type <> REACTION ->
  newMessage message type targetMessageId id st = (Ok obj, st0) ->
  let st1 := snd (fetchLatestMessage (emitted MESSAGE_REQUEST_INITIATED (PMessage obj) st0)) in
  let p := ownIndex (userDetails st1) in
  let idx := FeedIndex.fromBigInt (nextWriteIndex p) in
  let obj1 := MessageData.withIndex (FeedIndex.toString idx) obj in
  writeCommentToIndex obj1 idx (commentOptions st1) (env st1) = (Ok (Some receipt), e2) ->
  readSingleComment (Some idx) (commentOptions st1) e2 = (Ok (Some dataCheck), e3) ->
  let st' := snd (sendMessage message type targetMessageId id prevState st) in
  ownIndex (userDetails st) <= p
  /\ (MessageData.id dataCheck <> MessageData.id obj1
      \/ MessageData.timestamp dataCheck <> MessageData.timestamp obj1 ->
      ownIndex (userDetails st') = p
      /\ errorHandler st'
         = (errorHandler st1
            ++ [(WriteVerificationFailed
                   (MessageData.message obj1) (MessageData.message dataCheck)
                   (MessageData.timestamp obj1) (MessageData.timestamp dataCheck),
                 "Comment.sendMessage")])%list
      /\ emitter st' = (emitter st1 ++ [Emit MESSAGE_REQUEST_ERROR (PMessage obj1)])%list)
  /\ (MessageData.id dataCheck = MessageData.id obj1
      /\ MessageData.timestamp dataCheck = MessageData.timestamp obj1 ->
      ownIndex (userDetails st') = p + 1
      /\ (p = -1 -> ownIndex (userDetails st') = 0)
      /\ errorHandler st' = errorHandler st1
      /\ emitter st' = (emitter st1 ++ [Emit MESSAGE_REQUEST_UPLOADED (PMessage obj1)])%list).
Proof.
  intros Hty Hn st1 p idx obj1 Hw Hr st'.
  assert (Hp : ownIndex (userDetails st) <= p).
  { destruct (newMessage_frame _ _ _ _ _ _ _ Hn) as [e0 ->].
    pose proof (fetchLatestMessage_le
                  (emitted MESSAGE_REQUEST_INITIATED (PMessage obj) (set_env e0 st))) as [H _].
    fold st1 in H. fold p in H. destruct st; cbn in H. exact H. }
  split; [exact Hp|].
  subst st'. rewrite (sendMessage_unfold _ _ _ _ _ _ _ _ Hn).
  rewrite (sendMessage_try_text type prevState obj st0 _ _ _ _ Hty Hw Hr).
  fold st1. fold p. fold idx. fold obj1.
  split.
  - intros Hm. apply mismatch_true in Hm. rewrite Hm.
    cbn [snd]. unfold p. destruct st1; repeat split.
  - intros Hm. apply mismatch_false in Hm. rewrite Hm.
    cbn [snd]. rewrite nextWriteIndex_succ. unfold p.
    destruct st1; cbn; repeat split. intros Hq. cbn in Hq. lia.
Qed.

Lemma sendOutcome_reaction prevState obj st0 :
  let st1 := snd (fetchLatestReactions None
                    (emitted MESSAGE_REQUEST_INITIATED (PMessage obj) st0)) in
  let idx := nextReactionIndex (reactionIndex st1) in
  let obj1 := MessageData.withIndex (FeedIndex.toString idx) obj in
  let snapshot := orEmpty (updateReactions (orEmpty prevState) obj1) in
  let r := fst (sendOutcome REACTION prevState obj st0) in
  let st' := snd (sendOutcome REACTION prevState obj st0) in
  store st' = (store st0 ++ [ReadReactions None (reactionOptions st0);
                             WriteReactions snapshot idx (reactionOptions st0)])%list
  /\ (forall receipt e2,
        writeReactionsToIndex snapshot idx (reactionOptions st1) (env st1)
        = (Ok (Some receipt), e2) ->
        r = Ok tt).
Proof.
  intros st1 idx obj1 snapshot r st'.
  destruct (fetchLatestReactions_props None
              (emitted MESSAGE_REQUEST_INITIATED (PMessage obj) st0))
    as (_ & Hs & _ & _ & _ & _ & Hstore).
  fold st1 in Hs, Hstore. destruct Hs as (_ & _ & _ & _ & Hro & _).
  replace (reactionOptions (emitted MESSAGE_REQUEST_INITIATED (PMessage obj) st0))
    with (reactionOptions st0) in * by (destruct st0; reflexivity).
  replace (store (emitted MESSAGE_REQUEST_INITIATED (PMessage obj) st0))
    with (store st0) in * by (destruct st0; reflexivity).
  destruct (writeReactionsToIndex snapshot idx (reactionOptions st1) (env st1))
    as [w e2] eqn:Ew.
  subst r st'. unfold sendOutcome.
  rewrite (sendMessage_try_reaction prevState obj st0 w e2 Ew).
  fold st1. fold idx. fold obj1. fold snapshot. rewrite Hro.
  split.
  - assert (Hst : forall s, store (asked (WriteReactions snapshot idx (reactionOptions st0)) e2
                                         (set_isSending true s))
                            = (store s ++ [WriteReactions snapshot idx (reactionOptions st0)])%list)
      by (intros s; destruct s; reflexivity).
    destruct w as [[receipt|]|e]; cbn [snd];
      [ replace (store (emitted MESSAGE_REQUEST_UPLOADED (PMessage obj1)
                   (set_reactionIndex (FeedIndex.toBigInt idx)
                      (asked (WriteReactions snapshot idx (reactionOptions st0)) e2
                             (set_isSending true st1)))))
          with (store (asked (WriteReactions snapshot idx (reactionOptions st0)) e2
                             (set_isSending true st1)))
          by (destruct st1; reflexivity) | | ];
      rewrite Hst, Hstore, <- app_assoc; reflexivity.
  - intros receipt e2' Hx. inversion Hx; subst. reflexivity.
Qed.


(** *** The two halves of a send

    The second half assigns the slot chosen in the first half; it does not
    compare it with the value the pointer has by then. *)

Lemma sendText_commit_assigns nextIndex st obj receipt e2 dataCheck e3 :
  writeCommentToIndex obj (FeedIndex.fromBigInt nextIndex) (commentOptions st) (env st)
  = (Ok (Some receipt), e2) ->
  readSingleComment (Some (FeedIndex.fromBigInt nextIndex)) (commentOptions st) e2
  = (Ok (Some dataCheck), e3) ->
  mismatch dataCheck obj = false ->
  fst (sendText_commit nextIndex (st, obj)) = Ok tt
  /\ ownIndex (userDetails (fst (snd (sendText_commit nextIndex (st, obj))))) = nextIndex.
Proof.
  intros Hw Hr Hm.
  unfold sendText_commit, verifyWriteSuccess.
  cbv [bind local getLocal gets modify ret call id throw].
  rewrite Hw.
  replace (commentOptions (set_env e2 (set_store (store st ++
             [WriteComment obj (FeedIndex.fromBigInt nextIndex) (commentOptions st)]) st)))
    with (commentOptions st) by (destruct st; reflexivity).
  replace (env (set_env e2 (set_store (store st ++
             [WriteComment obj (FeedIndex.fromBigInt nextIndex) (commentOptions st)]) st)))
    with e2 by (destruct st; reflexivity).
  rewrite Hr. fold (mismatch dataCheck obj). rewrite Hm.
  destruct st; split; reflexivity.
Qed.

Lemma sendReaction_commit_assigns snapshot idx st obj receipt e2 :
  writeReactionsToIndex snapshot idx (reactionOptions st) (env st) = (Ok (Some receipt), e2) ->
  fst (sendReaction_commit snapshot idx (st, obj)) = Ok tt
  /\ reactionIndex (fst (snd (sendReaction_commit snapshot idx (st, obj))))
     = FeedIndex.toBigInt idx.
Proof.
  intros Hw.
  unfold sendReaction_commit, verifyWriteSuccess.
  cbv [bind local getLocal gets modify ret call id throw].
  rewrite Hw. destruct st; split; reflexivity.
Qed.

(** C5 (as amended): across any run of operations each taken from its
    start to its end -- refreshes, poll ticks, backfills, page loads, and
    sends whether they fail or succeed -- neither pointer ends lower than it
    started; a refresh whose read fails leaves both pointers unchanged and
    reports the error; and the acknowledged write of a reaction send sets
    the reaction pointer to the slot written, whatever the pointer is by
    then. *)
Theorem pointers_never_decrease :
  (forall st st', op_steps st st' ->
     ownIndex (userDetails st) <= ownIndex (userDetails st')
     /\ reactionIndex st <= reactionIndex st')
  /\ (forall st index e e1 e2,
        isSending st = false ->
        readSingleComment None (commentOptions st) (env st) = (Throw e, e1) ->
        readReactionsWithIndex (option_map FeedIndex.fromBigInt index)
                               (reactionOptions st) (env st) = (Throw e, e2) ->
        let sm := snd (fetchLatestMessage st) in
        let sr := snd (fetchLatestReactions index st) in
        ownIndex (userDetails sm) = ownIndex (userDetails st)
        /\ reactionIndex sm = reactionIndex st
        /\ errorHandler sm = (errorHandler st ++ [(e, "Comment.fetchLatestMessage")])%list
        /\ ownIndex (userDetails sr) = ownIndex (userDetails st)
        /\ reactionIndex sr = reactionIndex st
        /\ errorHandler sr = (errorHandler st ++ [(e, "Comment.fetchLatestReactions")])%list)
  /\ (forall snapshot idx st obj receipt e2,
        writeReactionsToIndex snapshot idx (reactionOptions st) (env st)
        = (Ok (Some receipt), e2) ->
        fst (sendReaction_commit snapshot idx (st, obj)) = Ok tt
        /\ reactionIndex (fst (snd (sendReaction_commit snapshot idx (st, obj))))
           = FeedIndex.toBigInt idx).
Proof.
  split; [|split].
  - intros st st' H. induction H as [st|st1 st2 st3 Hstep _ IH].
    + lia.
    + apply op_step_le in Hstep. unfold pointersLe in Hstep. lia.
  - intros st index e e1 e2. apply failed_refresh_unchanged.
  - exact sendReaction_commit_assigns.
Qed.

(** *** The sending guard *)

Lemma sendText_prepare_guard st obj :
  isSending (fst (snd (sendText_prepare (st, obj)))) = true.
Proof.
  unfold sendText_prepare.
  cbv [bind local getLocal setLocal gets modify ret id].
  destruct (fetchLatestMessage_props st) as (Hok & _).
  destruct (fetchLatestMessage st) as [r s1]. cbn [fst] in Hok. subst r.
  destruct s1; reflexivity.
Qed.

Lemma poll_while_sending st :
  isSending st = true ->
  ownIndex (userDetails (snd (poll st))) = ownIndex (userDetails st)
  /\ (stopFetch st = false ->
      store (snd (poll st))
      = (store st ++ [ReadReactions (Some (FeedIndex.fromBigInt (reactionIndex st + 1)))
                                    (reactionOptions st)])%list).
Proof.
  intros Hs. destruct (stopFetch st) eqn:Hf.
  - split; [|discriminate].
    unfold poll, bind, gets, id. rewrite Hf. destruct st; reflexivity.
  - assert (Hp : poll st = (Ok true, snd (fetchLatestReactions (Some (reactionIndex st + 1)) st))).
    { unfold poll, bind at 1, gets at 1, id. rewrite Hf.
      unfold bind, settle, ret. rewrite (fetchLatestMessage_guarded st Hs).
      destruct (fetchLatestReactions (Some (reactionIndex st + 1)) st); reflexivity. }
    rewrite Hp. cbn [snd].
    destruct (fetchLatestReactions_props (Some (reactionIndex st + 1)) st)
      as (_ & _ & Ho & _ & _ & _ & Hst).
    split; [assumption | intros _; assumption].
Qed.

Lemma reaction_refresh_ignores_guard index st rs e' next :
  isSending st = true ->
  readReactionsWithIndex (option_map FeedIndex.fromBigInt index)
                         (reactionOptions st) (env st) = (Ok rs, e') ->
  indexStrToBigint (Some (nextIndex rs)) = Ok (Some next) ->
  0 < next < 2 ^ 64 - 1 ->
  reactionIndex st < next - 1 ->
  reactionIndex (snd (fetchLatestReactions index st)) = next - 1.
Proof.
  intros _ Hr Hp Hn Hlt.
  rewrite (fetchLatestReactions_spec index st _ _ Hr), Hp. cbn [snd].
  assert (Hfb : FeedIndex.fromBigInt next = next)
    by (unfold FeedIndex.fromBigInt; apply Z.mod_small; lia).
  rewrite Hfb. unfold FeedIndex.equals, FeedIndex.MINUS_ONE.
  replace ((next =? 0) || (next <? 0) || (next =? 2 ^ 64 - 1)) with false by lia.
  unfold bumpReaction.
  destruct (reactionIndex st + 1 <? next); destruct st; cbn in *;
    replace (reactionIndex0 <? next - 1) with true by lia; reflexivity.
Qed.

Lemma sendMessage_clears_guard message type targetMessageId id prevState st :
  keyMatches st ->
  isSending (snd (sendMessage message type targetMessageId id prevState st)) = false.
Proof.
  intros Hk.
  destruct (newMessage_spec message type targetMessageId id st Hk) as (obj & e' & Hn & _).
  rewrite (sendMessage_unfold _ _ _ _ _ _ _ _ Hn).
  destruct (sendMessage_try type prevState (set_env e' st, obj)) as [r [s' obj']].
  cbn [snd]. destruct r; destruct s'; reflexivity.
Qed.

(** [fetchLatestMessage] is its guard test followed, when the test lets
    it through, by the part from the read on. *)
Lemma fetchLatestMessage_halves st :
  fst (fetchLatestMessage_enter st) = Ok (negb (isSending st))
  /\ snd (fetchLatestMessage_enter st) = st
  /\ fetchLatestMessage st
     = if isSending st then (Ok tt, st) else fetchLatestMessage_settle st.
Proof.
  split; [reflexivity|]. split; [reflexivity|].
  unfold fetchLatestMessage, bind, gets, id. destruct (isSending st); reflexivity.
Qed.

(** The part of the message refresh from the read on, whatever the guard
    is when the read settles. *)
Lemma fetchLatestMessage_settle_spec st r e' :
  readSingleComment None (commentOptions st) (env st) = (r, e') ->
  let st1 := asked (ReadSingle None (commentOptions st)) e' st in
  fetchLatestMessage_settle st
  = (Ok tt,
     match r with
     | Throw e => reported e "Comment.fetchLatestMessage" st1
     | Ok latest =>
         match indexStrToBigint (indexOf latest) with
         | Throw e => reported e "Comment.fetchLatestMessage" st1
         | Ok (Some ix) =>
             match latest with
             | Some c =>
                 if negb (ix =? 0)
                    && negb (FeedIndex.equals (FeedIndex.fromBigInt ix) FeedIndex.MINUS_ONE)
                    && (ownIndex (userDetails st) <? FeedIndex.fromBigInt ix)
                 then set_emitter (emitter st ++ [Emit MESSAGE_RECEIVED (PMessage c)])
                                  (set_ownIndex (FeedIndex.fromBigInt ix) st1)
                 else st1
             | None => st1
             end
         | Ok None => st1
         end
     end).
Proof.
  intros H st1.
  unfold fetchLatestMessage_settle.
  unfold tryCatch, history_fetchLatestMessage, bind, gets, id, call, liftRes.
  rewrite H.
  destruct r as [latest|e]; [|reflexivity].
  fold (indexOf latest).
  destruct (indexStrToBigint (indexOf latest)) as [[ix|]|e]; cycle 1.
  - destruct latest; reflexivity.
  - reflexivity.
  - destruct latest as [c|]; [|reflexivity].
    cbn [truthyBigint]. destruct (ix =? 0) eqn:Ez; cbn [negb].
    + unfold ret, when. cbn [FeedIndex.equals FeedIndex.MINUS_ONE negb andb].
      change (FeedIndex.equals FeedIndex.MINUS_ONE FeedIndex.MINUS_ONE) with true.
      reflexivity.
    + unfold ret, when, FeedIndex.toBigInt.
      destruct (negb (FeedIndex.equals (FeedIndex.fromBigInt ix) FeedIndex.MINUS_ONE)
                && (ownIndex (userDetails (set_env e' (set_store (store st ++ [ReadSingle None (commentOptions st)]) st)))
                    <? FeedIndex.fromBigInt ix)) eqn:Ec.
      * destruct st; cbn in Ec |- *. rewrite Ec. reflexivity.
      * destruct st; cbn in Ec |- *. rewrite Ec. reflexivity.
Qed.

(** A message refresh whose read went out before the guard was set and
    settles while it is set: the guard stays set and the pointer moves to
    the index read. *)
Lemma refresh_settles_under_guard st c e' ix :
  isSending st = true ->
  readSingleComment None (commentOptions st) (env st) = (Ok (Some c), e') ->
  indexStrToBigint (MessageData.index c) = Ok (Some ix) ->
  0 < ix < 2 ^ 64 - 1 ->
  ownIndex (userDetails st) < ix ->
  let st' := snd (fetchLatestMessage_settle st) in
  isSending st' = true
  /\ ownIndex (userDetails st') = ix
  /\ emitter st' = (emitter st ++ [Emit MESSAGE_RECEIVED (PMessage c)])%list.
Proof.
  intros Hs Hr Hp Hix Hlt st'. subst st'.
  rewrite (fetchLatestMessage_settle_spec st _ e' Hr). cbn [indexOf snd]. rewrite Hp.
  unfold FeedIndex.equals, FeedIndex.MINUS_ONE, FeedIndex.fromBigInt.
  rewrite Z.mod_small by lia.
  replace (ix =? 0) with false by lia.
  replace (ix =? 2 ^ 64 - 1) with false by lia.
  replace (ownIndex (userDetails st) <? ix) with true by lia.
  destruct st; cbn in *. repeat split. exact Hs.
Qed.

(** The guard as a refresh finds it when it starts: when the write of a
    text or thread send goes out the guard is set; a message refresh that
    starts with the guard set returns at once, reads nothing and changes
    nothing, so a poll tick that starts then leaves the message pointer
    alone and makes only the reaction read; the reaction refresh reads and
    advances its pointer whatever the guard; and a send leaves the guard
    cleared, whether it succeeded or failed. *)
Theorem sending_guard :
  (forall st obj, isSending (fst (snd (sendText_prepare (st, obj)))) = true)
  /\ (forall st, isSending st = true -> fetchLatestMessage st = (Ok tt, st))
  /\ (forall st, isSending st = true ->
        ownIndex (userDetails (snd (poll st))) = ownIndex (userDetails st)
        /\ (stopFetch st = false ->
            store (snd (poll st))
            = (store st ++ [ReadReactions (Some (FeedIndex.fromBigInt (reactionIndex st + 1)))
                                          (reactionOptions st)])%list))
  /\ (forall index st rs e' next,
        isSending st = true ->
        readReactionsWithIndex (option_map FeedIndex.fromBigInt index)
                               (reactionOptions st) (env st) = (Ok rs, e') ->
        indexStrToBigint (Some (nextIndex rs)) = Ok (Some next) ->
        0 < next < 2 ^ 64 - 1 ->
        reactionIndex st < next - 1 ->
        reactionIndex (snd (fetchLatestReactions index st)) = next - 1)
  /\ (forall message type targetMessageId id prevState st,
        keyMatches st ->
        isSending (snd (sendMessage message type targetMessageId id prevState st)) = false).
Proof.
  split; [exact sendText_prepare_guard|].
  split; [exact fetchLatestMessage_guarded|].
  split; [exact poll_while_sending|].
  split; [exact reaction_refresh_ignores_guard|].
  exact sendMessage_clears_guard.
Qed.

(** *** Retrying a send *)

Lemma sendMessage_store message type targetMessageId id prevState st obj st0 :
  newMessage message type targetMessageId id st = (Ok obj, st0) ->
  store (snd (sendMessage message type targetMessageId id prevState st))
  = store (snd (sendOutcome type prevState obj st0)).
Proof.
  intros Hn. rewrite (sendMessage_unfold _ _ _ _ _ _ _ _ Hn). unfold sendOutcome.
  destruct (sendMessage_try type prevState (st0, obj)) as [r [s' obj']].
  cbn [snd]. destruct r; destruct s'; reflexivity.
Qed.

Lemma retrySendMessage_spec m st :
  retrySendMessage m st
  = (Ok tt, snd (sendMessage (MessageData.message m) (MessageData.type m)
                             (MessageData.targetMessageId m) (Some (MessageData.id m))
                             None st)).
Proof.
  unfold retrySendMessage, bind, settle, ret.
  destruct (sendMessage _ _ _ _ _ st); reflexivity.
Qed.

(** C10: [retrySendMessage] runs [sendMessage] with the message's own text,
    type, target and id and without a prior snapshot; for a reaction the
    snapshot written is then what [updateReactions] returns for the empty
    list and the reaction (the empty list when it returns nothing), where
    the same send with a prior snapshot writes what [updateReactions]
    returns for that snapshot and the reaction. *)
Theorem retry_omits_prior_snapshot :
  (forall m st,
      retrySendMessage m st
      = (Ok tt, snd (sendMessage (MessageData.message m) (MessageData.type m)
                                 (MessageData.targetMessageId m) (Some (MessageData.id m))
                                 None st)))
  /\ (forall m st,
        MessageData.type m = REACTION ->
        keyMatches st ->
        exists obj st0,
          newMessage (MessageData.message m) REACTION (MessageData.targetMessageId m)
                     (Some (MessageData.id m)) st = (Ok obj, st0)
          /\ MessageData.message obj = MessageData.message m
          /\ MessageData.type obj = REACTION
          /\ MessageData.targetMessageId obj = MessageData.targetMessageId m
          /\ (MessageData.id m <> EmptyString -> MessageData.id obj = MessageData.id m)
          /\ let st1 := snd (fetchLatestReactions None
                               (emitted MESSAGE_REQUEST_INITIATED (PMessage obj) st0)) in
             let idx := nextReactionIndex (reactionIndex st1) in
             let obj1 := MessageData.withIndex (FeedIndex.toString idx) obj in
             store (snd (retrySendMessage m st))
             = (store st ++ [ReadReactions None (reactionOptions st);
                             WriteReactions
                               match updateReactions [] obj1 with
                               | Some merged => merged
                               | None => []
                               end idx (reactionOptions st)])%list
             /\ forall prior,
                 store (snd (sendMessage (MessageData.message m) REACTION
                                         (MessageData.targetMessageId m)
                                         (Some (MessageData.id m)) (Some prior) st))
                 = (store st ++ [ReadReactions None (reactionOptions st);
                                 WriteReactions
                                   match updateReactions prior obj1 with
                                   | Some merged => merged
                                   | None => []
                                   end idx (reactionOptions st)])%list).
Proof.
  split; [exact retrySendMessage_spec|].
  intros m st Hty Hk.
  destruct (newMessage_spec (MessageData.message m) REACTION (MessageData.targetMessageId m)
                            (Some (MessageData.id m)) st Hk)
    as (obj & e' & Hn & Hm & Ht & Htg & Hid & _).
  exists obj, (set_env e' st).
  split; [exact Hn|]. split; [exact Hm|]. split; [exact Ht|]. split; [exact Htg|].
  split.
  - intros Hne. apply Hid. destruct (MessageData.id m); [congruence | reflexivity].
  - intros st1 idx obj1. split.
    + rewrite retrySendMessage_spec, Hty. cbn [snd].
      rewrite (sendMessage_store _ _ _ _ _ _ _ _ Hn).
      destruct (sendOutcome_reaction None obj (set_env e' st)) as [Hs _].
      fold st1 idx obj1 in Hs. rewrite Hs. destruct st; reflexivity.
    + intros prior.
      rewrite (sendMessage_store _ _ _ _ (Some prior) _ _ _ Hn).
      destruct (sendOutcome_reaction (Some prior) obj (set_env e' st)) as [Hs _].
      fold st1 idx obj1 in Hs. rewrite Hs. destruct st; reflexivity.
Qed.

End Verification.

(** ** Backfill after a checkpoint *)

Section Backfill.
Context {Env : Type} {C : Collaborators Env}.
Implicit Type st : State Env.

(** [initOwnIndex] with a checkpoint, when the tip read succeeds at once
    with an entry whose index lies beyond the checkpoint. *)
Lemma initOwnIndex_checkpoint st checkpoint tip e1 ix :
  readSingleComment None (commentOptions st) (env st) = (Ok (Some tip), e1) ->
  indexStrToBigint (MessageData.index tip) = Ok (Some ix) ->
  checkpoint < ix -> 0 < ix < 2 ^ 64 - 1 ->
  let st1 := asked (ReadSingle None (commentOptions st)) e1 (set_ownIndex checkpoint st) in
  initOwnIndex (Some checkpoint) st
  = fetchMessagesInRange (checkpoint + 1) ix (commentOptions st) (set_ownIndex ix st1).
Proof.
  intros Ht Hp Hlt Hix st1.
  unfold initOwnIndex. cbv [bind modify gets id ret]. cbn [retryAwaitableAsync].
  unfold tryCatch, call.
  replace (commentOptions (set_ownIndex checkpoint st)) with (commentOptions st)
    by (destruct st; reflexivity).
  replace (env (set_ownIndex checkpoint st)) with (env st) by (destruct st; reflexivity).
  rewrite Ht. unfold liftRes. rewrite Hp. cbn [truthyBigint when].
  replace (negb (ix =? 0)) with true by lia.
  unfold FeedIndex.equals, FeedIndex.MINUS_ONE, FeedIndex.fromBigInt at 1.
  rewrite Z.mod_small by lia.
  replace (negb (ix =? 2 ^ 64 - 1)) with true by lia.
  destruct st; cbn. replace (checkpoint <? ix) with true by lia. reflexivity.
Qed.

(** What a message refresh emits: nothing, or the one entry it read, whose
    index lies beyond the pointer. *)
Lemma fetchLatestMessage_emits st :
  let st' := snd (fetchLatestMessage st) in
  emitter st' = emitter st
  \/ exists c ix,
       emitter st' = (emitter st ++ [Emit MESSAGE_RECEIVED (PMessage c)])%list
       /\ indexStrToBigint (MessageData.index c) = Ok (Some ix)
       /\ ownIndex (userDetails st) < FeedIndex.fromBigInt ix.
Proof.
  destruct (isSending st) eqn:Hs.
  - rewrite (fetchLatestMessage_guarded st Hs). left. reflexivity.
  - destruct (readSingleComment None (commentOptions st) (env st)) as [r e'] eqn:E.
    rewrite (fetchLatestMessage_spec st r e' Hs E). cbn [snd].
    destruct r as [latest|e]; [|left; destruct st; reflexivity].
    destruct (indexStrToBigint (indexOf latest)) as [[ix|]|e] eqn:Ep;
      [|left; destruct st; reflexivity..].
    destruct latest as [c|]; [|left; destruct st; reflexivity].
    destruct (negb (ix =? 0)
              && negb (FeedIndex.equals (FeedIndex.fromBigInt ix) FeedIndex.MINUS_ONE)
              && (ownIndex (userDetails st) <? FeedIndex.fromBigInt ix)) eqn:Ec.
    + right. exists c, ix. split; [destruct st; reflexivity|]. split; [exact Ep|].
      apply andb_prop in Ec. destruct Ec as [_ Hlt]. now apply Z.ltb_lt in Hlt.
    + left. destruct st; reflexivity.
Qed.

(** What a reaction refresh emits: nothing, or the snapshot it read. *)
Lemma fetchLatestReactions_emits index st :
  let st' := snd (fetchLatestReactions index st) in
  emitter st' = emitter st
  \/ exists rs e',
       readReactionsWithIndex (option_map FeedIndex.fromBigInt index)
                              (reactionOptions st) (env st) = (Ok rs, e')
       /\ emitter st' = (emitter st ++ received (messages rs))%list.
Proof.
  destruct (readReactionsWithIndex (option_map FeedIndex.fromBigInt index)
                                   (reactionOptions st) (env st)) as [r e'] eqn:E.
  rewrite (fetchLatestReactions_spec index st r e' E). cbn [snd].
  destruct r as [rs|e]; [|left; destruct st; reflexivity].
  destruct (indexStrToBigint (Some (nextIndex rs))) as [[next|]|e].
  - destruct ((next =? 0) || (next <? 0)
              || FeedIndex.equals (FeedIndex.fromBigInt next) FeedIndex.MINUS_ONE).
    + left. unfold bumpReaction.
      destruct (_ <? _); destruct st; reflexivity.
    + destruct (reactionIndex st + 1 <? next).
      * right. exists rs, e'. split; [reflexivity|].
        unfold bumpReaction. destruct (_ <? _); destruct st; reflexivity.
      * left. unfold bumpReaction. destruct (_ <? _); destruct st; reflexivity.
  - left. unfold bumpReaction. destruct (_ <? _); destruct st; reflexivity.
  - left. destruct st; reflexivity.
Qed.

Lemma initOwnIndex_10_13 st tip e1 page e2 :
  readSingleComment None (commentOptions st) (env st) = (Ok (Some tip), e1) ->
  indexStrToBigint (MessageData.index tip) = Ok (Some 13) ->
  readCommentsInRange 11 13 (commentOptions st) e1 = (Ok (Some page), e2) ->
  initOwnIndex (Some 10) st
  = (Ok tt,
     set_emitter (emitter st ++ delivered page)
       (asked (ReadRange 11 13 (commentOptions st)) e2
          (set_ownIndex 13
             (asked (ReadSingle None (commentOptions st)) e1 (set_ownIndex 10 st))))).
Proof.
  intros Ht Hp Hr.
  rewrite (initOwnIndex_checkpoint st 10 tip e1 13 Ht Hp) by lia.
  rewrite (fetchMessagesInRange_spec (10 + 1) 13 (commentOptions st) _ (Ok (Some page)) e2).
  - destruct st; reflexivity.
  - destruct st; exact Hr.
Qed.

(** [init] with a checkpoint for all three streams: LOADING_INIT, the
    backfill, LOADING_INIT. *)
Lemma init_10_13 st tip e1 page e2 first r :
  readSingleComment None (commentOptions st) (env st) = (Ok (Some tip), e1) ->
  indexStrToBigint (MessageData.index tip) = Ok (Some 13) ->
  readCommentsInRange 11 13 (commentOptions st) e1 = (Ok (Some page), e2) ->
  let options := {| firstIndex := first; latestIndex := Some 10;
                    preloadReactionIndex := Some r |} in
  let st' := snd (init (Some options) st) in
  fst (init (Some options) st) = Ok tt
  /\ emitter st' = (emitter st ++ Emit LOADING_INIT (PBool true) :: delivered page
                                ++ [Emit LOADING_INIT (PBool false)])%list
  /\ errorHandler st' = errorHandler st
  /\ ownIndex (userDetails st') = 13
  /\ reactionIndex st' = r.
Proof.
  intros Ht Hp Hr options st'.
  assert (Hinit : init (Some options) st
                  = (Ok tt,
                     emitted LOADING_INIT (PBool false)
                       (set_reactionIndex r
                          (set_startIndex (match first with Some f => f | None => 10 end)
                             (snd (initOwnIndex (Some 10)
                                     (emitted LOADING_INIT (PBool true) st))))))).
  { unfold init, tryCatch. cbv [bind emit modify settle]. cbn [options latestIndex firstIndex
                                                            preloadReactionIndex].
    fold (emitted LOADING_INIT (PBool true) st).
    rewrite (initOwnIndex_10_13 (emitted LOADING_INIT (PBool true) st) tip e1 page e2 Ht Hp Hr).
    destruct first; reflexivity. }
  subst st'. rewrite Hinit.
  rewrite (initOwnIndex_10_13 (emitted LOADING_INIT (PBool true) st) tip e1 page e2 Ht Hp Hr).
  destruct st; cbn. rewrite <- !app_assoc. repeat split.
Qed.

Lemma delivered_In (page : list MessageData.t) m :
  In (Emit MESSAGE_RECEIVED (PMessage m)) (delivered page)
  <-> In m page /\ validateUserSignature m = true.
Proof.
  unfold delivered. rewrite in_map_iff. split.
  - intros (c & Hc & Hin). inversion Hc; subst. now apply filter_In in Hin.
  - intros H. exists m. split; [reflexivity|]. now apply filter_In.
Qed.

(** C3 (as amended): started from the checkpoint 10, with the pointer still
    at the checkpoint when the tip read of [initOwnIndex] returns index 13,
    [initOwnIndex] asks for the range 11..13 in one read and emits, once
    each and in page order, those entries of the page it gets that pass
    [validateUserSignature] -- all three when the three are valid, the
    first and the third when only the second is not -- and leaves the
    pointer at 13; [init] as a whole emits them between its two
    LOADING_INIT signals; the message refresh of the next poll tick then
    emits nothing when the tip is unchanged, and in any case nothing but a
    newly read entry whose index lies beyond 13; the rest of the tick emits
    only what the reaction read returns. *)
Theorem checkpoint_backfill st tip e1 page e2 :
  readSingleComment None (commentOptions st) (env st) = (Ok (Some tip), e1) ->
  indexStrToBigint (MessageData.index tip) = Ok (Some 13) ->
  readCommentsInRange 11 13 (commentOptions st) e1 = (Ok (Some page), e2) ->
  let backfilled :=
    map (fun c => Emit MESSAGE_RECEIVED (PMessage c)) (filter validateUserSignature page) in
  let st' := snd (initOwnIndex (Some 10) st) in
  fst (initOwnIndex (Some 10) st) = Ok tt
  /\ store st' = (store st ++ [ReadSingle None (commentOptions st);
                               ReadRange 11 13 (commentOptions st)])%list
  /\ requestedIndices (ReadRange 11 13 (commentOptions st)) = [11; 12; 13]
  /\ emitter st' = (emitter st ++ backfilled)%list
  /\ (forall m, In (Emit MESSAGE_RECEIVED (PMessage m)) backfilled
                <-> In m page /\ validateUserSignature m = true)
  /\ (forall m11 m12 m13,
        page = [m11; m12; m13] ->
        validateUserSignature m11 = true ->
        validateUserSignature m13 = true ->
        backfilled
        = if validateUserSignature m12
          then [Emit MESSAGE_RECEIVED (PMessage m11);
                Emit MESSAGE_RECEIVED (PMessage m12);
                Emit MESSAGE_RECEIVED (PMessage m13)]
          else [Emit MESSAGE_RECEIVED (PMessage m11);
                Emit MESSAGE_RECEIVED (PMessage m13)])
  /\ ownIndex (userDetails st') = 13
  /\ (forall first r,
        let options := {| firstIndex := first; latestIndex := Some 10;
                          preloadReactionIndex := Some r |} in
        fst (init (Some options) st) = Ok tt
        /\ emitter (snd (init (Some options) st))
           = (emitter st ++ Emit LOADING_INIT (PBool true) :: backfilled
                         ++ [Emit LOADING_INIT (PBool false)])%list
        /\ ownIndex (userDetails (snd (init (Some options) st))) = 13)
  /\ (forall e3,
        readSingleComment None (commentOptions st') (env st') = (Ok (Some tip), e3) ->
        emitter (snd (fetchLatestMessage st')) = emitter st'
        /\ ownIndex (userDetails (snd (fetchLatestMessage st'))) = 13)
  /\ (emitter (snd (fetchLatestMessage st')) = emitter st'
      \/ exists c ix,
           emitter (snd (fetchLatestMessage st'))
           = (emitter st' ++ [Emit MESSAGE_RECEIVED (PMessage c)])%list
           /\ indexStrToBigint (MessageData.index c) = Ok (Some ix)
           /\ 13 < FeedIndex.fromBigInt ix)
  /\ (forall index,
        let sm := snd (fetchLatestMessage st') in
        emitter (snd (fetchLatestReactions index sm)) = emitter sm
        \/ exists rs e',
             readReactionsWithIndex (option_map FeedIndex.fromBigInt index)
                                    (reactionOptions sm) (env sm) = (Ok rs, e')
             /\ emitter (snd (fetchLatestReactions index sm))
                = (emitter sm ++ received (messages rs))%list).
Proof.
  intros Ht Hp Hr backfilled st'.
  pose proof (initOwnIndex_10_13 st tip e1 _ e2 Ht Hp Hr) as Hinit.
  assert (Hdel : delivered page = backfilled) by reflexivity.
  assert (Hown : ownIndex (userDetails st') = 13)
    by (subst st'; rewrite Hinit; destruct st; reflexivity).
  split; [rewrite Hinit; reflexivity|].
  split; [subst st'; rewrite Hinit; destruct st; cbn; rewrite <- app_assoc; reflexivity|].
  split; [reflexivity|].
  split; [subst st'; rewrite Hinit, <- Hdel; destruct st; reflexivity|].
  split; [intros m; rewrite <- Hdel; apply delivered_In|].
  split.
  { intros m11 m12 m13 -> H11 H13. subst backfilled. cbn [filter].
    rewrite H11, H13. destruct (validateUserSignature m12); reflexivity. }
  split; [exact Hown|].
  split; [|split; [|split]].
  - intros first r options.
    destruct (init_10_13 st tip e1 _ e2 first r Ht Hp Hr) as (Hok & Hem & _ & Ho & _).
    rewrite Hdel in Hem. repeat split; assumption.
  - intros e3 Ht'.
    destruct (isSending st') eqn:Hs.
    + rewrite (fetchLatestMessage_guarded st' Hs). split; [reflexivity | exact Hown].
    + rewrite (fetchLatestMessage_spec st' _ e3 Hs Ht'). cbn [indexOf snd].
      rewrite Hp, Hown.
      replace (13 <? FeedIndex.fromBigInt 13) with false by reflexivity.
      rewrite andb_false_r. destruct st'; cbn in *. split; [reflexivity | exact Hown].
  - pose proof (fetchLatestMessage_emits st') as He. cbn zeta in He.
    rewrite Hown in He. exact He.
  - intros index sm. apply fetchLatestReactions_emits.
Qed.

End Backfill.

(** ** Bounded retry *)

Section Retry.
Context {Env : Type} {C : Collaborators Env}.
Implicit Type st : State Env.

Lemma retry_call_spec {A} (c : StoreCall) (f : Env -> Res A * Env) (retries : nat) :
  forall st r st',
    retryAwaitableAsync (call c f) retries st = (r, st') ->
    exists k,
      (1 <= k <= S retries)%nat
      /\ store st' = (store st ++ repeat c k)%list
      /\ emitter st' = emitter st
      /\ userDetails st' = userDetails st
      /\ reactionIndex st' = reactionIndex st
      /\ startIndex st' = startIndex st
      /\ match r with
         | Ok _ => errorHandler st' = errorHandler st
         | Throw e =>
             k = S retries
             /\ errorHandler st' = (errorHandler st ++ [(e, "Utils.retryAwaitableAsync")])%list
         end.
Proof.
  induction retries as [|n IH]; intros st r st' H; cbn [retryAwaitableAsync] in H;
    unfold tryCatch, call at 1 in H; destruct (f (env st)) as [[a|e] e'] eqn:E;
    cbv [bind handleError modify throw] in H.
  - inversion H; subst. exists 1%nat. destruct st; cbn. repeat split; lia.
  - inversion H; subst. exists 1%nat. destruct st; cbn. repeat split; lia.
  - inversion H; subst. exists 1%nat. destruct st; cbn. repeat split; lia.
  - apply IH in H. destruct H as (k & Hk & Hs & He & Hu & Hr & Hi & Hres).
    exists (S k). destruct st; cbn in *.
    rewrite Hs, <- app_assoc. repeat split; try assumption; try lia.
    destruct r; [assumption|]. destruct Hres as [-> Hres]. split; [reflexivity | assumption].
Qed.

(** X1: [retryAwaitableAsync] on a store call makes between one and
    [retries + 1] calls and nothing else; it reports nothing when it returns
    a value, and when it throws it has used every attempt and reported the
    last error once; a call that succeeds at once is made once. *)
Theorem retry_is_bounded {A} (c : StoreCall) (f : Env -> Res A * Env) (retries : nat) st :
  let r := fst (retryAwaitableAsync (call c f) retries st) in
  let st' := snd (retryAwaitableAsync (call c f) retries st) in
  (exists k,
      (1 <= k <= S retries)%nat
      /\ store st' = (store st ++ repeat c k)%list
      /\ emitter st' = emitter st
      /\ match r with
         | Ok _ => errorHandler st' = errorHandler st
         | Throw e =>
             k = S retries
             /\ errorHandler st' = (errorHandler st ++ [(e, "Utils.retryAwaitableAsync")])%list
         end)
  /\ (forall a e', f (env st) = (Ok a, e') ->
        r = Ok a /\ store st' = (store st ++ [c])%list).
Proof.
  intros r st'. split.
  - destruct (retryAwaitableAsync (call c f) retries st) as [r0 s0] eqn:E.
    destruct (retry_call_spec c f retries st r0 s0 E) as (k & Hk & Hs & He & _ & _ & _ & Hres).
    exists k. subst r st'. cbn [fst snd]. repeat split; try assumption; lia.
  - intros a e' Hf. subst r st'.
    destruct retries; cbn [retryAwaitableAsync]; unfold tryCatch, call; rewrite Hf;
      destruct st; split; reflexivity.
Qed.

End Retry.

(** ** Loading earlier pages *)

Section Pages.
Context {Env : Type} {C : Collaborators Env}.
Implicit Type st : State Env.

Lemma fetchPreviousMessages_run st :
  fetchPreviousMessages st
  = (fst (fetchPreviousMessageState (emitted LOADING_PREVIOUS_MESSAGES (PBool true) st)),
     emitted LOADING_PREVIOUS_MESSAGES (PBool false)
             (snd (fetchPreviousMessageState
                     (emitted LOADING_PREVIOUS_MESSAGES (PBool true) st)))).
Proof.
  unfold fetchPreviousMessages, tryFinally, bind, emit, modify, emitted.
  destruct (fetchPreviousMessageState _) as [[[]|e] s1]; reflexivity.
Qed.

(** X2: [fetchPreviousMessages] signals LOADING_PREVIOUS_MESSAGES true
    first and false last whatever happens, delivers only MESSAGE_RECEIVED in
    between and never calls the error handler; when the range read throws the
    error is passed on to the caller and the cursor stays where it was. *)
Theorem previous_page_signals st :
  let r := fst (fetchPreviousMessages st) in
  let st' := snd (fetchPreviousMessages st) in
  (exists page,
      emitter st' = (emitter st ++ Emit LOADING_PREVIOUS_MESSAGES (PBool true)
                                 :: received page
                                 ++ [Emit LOADING_PREVIOUS_MESSAGES (PBool false)])%list
      /\ (forall e, r = Throw e -> page = [] /\ startIndex st' = startIndex st))
  /\ errorHandler st' = errorHandler st
  /\ (forall e a b e',
        0 < startIndex st ->
        a = FeedIndex.fromBigInt (if COMMENTS_TO_READ <? startIndex st
                                  then startIndex st - COMMENTS_TO_READ else 0) ->
        b = FeedIndex.fromBigInt (startIndex st - 1) ->
        readCommentsInRange a b (commentOptions st) (env st) = (Throw e, e') ->
        r = Throw e).
Proof.
  intros r st'.
  set (sti := emitted LOADING_PREVIOUS_MESSAGES (PBool true) st).
  subst r st'. rewrite fetchPreviousMessages_run. fold sti. cbn [fst snd].
  destruct (Z_le_gt_dec (startIndex st) 0) as [Hle|Hgt].
  - rewrite (fetchPreviousMessageState_idle sti Hle).
    cbn [fst snd]. split; [|split].
    + exists []. split; [|intros e He; discriminate He].
      subst sti. cbn. rewrite <- app_assoc. reflexivity.
    + reflexivity.
    + intros. lia.
  - assert (Hpos : 0 < startIndex sti) by (apply Z.gt_lt; exact Hgt).
    destruct (readCommentsInRange
                (FeedIndex.fromBigInt (if COMMENTS_TO_READ <? startIndex sti
                                       then startIndex sti - COMMENTS_TO_READ else 0))
                (FeedIndex.fromBigInt (startIndex sti - 1))
                (commentOptions sti) (env sti)) as [rr e'] eqn:E.
    rewrite (fetchPreviousMessageState_spec sti rr e' Hpos E).
    split; [|split].
    + destruct rr as [[comments|]|e].
      * exists (filter validateUserSignature comments). cbn [fst snd].
        split; [|intros e He; discriminate He].
        subst sti. cbn. unfold delivered, received. rewrite <- !app_assoc. reflexivity.
      * exists []. cbn [fst snd]. split; [|intros e He; discriminate He].
        subst sti. cbn. rewrite <- app_assoc. reflexivity.
      * exists []. cbn [fst snd]. split; [|intros e0 _; split; reflexivity].
        subst sti. cbn. rewrite <- app_assoc. reflexivity.
    + destruct rr as [[comments|]|e]; reflexivity.
    + intros e a b e'' _ -> -> Hthrow.
      assert (Heq : (rr, e') = (Throw e, e'')) by (rewrite <- E, <- Hthrow; reflexivity).
      inversion Heq; subst. reflexivity.
Qed.

Lemma indicesOf_app a b c :
  a <= b + 1 -> b <= c -> (indicesOf a b ++ indicesOf (b + 1) c)%list = indicesOf a c.
Proof.
  intros Hab Hbc. unfold indicesOf.
  replace (Z.to_nat (c - a + 1))
    with (Z.to_nat (b - a + 1) + Z.to_nat (c - (b + 1) + 1))%nat by lia.
  rewrite seq_app, map_app. f_equal.
  generalize (Z.to_nat (c - (b + 1) + 1)) as n. generalize 0%nat as s.
  intros s n. revert s. induction n as [|n IH]; intros s; [reflexivity|].
  cbn [seq map]. f_equal; [lia|]. apply (IH (S s)).
Qed.

Lemma requestedBy_snoc calls c :
  requestedBy (calls ++ [c]) = (requestedBy calls ++ requestedIndices c)%list.
Proof. unfold requestedBy. rewrite flat_map_app. cbn. now rewrite app_nil_r. Qed.

Lemma pages_next_count c :
  0 < c ->
  S (Z.to_nat (((if COMMENTS_TO_READ <? c then c - COMMENTS_TO_READ else 0) + 8) / 9))
  = Z.to_nat ((c + 8) / 9).
Proof.
  intros Hc. unfold COMMENTS_TO_READ. destruct (9 <? c) eqn:E.
  - apply Z.ltb_lt in E. replace (c + 8) with (c - 9 + 8 + 1 * 9) by lia.
    rewrite Z.div_add by lia.
    assert (0 <= (c - 9 + 8) / 9) by (apply Z.div_pos; lia). lia.
  - apply Z.ltb_ge in E. replace (c + 8) with (c - 1 + 1 * 9) by lia.
    rewrite Z.div_add by lia. rewrite (Z.div_small (c - 1) 9) by lia. reflexivity.
Qed.

Lemma loadPages_S k st :
  loadPages (S k) st
  = match fst (fetchPreviousMessages st) with
    | Ok _ => loadPages k (snd (fetchPreviousMessages st))
    | Throw e => (Throw e, snd (fetchPreviousMessages st))
    end.
Proof.
  cbn [loadPages]. unfold bind.
  destruct (fetchPreviousMessages st) as [[[]|e] s1]; reflexivity.
Qed.

Lemma loadPages_cover
      (Hread : forall a b o e, exists r e', readCommentsInRange a b o e = (Ok r, e')) :
  forall k st,
    0 <= startIndex st <= 9 * Z.of_nat k -> startIndex st < 2 ^ 64 ->
    fst (loadPages k st) = Ok tt
    /\ startIndex (snd (loadPages k st)) = 0
    /\ exists calls,
         store (snd (loadPages k st)) = (store st ++ calls)%list
         /\ List.length calls = Z.to_nat ((startIndex st + 8) / 9)
         /\ requestedBy (rev calls) = indicesOf 0 (startIndex st - 1).
Proof.
  induction k as [|k IH]; intros st Hc Hhi.
  - assert (Hz : startIndex st = 0) by lia. cbn [loadPages]. unfold ret. cbn [fst snd].
    split; [reflexivity|]. split; [exact Hz|]. exists []. rewrite Hz, app_nil_r.
    repeat split; reflexivity.
  - rewrite loadPages_S, fetchPreviousMessages_run.
    set (sti := emitted LOADING_PREVIOUS_MESSAGES (PBool true) st).
    destruct (Z.eq_dec (startIndex st) 0) as [Hz|Hnz].
    + assert (Hidle : startIndex sti <= 0) by (change (startIndex st <= 0); lia).
      rewrite (fetchPreviousMessageState_idle sti Hidle).
      cbn [fst snd].
      set (st1 := emitted LOADING_PREVIOUS_MESSAGES (PBool false) sti).
      assert (Hs1 : startIndex st1 = startIndex st) by reflexivity.
      assert (Hst1 : store st1 = store st) by reflexivity.
      destruct (IH st1) as (Hr & Hs & calls & Hst & Hlen & Hreq);
        [rewrite Hs1; lia | rewrite Hs1; lia |].
      split; [exact Hr|]. split; [exact Hs|]. exists calls.
      rewrite Hs1, Hst1 in *.
      repeat split; [exact Hst | exact Hlen | exact Hreq].
    + assert (Hpos : 0 < startIndex sti) by (change (0 < startIndex st); lia).
      set (new := if COMMENTS_TO_READ <? startIndex st
                  then startIndex st - COMMENTS_TO_READ else 0).
      assert (Hnew : 0 <= new <= 9 * Z.of_nat k /\ new < startIndex st).
      { subst new. unfold COMMENTS_TO_READ. destruct (9 <? startIndex st) eqn:E.
        - apply Z.ltb_lt in E. lia.
        - lia. }
      destruct (Hread (FeedIndex.fromBigInt new) (FeedIndex.fromBigInt (startIndex st - 1))
                      (commentOptions st) (env st)) as (r & e' & E).
      rewrite (fetchPreviousMessageState_spec sti (Ok r) e' Hpos E).
      set (c := ReadRange (FeedIndex.fromBigInt new)
                          (FeedIndex.fromBigInt (startIndex st - 1)) (commentOptions st)).
      assert (Hc1 : requestedIndices c = indicesOf new (startIndex st - 1)).
      { subst c. cbn [requestedIndices]. unfold FeedIndex.toBigInt, FeedIndex.fromBigInt.
        rewrite !Z.mod_small by lia. reflexivity. }
      assert (Hgo : forall st1,
                 startIndex st1 = new -> store st1 = (store st ++ [c])%list ->
                 fst (loadPages k st1) = Ok tt
                 /\ startIndex (snd (loadPages k st1)) = 0
                 /\ exists calls,
                      store (snd (loadPages k st1)) = (store st ++ calls)%list
                      /\ List.length calls = Z.to_nat ((startIndex st + 8) / 9)
                      /\ requestedBy (rev calls) = indicesOf 0 (startIndex st - 1)).
      { intros st1 Hs1 Hst1.
        destruct (IH st1) as (Hr & Hs & calls & Hst & Hlen & Hreq); [lia | lia |].
        split; [exact Hr|]. split; [exact Hs|]. exists (c :: calls).
        split; [rewrite Hst, Hst1, <- app_assoc; reflexivity|]. split.
        - cbn [List.length]. rewrite Hlen, Hs1. apply pages_next_count. lia.
        - cbn [rev]. rewrite requestedBy_snoc, Hreq, Hc1, Hs1.
          replace new with (new - 1 + 1) at 2 by lia.
          apply indicesOf_app; lia. }
      destruct r as [comments|]; cbn [fst snd]; apply Hgo; reflexivity.
Qed.

(** X3: when range reads do not throw, loading pages with
    [fetchPreviousMessages] from a cursor [c] reaches cursor 0 after
    ceil(c / 9) reads; read in reverse order of the calls, the requested
    indices are exactly 0, 1, ..., c - 1, each once, and
    [hasPreviousMessages] is false at the end. *)
Theorem paging_covers_history st
        (Hread : forall a b o e, exists r e', readCommentsInRange a b o e = (Ok r, e'))
        (Hlo : 0 <= startIndex st) (Hhi : startIndex st < 2 ^ 64) :
  let k := Z.to_nat ((startIndex st + 8) / 9) in
  let st' := snd (loadPages k st) in
  fst (loadPages k st) = Ok tt
  /\ startIndex st' = 0
  /\ hasPreviousMessages st' = false
  /\ exists calls,
       store st' = (store st ++ calls)%list
       /\ List.length calls = k
       /\ requestedBy (rev calls) = indicesOf 0 (startIndex st - 1).
Proof.
  intros k st'.
  assert (Hk : 0 <= startIndex st <= 9 * Z.of_nat k).
  { subst k. split; [exact Hlo|].
    assert (H0 : 0 <= (startIndex st + 8) / 9) by (apply Z.div_pos; lia).
    rewrite Z2Nat.id by exact H0.
    pose proof (Z.mul_div_le (startIndex st + 8) 9 ltac:(lia)).
    pose proof (Z.mod_pos_bound (startIndex st + 8) 9 ltac:(lia)).
    pose proof (Z.div_mod (startIndex st + 8) 9 ltac:(lia)). lia. }
  destruct (loadPages_cover Hread k st Hk Hhi) as (Hr & Hs & calls & Hst & Hlen & Hreq).
  split; [exact Hr|]. split; [exact Hs|]. split.
  - unfold hasPreviousMessages. subst st'. rewrite Hs. reflexivity.
  - exists calls. repeat split; assumption.
Qed.

End Pages.

(** ** The poll loop *)

(** A goal about the fields of a state built from [st] is settled on [st]
    given field by field, test by test. *)
Ltac field_cases st :=
  destruct st; cbv [asked reported bumpReaction emitted]; cbn in *;
  repeat match goal with
         | |- context [if ?b then _ else _] => destruct b eqn:?
         end;
  cbn in *; rewrite ?app_nil_r; repeat split; try lia; try congruence.

Section Polling.
Context {Env : Type} {C : Collaborators Env}.
Implicit Type st : State Env.

Lemma fetchLatestMessage_flags st :
  let st' := snd (fetchLatestMessage st) in
  stopFetch st' = stopFetch st
  /\ fetchProcessRunning st' = fetchProcessRunning st
  /\ reactionOptions st' = reactionOptions st
  /\ store st' = (store st ++ if isSending st then []
                              else [ReadSingle None (commentOptions st)])%list.
Proof.
  destruct (isSending st) eqn:Hs.
  - rewrite (fetchLatestMessage_guarded st Hs). cbn. rewrite app_nil_r. repeat split.
  - destruct (readSingleComment None (commentOptions st) (env st)) as [r e'] eqn:E.
    rewrite (fetchLatestMessage_spec st r e' Hs E). cbn [fst snd].
    destruct r as [latest|e]; [|field_cases st].
    destruct (indexStrToBigint (indexOf latest)) as [[ix|]|e]; [|field_cases st..].
    destruct latest as [c|]; field_cases st.
Qed.

Lemma fetchLatestReactions_flags index st :
  let st' := snd (fetchLatestReactions index st) in
  stopFetch st' = stopFetch st
  /\ fetchProcessRunning st' = fetchProcessRunning st.
Proof.
  destruct (readReactionsWithIndex (option_map FeedIndex.fromBigInt index)
                                   (reactionOptions st) (env st)) as [r e'] eqn:E.
  rewrite (fetchLatestReactions_spec index st r e' E). cbn [fst snd].
  destruct r as [rs|e]; [|field_cases st].
  destruct (indexStrToBigint (Some (nextIndex rs))) as [[next|]|e]; field_cases st.
Qed.

Lemma poll_run st :
  stopFetch st = false ->
  poll st = (Ok true, snd (fetchLatestReactions (Some (reactionIndex st + 1))
                                                (snd (fetchLatestMessage st)))).
Proof.
  intros Hf. unfold poll, bind at 1, gets at 1, id. rewrite Hf.
  unfold bind, settle, ret.
  destruct (fetchLatestMessage st) as [r1 s1]. cbn [snd].
  destruct (fetchLatestReactions (Some (reactionIndex st + 1)) s1); reflexivity.
Qed.

Lemma poll_stopped st :
  stopFetch st = true -> poll st = (Ok false, set_fetchProcessRunning false st).
Proof. intros Hf. unfold poll, bind, gets, id, modify, ret. now rewrite Hf. Qed.

Lemma poll_flags st :
  stopFetch st = false ->
  fst (poll st) = Ok true
  /\ stopFetch (snd (poll st)) = false
  /\ fetchProcessRunning (snd (poll st)) = fetchProcessRunning st
  /\ store (snd (poll st))
     = (store st ++ (if isSending st then [] else [ReadSingle None (commentOptions st)])
              ++ [ReadReactions (Some (FeedIndex.fromBigInt (reactionIndex st + 1)))
                                (reactionOptions st)])%list.
Proof.
  intros Hf. rewrite (poll_run st Hf). cbn [fst snd].
  destruct (fetchLatestMessage_flags st) as (H1 & H2 & H3 & H4).
  destruct (fetchLatestReactions_flags (Some (reactionIndex st + 1))
                                       (snd (fetchLatestMessage st))) as (H5 & H6).
  destruct (fetchLatestReactions_props (Some (reactionIndex st + 1))
                                       (snd (fetchLatestMessage st)))
    as (_ & _ & _ & _ & _ & _ & H7).
  split; [reflexivity|]. split; [congruence|]. split; [congruence|].
  rewrite H7, H4, H3, <- app_assoc. reflexivity.
Qed.

(** X4: one run of the [poll] closure never rejects.  With the stop flag
    set it calls nothing on the store, marks the process as not running and
    does not reschedule.  Otherwise it reschedules, keeps both flags, and
    its store calls are the tip read (left out while a send is in flight)
    followed by one reaction read at [reactionIndex + 1]. *)
Theorem poll_tick st :
  if stopFetch st
  then poll st = (Ok false, set_fetchProcessRunning false st)
  else fst (poll st) = Ok true
       /\ stopFetch (snd (poll st)) = false
       /\ fetchProcessRunning (snd (poll st)) = fetchProcessRunning st
       /\ store (snd (poll st))
          = (store st
               ++ (if isSending st then [] else [ReadSingle None (commentOptions st)])
               ++ [ReadReactions (Some (FeedIndex.fromBigInt (reactionIndex st + 1)))
                                 (reactionOptions st)])%list.
Proof.
  destruct (stopFetch st) eqn:Hf.
  - apply poll_stopped, Hf.
  - apply poll_flags, Hf.
Qed.

Lemma fetchLatestMessage_settled latest e1 e2 s :
  isSending s = false ->
  env s = e1 ->
  readSingleComment None (commentOptions s) e1 = (Ok latest, e2) ->
  (forall ix c, indexStrToBigint (indexOf latest) = Ok (Some ix) -> latest = Some c ->
                negb (ix =? 0)
                && negb (FeedIndex.equals (FeedIndex.fromBigInt ix) FeedIndex.MINUS_ONE)
                && (ownIndex (userDetails s) <? FeedIndex.fromBigInt ix) = false) ->
  emitter (snd (fetchLatestMessage s)) = emitter s
  /\ ownIndex (userDetails (snd (fetchLatestMessage s))) = ownIndex (userDetails s).
Proof.
  intros Hs He H2 Hc. rewrite <- He in H2.
  rewrite (fetchLatestMessage_spec s _ _ Hs H2). cbn [snd].
  destruct (indexStrToBigint (indexOf latest)) as [[ix|]|e] eqn:Ep.
  - destruct latest as [c|]; [|destruct s; split; reflexivity].
    rewrite (Hc ix c eq_refl eq_refl). destruct s; split; reflexivity.
  - destruct s; split; reflexivity.
  - destruct s; split; reflexivity.
Qed.

(** X5: a tip is delivered at most once.  When two message refreshes in a
    row read the same tip entry, the second one emits nothing and leaves
    the message pointer where the first one put it. *)
Theorem tip_delivered_once st latest e1 e2
        (Hs : isSending st = false)
        (H1 : readSingleComment None (commentOptions st) (env st) = (Ok latest, e1))
        (H2 : readSingleComment None (commentOptions st) e1 = (Ok latest, e2)) :
  let st1 := snd (fetchLatestMessage st) in
  let st2 := snd (fetchLatestMessage st1) in
  emitter st2 = emitter st1
  /\ ownIndex (userDetails st2) = ownIndex (userDetails st1).
Proof.
  intros st1 st2. subst st2.
  assert (Hst1 : st1 = snd (fetchLatestMessage st)) by reflexivity.
  rewrite (fetchLatestMessage_spec st _ _ Hs H1) in Hst1. cbn [snd] in Hst1.
  destruct (indexStrToBigint (indexOf latest)) as [[ix|]|e] eqn:Ep.
  - destruct latest as [c|].
    + destruct (negb (ix =? 0)
                && negb (FeedIndex.equals (FeedIndex.fromBigInt ix) FeedIndex.MINUS_ONE)
                && (ownIndex (userDetails st) <? FeedIndex.fromBigInt ix)) eqn:Ec.
      * rewrite Hst1.
        apply (fetchLatestMessage_settled (Some c) e1 e2); [exact Hs | reflexivity | exact H2 |].
        intros ix' c' Hix _. rewrite Ep in Hix. inversion Hix; subst ix'.
        change (ownIndex (userDetails _)) with (FeedIndex.fromBigInt ix).
        rewrite Z.ltb_irrefl. apply andb_false_r.
      * rewrite Hst1.
        apply (fetchLatestMessage_settled (Some c) e1 e2); [exact Hs | reflexivity | exact H2 |].
        intros ix' c' Hix _. rewrite Ep in Hix. inversion Hix; subst ix'. exact Ec.
    + rewrite Hst1.
      apply (fetchLatestMessage_settled None e1 e2); [exact Hs | reflexivity | exact H2 |].
      intros ix' c' _ Hc. discriminate Hc.
  - rewrite Hst1.
    apply (fetchLatestMessage_settled latest e1 e2); [exact Hs | reflexivity | exact H2 |].
    intros ix' c' Hix _. rewrite Ep in Hix. discriminate Hix.
  - rewrite Hst1.
    apply (fetchLatestMessage_settled latest e1 e2); [exact Hs | reflexivity | exact H2 |].
    intros ix' c' Hix _. rewrite Ep in Hix. discriminate Hix.
Qed.

Lemma bumpReaction_fields next (e' : Env) c (s : State Env) :
  let s1 := bumpReaction next (asked c e' s) in
  emitter s1 = emitter s
  /\ reactionOptions s1 = reactionOptions s
  /\ env s1 = e'
  /\ reactionIndex s1 = Z.max (reactionIndex s) (next - 1).
Proof.
  destruct s; cbv [bumpReaction asked]; cbn.
  destruct (reactionIndex0 <? next - 1) eqn:E; cbn; repeat split; lia.
Qed.

(** X6: a reaction snapshot is delivered at most once.  When two reaction
    refreshes in a row read the same answer, whose next index is below 2^64
    when it is one, the second one emits nothing and leaves the reaction
    pointer where the first one put it. *)
Theorem reactions_delivered_once index index' st rs e1 e2
        (H1 : readReactionsWithIndex (option_map FeedIndex.fromBigInt index)
                                     (reactionOptions st) (env st) = (Ok rs, e1))
        (H2 : readReactionsWithIndex (option_map FeedIndex.fromBigInt index')
                                     (reactionOptions st) e1 = (Ok rs, e2))
        (Hn : forall next, indexStrToBigint (Some (nextIndex rs)) = Ok (Some next) ->
                           next < 2 ^ 64) :
  let st1 := snd (fetchLatestReactions index st) in
  let st2 := snd (fetchLatestReactions index' st1) in
  emitter st2 = emitter st1
  /\ reactionIndex st2 = reactionIndex st1.
Proof.
  intros st1 st2.
  assert (Hst1 : st1 = snd (fetchLatestReactions index st)) by reflexivity.
  rewrite (fetchLatestReactions_spec index st _ _ H1) in Hst1. cbn [snd] in Hst1.
  assert (Hgo : reactionOptions st1 = reactionOptions st -> env st1 = e1 ->
                (forall next, indexStrToBigint (Some (nextIndex rs)) = Ok (Some next) ->
                   (next =? 0) || (next <? 0)
                   || FeedIndex.equals (FeedIndex.fromBigInt next) FeedIndex.MINUS_ONE = false ->
                   next - 1 <= reactionIndex st1) ->
                -1 <= reactionIndex st1 ->
                emitter st2 = emitter st1 /\ reactionIndex st2 = reactionIndex st1).
  { intros Ho He Hnext Hm1. subst st2.
    rewrite <- Ho, <- He in H2.
    rewrite (fetchLatestReactions_spec index' st1 _ _ H2). cbn [snd].
    destruct (indexStrToBigint (Some (nextIndex rs))) as [[next|]|e] eqn:Ep.
    - destruct ((next =? 0) || (next <? 0)
                || FeedIndex.equals (FeedIndex.fromBigInt next) FeedIndex.MINUS_ONE) eqn:Ec.
      + destruct (bumpReaction_fields 0 e2
                    (ReadReactions (option_map FeedIndex.fromBigInt index')
                                   (reactionOptions st1)) st1) as (Ha & _ & _ & Hb).
        split; [exact Ha | rewrite Hb; lia].
      + specialize (Hnext next eq_refl Ec). specialize (Hn next eq_refl).
        replace (reactionIndex st1 + 1 <? next) with false by lia.
        apply orb_false_elim in Ec. destruct Ec as [Ec _].
        apply orb_false_elim in Ec. destruct Ec as [Ez Eneg].
        assert (Hsmall : FeedIndex.fromBigInt next = next).
        { unfold FeedIndex.fromBigInt. apply Z.mod_small. lia. }
        rewrite Hsmall.
        destruct (bumpReaction_fields next e2
                    (ReadReactions (option_map FeedIndex.fromBigInt index')
                                   (reactionOptions st1)) st1) as (Ha & _ & _ & Hb).
        split; [exact Ha | rewrite Hb; lia].
    - destruct (bumpReaction_fields 0 e2
                  (ReadReactions (option_map FeedIndex.fromBigInt index')
                                 (reactionOptions st1)) st1) as (Ha & _ & _ & Hb).
      split; [exact Ha | rewrite Hb; lia].
    - destruct st1; split; reflexivity. }
  destruct (indexStrToBigint (Some (nextIndex rs))) as [[next|]|e] eqn:Ep.
  - destruct ((next =? 0) || (next <? 0)
              || FeedIndex.equals (FeedIndex.fromBigInt next) FeedIndex.MINUS_ONE) eqn:Ec.
    + destruct (bumpReaction_fields 0 e1
                  (ReadReactions (option_map FeedIndex.fromBigInt index)
                                 (reactionOptions st)) st) as (_ & Ho & He & Hb).
      rewrite <- Hst1 in Ho, He, Hb.
      apply Hgo; [exact Ho | exact He | | lia].
      intros next' Hnx Hflag. inversion Hnx; subst next'. congruence.
    + specialize (Hn next eq_refl).
      apply orb_false_elim in Ec. destruct Ec as [Ec _].
      apply orb_false_elim in Ec. destruct Ec as [Ez Eneg].
      assert (Hsmall : FeedIndex.fromBigInt next = next).
      { unfold FeedIndex.fromBigInt. apply Z.mod_small. lia. }
      rewrite Hsmall in Hst1.
      assert (Hf : reactionOptions st1 = reactionOptions st /\ env st1 = e1
                   /\ reactionIndex st1 = Z.max (reactionIndex st) (next - 1)).
      { rewrite Hst1. destruct (reactionIndex st + 1 <? next).
        - destruct st; cbv [bumpReaction asked]; cbn.
          destruct (reactionIndex0 <? next - 1) eqn:E; cbn; repeat split; lia.
        - destruct st; cbv [bumpReaction asked]; cbn.
          destruct (reactionIndex0 <? next - 1) eqn:E; cbn; repeat split; lia. }
      destruct Hf as (Ho & He & Hb).
      apply Hgo; [exact Ho | exact He | | lia].
      intros next' Hnx _. inversion Hnx; subst next'. lia.
    - destruct (bumpReaction_fields 0 e1
                  (ReadReactions (option_map FeedIndex.fromBigInt index)
                                 (reactionOptions st)) st) as (_ & Ho & He & Hb).
      rewrite <- Hst1 in Ho, He, Hb.
      apply Hgo; [exact Ho | exact He | | lia].
      intros next' Hnx _. discriminate Hnx.
    - subst st2. rewrite Hst1.
      assert (H2' : readReactionsWithIndex (option_map FeedIndex.fromBigInt index')
                      (reactionOptions (reported e "Comment.fetchLatestReactions"
                         (asked (ReadReactions (option_map FeedIndex.fromBigInt index)
                                               (reactionOptions st)) e1 st)))
                      (env (reported e "Comment.fetchLatestReactions"
                         (asked (ReadReactions (option_map FeedIndex.fromBigInt index)
                                               (reactionOptions st)) e1 st)))
                    = (Ok rs, e2)) by exact H2.
      rewrite (fetchLatestReactions_spec index' _ _ _ H2'). cbn [snd]. rewrite Ep.
      split; reflexivity.
Qed.

(** *** The timer *)

Lemma runPoll_stopped st n :
  stopFetch st = true -> runPoll (st, n) = (Ok tt, (set_fetchProcessRunning false st, n)).
Proof.
  intros Hf. unfold runPoll, bind, local. rewrite (poll_stopped st Hf). reflexivity.
Qed.

Lemma runPoll_running st n :
  stopFetch st = false -> runPoll (st, n) = (Ok tt, (snd (poll st), S n)).
Proof.
  intros Hf. unfold runPoll, bind, local.
  destruct (poll_flags st Hf) as (Hr & _).
  destruct (poll st) as [r s1]. cbn [fst snd] in *. subst r. reflexivity.
Qed.

Lemma startMessagesFetchProcess_idle st n :
  fetchProcessRunning st = false ->
  startMessagesFetchProcess (st, n)
  = (Ok tt, (snd (poll (set_stopFetch false (set_fetchProcessRunning true st))), S n)).
Proof.
  intros Hrun.
  rewrite <- (runPoll_running (set_stopFetch false (set_fetchProcessRunning true st)) n eq_refl).
  unfold startMessagesFetchProcess, bind, local, gets, modify, id. cbn.
  rewrite Hrun. reflexivity.
Qed.

(** X7: the polling process.  [startMessagesFetchProcess] does nothing when
    the process is marked as running; otherwise it marks it, clears the stop
    flag and polls once, which leaves one more timer pending.  A timer that
    fires while the stop flag is clear polls and leaves a timer pending
    again; one that fires after the stop flag was set calls nothing on the
    store, marks the process as not running and leaves no timer behind. *)
Theorem polling_process st n :
  (if fetchProcessRunning st
   then startMessagesFetchProcess (st, n) = (Ok tt, (st, n))
   else let p := snd (startMessagesFetchProcess (st, n)) in
        fst (startMessagesFetchProcess (st, n)) = Ok tt
        /\ snd p = S n
        /\ fetchProcessRunning (fst p) = true
        /\ stopFetch (fst p) = false)
  /\ (let p := snd (timerFires (st, S n)) in
      fst (timerFires (st, S n)) = Ok tt
      /\ if stopFetch st
         then p = (set_fetchProcessRunning false st, n)
         else snd p = S n
              /\ stopFetch (fst p) = false
              /\ fetchProcessRunning (fst p) = fetchProcessRunning st).
Proof.
  split.
  - destruct (fetchProcessRunning st) eqn:Hrun.
    + unfold startMessagesFetchProcess, bind, local, gets, id. cbn. rewrite Hrun. reflexivity.
    + rewrite (startMessagesFetchProcess_idle st n Hrun). cbn [fst snd].
      destruct (poll_flags (set_stopFetch false (set_fetchProcessRunning true st)) eq_refl)
        as (_ & Hs & Hp & _).
      repeat split; [exact Hp | exact Hs].
  - cbn [timerFires]. destruct (stopFetch st) eqn:Hf.
    + rewrite (runPoll_stopped st n Hf). split; reflexivity.
    + rewrite (runPoll_running st n Hf). cbn [fst snd].
      destruct (poll_flags st Hf) as (_ & Hs & Hp & _).
      repeat split; assumption.
Qed.

(** X8: [stop] followed by a new start does not end the timers of the old
    loop.  With [n] timers pending, after [stop] and
    [startMessagesFetchProcess] there are [n + 1] timers pending and the stop
    flag is clear, so a timer that fires then polls and reschedules: the
    number of pending timers stays [n + 1]. *)
Theorem restart_keeps_old_timers st n :
  let p := snd (startMessagesFetchProcess (snd (local stop (st, n)))) in
  snd p = S n
  /\ stopFetch (fst p) = false
  /\ fetchProcessRunning (fst p) = true
  /\ snd (snd (timerFires p)) = S n
  /\ stopFetch (fst (snd (timerFires p))) = false.
Proof.
  intros p.
  assert (Hstop : local stop (st, n) = (Ok tt, (snd (stop st), n))).
  { unfold local. destruct (stop st) as [r s] eqn:E.
    pose proof (stop_spec st) as (Hr & _). rewrite E in Hr. cbn in Hr. subst r. reflexivity. }
  assert (Hrun : fetchProcessRunning (snd (stop st)) = false).
  { pose proof (stop_spec st) as (_ & _ & _ & _ & _ & H & _). exact H. }
  set (s0 := set_stopFetch false (set_fetchProcessRunning true (snd (stop st)))).
  assert (Hp : p = (snd (poll s0), S n)).
  { subst p. rewrite Hstop. cbn [snd].
    rewrite (startMessagesFetchProcess_idle _ n Hrun). reflexivity. }
  destruct (poll_flags s0 eq_refl) as (_ & Hs & Hf & _).
  rewrite Hp. cbn [fst snd timerFires].
  rewrite (runPoll_running _ n Hs). cbn [fst snd].
  destruct (poll_flags (snd (poll s0)) Hs) as (_ & Hs2 & _).
  repeat split; [exact Hs | exact Hf | exact Hs2].
Qed.

End Polling.

(** ** The events of a send *)

Section SendProtocol.
Context {Env : Type} {C : Collaborators Env}.
Implicit Type st : State Env.

Lemma fetchLatestMessage_reports st :
  let st' := snd (fetchLatestMessage st) in
  errorHandler st' = errorHandler st
  \/ exists e, errorHandler st'
               = (errorHandler st ++ [(e, "Comment.fetchLatestMessage")])%list.
Proof.
  destruct (isSending st) eqn:Hs.
  - rewrite (fetchLatestMessage_guarded st Hs). left. reflexivity.
  - destruct (readSingleComment None (commentOptions st) (env st)) as [r e'] eqn:E.
    rewrite (fetchLatestMessage_spec st r e' Hs E). cbn [snd].
    destruct r as [latest|e]; [|right; exists e; destruct st; reflexivity].
    destruct (indexStrToBigint (indexOf latest)) as [[ix|]|e] eqn:Ep;
      [| left; destruct st; reflexivity | right; exists e; destruct st; reflexivity].
    destruct latest as [c|]; [|left; destruct st; reflexivity].
    destruct (negb (ix =? 0)
              && negb (FeedIndex.equals (FeedIndex.fromBigInt ix) FeedIndex.MINUS_ONE)
              && (ownIndex (userDetails st) <? FeedIndex.fromBigInt ix));
      left; destruct st; reflexivity.
Qed.

Lemma fetchLatestReactions_reports index st :
  let st' := snd (fetchLatestReactions index st) in
  errorHandler st' = errorHandler st
  \/ exists e, errorHandler st'
               = (errorHandler st ++ [(e, "Comment.fetchLatestReactions")])%list.
Proof.
  destruct (readReactionsWithIndex (option_map FeedIndex.fromBigInt index)
                                   (reactionOptions st) (env st)) as [r e'] eqn:E.
  rewrite (fetchLatestReactions_spec index st r e' E). cbn [snd].
  destruct r as [rs|e]; [|right; exists e; destruct st; reflexivity].
  destruct (indexStrToBigint (Some (nextIndex rs))) as [[next|]|e];
    [| | right; exists e; destruct st; reflexivity].
  - left. field_cases st.
  - left. field_cases st.
Qed.

Lemma fetchLatestMessage_logs st :
  refreshLogs "Comment.fetchLatestMessage" st (snd (fetchLatestMessage st)).
Proof.
  unfold refreshLogs.
  destruct (fetchLatestMessage_emits st) as [He|(c & ix & He & _)];
    destruct (fetchLatestMessage_reports st) as [Hr|(e & Hr)].
  - exists [], []. rewrite He, Hr, !app_nil_r. cbn. repeat split; try lia; intros x Hx; destruct Hx.
  - exists [], [(e, "Comment.fetchLatestMessage")]. rewrite He, Hr, app_nil_r. cbn.
    repeat split; try lia; intros x [<-|[]]; reflexivity.
  - exists [c], []. rewrite He, Hr, app_nil_r. cbn. repeat split; try lia; intros x Hx; destruct Hx.
  - exists [c], [(e, "Comment.fetchLatestMessage")]. rewrite He, Hr. cbn.
    repeat split; try lia; intros x [<-|[]]; reflexivity.
Qed.

Lemma fetchLatestReactions_logs index st :
  refreshLogs "Comment.fetchLatestReactions" st (snd (fetchLatestReactions index st)).
Proof.
  unfold refreshLogs.
  destruct (fetchLatestReactions_emits index st) as [He|(rs & e' & _ & He)];
    destruct (fetchLatestReactions_reports index st) as [Hr|(e & Hr)].
  - exists [], []. rewrite He, Hr, !app_nil_r. cbn. repeat split; try lia; intros x Hx; destruct Hx.
  - exists [], [(e, "Comment.fetchLatestReactions")]. rewrite He, Hr, app_nil_r. cbn.
    repeat split; try lia; intros x [<-|[]]; reflexivity.
  - exists (messages rs), []. rewrite He, Hr, app_nil_r. cbn.
    repeat split; try lia; intros x Hx; destruct Hx.
  - exists (messages rs), [(e, "Comment.fetchLatestReactions")]. rewrite He, Hr. cbn.
    repeat split; try lia; intros x [<-|[]]; reflexivity.
Qed.

Lemma send_logs_close (st s0 st1 s' : State Env) first last l reports tail :
  emitter s0 = (emitter st ++ [first])%list ->
  errorHandler s0 = errorHandler st ->
  emitter st1 = (emitter s0 ++ received l)%list ->
  errorHandler st1 = (errorHandler s0 ++ reports)%list ->
  emitter s' = (emitter st1 ++ [last])%list ->
  errorHandler s' = (errorHandler st1 ++ tail)%list ->
  emitter s' = (emitter st ++ first :: received l ++ [last])%list
  /\ errorHandler s' = (errorHandler st ++ reports ++ tail)%list.
Proof.
  intros H1 H2 H3 H4 H5 H6. rewrite H5, H6, H3, H4, H1, H2, <- !app_assoc. split; reflexivity.
Qed.

(** X9: the events of a send.  A send by a session whose address is the
    one of its key never rejects.  It first emits MESSAGE_REQUEST_INITIATED
    with the new message, which has no index yet; then what its refresh
    delivers; and last exactly one of MESSAGE_REQUEST_UPLOADED and
    MESSAGE_REQUEST_ERROR, with the same message and its index filled in.
    The error handler is called under "Comment.sendMessage" once when the
    last event is the error and not at all otherwise. *)
Theorem send_event_protocol message type targetMessageId id prevState st
        (Hk : keyMatches st) :
  let st' := snd (sendMessage message type targetMessageId id prevState st) in
  fst (sendMessage message type targetMessageId id prevState st) = Ok tt
  /\ exists obj idx l reports,
       let obj1 := MessageData.withIndex idx obj in
       MessageData.message obj = message
       /\ MessageData.type obj = type
       /\ MessageData.targetMessageId obj = targetMessageId
       /\ MessageData.index obj = None
       /\ (forall i, truthyString id = Some i -> MessageData.id obj = i)
       /\ (forall x, In x reports -> snd x <> "Comment.sendMessage")
       /\ ((emitter st'
            = (emitter st ++ Emit MESSAGE_REQUEST_INITIATED (PMessage obj)
                 :: received l ++ [Emit MESSAGE_REQUEST_UPLOADED (PMessage obj1)])%list
            /\ errorHandler st' = (errorHandler st ++ reports ++ [])%list)
           \/ exists e,
               emitter st'
               = (emitter st ++ Emit MESSAGE_REQUEST_INITIATED (PMessage obj)
                    :: received l ++ [Emit MESSAGE_REQUEST_ERROR (PMessage obj1)])%list
               /\ errorHandler st'
                  = (errorHandler st ++ reports ++ [(e, "Comment.sendMessage")])%list).
Proof.
  intros st'. subst st'.
  destruct (newMessage_spec message type targetMessageId id st Hk)
    as (obj & e' & Hn & Hm & Hty & Htg & Hid & Hix).
  rewrite (sendMessage_unfold _ _ _ _ _ _ _ _ Hn).
  set (s0 := emitted MESSAGE_REQUEST_INITIATED (PMessage obj) (set_env e' st)).
  assert (H1 : emitter s0 = (emitter st ++ [Emit MESSAGE_REQUEST_INITIATED (PMessage obj)])%list)
    by reflexivity.
  assert (H2 : errorHandler s0 = errorHandler st) by reflexivity.
  destruct (MessageType_eq_dec type REACTION) as [Hr|Hr].
  - rewrite Hr in *. clear Hr.
    destruct (fetchLatestReactions_logs None s0) as (l & reports & H3 & H4 & _ & Hctx).
    pose proof (sendMessage_try_reaction prevState obj (set_env e' st)) as Hspec.
    cbv zeta in Hspec. fold s0 in Hspec.
    destruct (fetchLatestReactions None s0) as [r1 st1]. cbn [snd] in *.
    set (idx := nextReactionIndex (reactionIndex st1)) in *.
    set (obj1 := MessageData.withIndex (FeedIndex.toString idx) obj) in *.
    set (snapshot := orEmpty (updateReactions (orEmpty prevState) obj1)) in *.
    destruct (writeReactionsToIndex snapshot idx (reactionOptions st1) (env st1))
      as [w e2] eqn:Ew.
    rewrite (Hspec w e2 eq_refl).
    assert (Hno : forall x, In x reports -> snd x <> "Comment.sendMessage").
    { intros x Hx. rewrite (Hctx x Hx). discriminate. }
    destruct w as [[receipt|]|e]; cbn [fst snd]; (split; [reflexivity|]);
      exists obj, (FeedIndex.toString idx), l, reports; cbv zeta; fold obj1;
      (split; [exact Hm|]); (split; [exact Hty|]); (split; [exact Htg|]);
      (split; [exact Hix|]); (split; [exact Hid|]); (split; [exact Hno|]).
    + left. apply (send_logs_close st s0 st1); try assumption; rewrite ?app_nil_r; reflexivity.
    + right. exists WriteFailedEmptyResponse.
      apply (send_logs_close st s0 st1); try assumption; rewrite ?app_nil_r; reflexivity.
    + right. exists e.
      apply (send_logs_close st s0 st1); try assumption; rewrite ?app_nil_r; reflexivity.
  - destruct (fetchLatestMessage_logs s0) as (l & reports & H3 & H4 & _ & Hctx).
    pose proof (sendMessage_try_text type prevState obj (set_env e' st)) as Hspec.
    cbv zeta in Hspec. fold s0 in Hspec.
    destruct (fetchLatestMessage s0) as [r1 st1]. cbn [snd] in *.
    set (idx := FeedIndex.fromBigInt (nextWriteIndex (ownIndex (userDetails st1)))) in *.
    set (obj1 := MessageData.withIndex (FeedIndex.toString idx) obj) in *.
    destruct (writeCommentToIndex obj1 idx (commentOptions st1) (env st1)) as [w e2] eqn:Ew.
    destruct (readSingleComment (Some idx) (commentOptions st1) e2) as [rb e3] eqn:Eb.
    rewrite (Hspec w e2 rb e3 Hr eq_refl Eb).
    assert (Hno : forall x, In x reports -> snd x <> "Comment.sendMessage").
    { intros x Hx. rewrite (Hctx x Hx). discriminate. }
    destruct w as [[receipt|]|e];
      [destruct rb as [[dataCheck|]|e]; [destruct (mismatch dataCheck obj1)| |] | |];
      cbn [fst snd]; (split; [reflexivity|]);
      exists obj, (FeedIndex.toString idx), l, reports; cbv zeta; fold obj1;
      (split; [exact Hm|]); (split; [exact Hty|]); (split; [exact Htg|]);
      (split; [exact Hix|]); (split; [exact Hid|]); (split; [exact Hno|]).
    + right. eexists.
      apply (send_logs_close st s0 st1); try assumption; rewrite ?app_nil_r; reflexivity.
    + left. apply (send_logs_close st s0 st1); try assumption; rewrite ?app_nil_r; reflexivity.
    + right. eexists.
      apply (send_logs_close st s0 st1); try assumption; rewrite ?app_nil_r; reflexivity.
    + right. eexists.
      apply (send_logs_close st s0 st1); try assumption; rewrite ?app_nil_r; reflexivity.
    + right. eexists.
      apply (send_logs_close st s0 st1); try assumption; rewrite ?app_nil_r; reflexivity.
    + right. eexists.
      apply (send_logs_close st s0 st1); try assumption; rewrite ?app_nil_r; reflexivity.
Qed.

Lemma newMessage_mismatch message type targetMessageId id st :
  (signerAddress (privateKey (userDetails st))
   =? ethAddressToString (ownAddress (userDetails st)))%string = false ->
  exists e', newMessage message type targetMessageId id st
             = (Throw AddressMismatch, set_env e' st).
Proof.
  intros Hk. unfold newMessage, getSignature.
  cbv [bind gets ask ret throw Datatypes.id].
  destruct (truthyString id) as [i|].
  - cbv [ret]. rewrite Hk. cbn [negb]. exists (env st). destruct st; reflexivity.
  - destruct (uuidv4 (env st)) as [u e0].
    replace (userDetails (set_env e0 st)) with (userDetails st) by reflexivity.
    rewrite Hk. cbn [negb]. exists e0. reflexivity.
Qed.

(** X10: a send rejects exactly when the session's address is not the one
    derived from its key, and then with the address-mismatch error before
    anything is emitted, reported, read or written: the event log, the error
    log, the store log, both pointers and the sending guard are as they
    were. *)
Theorem send_rejects_on_key_mismatch message type targetMessageId id prevState st :
  let r := fst (sendMessage message type targetMessageId id prevState st) in
  let st' := snd (sendMessage message type targetMessageId id prevState st) in
  if (signerAddress (privateKey (userDetails st))
      =? ethAddressToString (ownAddress (userDetails st)))%string
  then r = Ok tt
  else r = Throw AddressMismatch
       /\ emitter st' = emitter st
       /\ errorHandler st' = errorHandler st
       /\ store st' = store st
       /\ userDetails st' = userDetails st
       /\ reactionIndex st' = reactionIndex st
       /\ isSending st' = isSending st.
Proof.
  intros r st'. subst r st'.
  destruct (signerAddress (privateKey (userDetails st))
            =? ethAddressToString (ownAddress (userDetails st)))%string eqn:Hk.
  - apply String.eqb_eq in Hk.
    destruct (newMessage_spec message type targetMessageId id st Hk) as (obj & e' & Hn & _).
    rewrite (sendMessage_unfold _ _ _ _ _ _ _ _ Hn).
    destruct (sendMessage_try type prevState (set_env e' st, obj)) as [r [s' obj']].
    reflexivity.
  - destruct (newMessage_mismatch message type targetMessageId id st Hk) as (e' & Hn).
    unfold sendMessage, bind. rewrite Hn. cbn [fst snd]. repeat split.
Qed.

(** X11: an upload that fails or comes back empty.  When the write of a
    text or thread send rejects, or resolves to nothing, the send makes no
    read-back: the write is its last store call, whereas an acknowledged
    write is followed by the read-back of the same index.  It ends in
    MESSAGE_REQUEST_ERROR, reports the rejection (or "Write failed, empty
    response!") under "Comment.sendMessage", clears the guard and leaves the
    message pointer where the refresh before the write had put it. *)
Theorem failed_upload_no_read_back message type targetMessageId id prevState st obj st0
        (Hty : type <> REACTION)
        (Hn : newMessage message type targetMessageId id st = (Ok obj, st0)) :
  let st1 := snd (fetchLatestMessage (emitted MESSAGE_REQUEST_INITIATED (PMessage obj) st0)) in
  let idx := FeedIndex.fromBigInt (nextWriteIndex (ownIndex (userDetails st1))) in
  let obj1 := MessageData.withIndex (FeedIndex.toString idx) obj in
  let st' := snd (sendMessage message type targetMessageId id prevState st) in
  let failure e :=
    store st' = (store st1 ++ [WriteComment obj1 idx (commentOptions st1)])%list
    /\ emitter st' = (emitter st1 ++ [Emit MESSAGE_REQUEST_ERROR (PMessage obj1)])%list
    /\ errorHandler st' = (errorHandler st1 ++ [(e, "Comment.sendMessage")])%list
    /\ ownIndex (userDetails st') = ownIndex (userDetails st1)
    /\ isSending st' = false in
  match fst (writeCommentToIndex obj1 idx (commentOptions st1) (env st1)) with
  | Ok (Some _) =>
      store st' = (store st1 ++ [WriteComment obj1 idx (commentOptions st1);
                                 ReadSingle (Some idx) (commentOptions st1)])%list
  | Ok None => failure WriteFailedEmptyResponse
  | Throw e => failure e
  end.
Proof.
  intros st1 idx obj1 st' failure. subst st' failure.
  rewrite (sendMessage_unfold _ _ _ _ _ _ _ _ Hn).
  destruct (writeCommentToIndex obj1 idx (commentOptions st1) (env st1)) as [w e2] eqn:Ew.
  destruct (readSingleComment (Some idx) (commentOptions st1) e2) as [rb e3] eqn:Eb.
  rewrite (sendMessage_try_text type prevState obj st0 w e2 rb e3 Hty Ew Eb).
  fold st1. fold idx. fold obj1. cbn [fst].
  destruct w as [[receipt|]|e].
  - destruct rb as [[dataCheck|]|e]; [destruct (mismatch dataCheck obj1)| |];
      cbn [snd]; cbv [asked reported emitted]; cbn; rewrite <- app_assoc; reflexivity.
  - cbn [snd]. repeat split.
  - cbn [snd]. repeat split.
Qed.

(** X12: what a send signs and what validation recomputes.  The
    signature of a new message is made over the fields username, address (as
    [EthAddress] prints it), message, timestamp, in this order, with the
    first reading of the clock; the message itself carries the second
    reading of the clock and the address as the session holds it, and
    [validateUserSignature] recomputes its digest from the message over the
    fields username, address, timestamp, message, in this order. *)
Theorem send_signs_first_clock_reading message type targetMessageId id st
        (Hk : keyMatches st) :
  let e0 := match truthyString id with
            | Some _ => env st
            | None => snd (uuidv4 (env st))
            end in
  let t1 := fst (Date_now e0) in
  let t2 := fst (Date_now (snd (Date_now e0))) in
  let e2 := snd (Date_now (snd (Date_now e0))) in
  exists obj,
    newMessage message type targetMessageId id st = (Ok obj, set_env e2 st)
    /\ MessageData.timestamp obj = t2
    /\ MessageData.username obj = nickname (userDetails st)
    /\ MessageData.address obj = ownAddress (userDetails st)
    /\ MessageData.signature obj
       = Some (sign (privateKey (userDetails st))
                    (JSON_stringify
                       [ ("username", JStr (nickname (userDetails st)));
                         ("address", JStr (ethAddressToString (ownAddress (userDetails st))));
                         ("message", JStr message);
                         ("timestamp", JNum t1) ]))
    /\ digestOf obj
       = signedMessagePrefix
           ++ keccak256 (JSON_stringify
                           [ ("username", JStr (nickname (userDetails st)));
                             ("address", JStr (ownAddress (userDetails st)));
                             ("timestamp", JNum t2);
                             ("message", JStr message) ]).
Proof.
  intros e0 t1 t2 e2. subst e0 t1 t2 e2. unfold keyMatches in Hk.
  unfold newMessage, getSignature.
  cbv [bind gets ask ret throw Datatypes.id].
  destruct (truthyString id) as [i|] eqn:Ei.
  - cbv [ret]. rewrite Hk, String.eqb_refl. cbn [negb].
    destruct (Date_now (env st)) as [t1 e1] eqn:E1. cbn [fst snd].
    replace (env (set_env e1 st)) with e1 by reflexivity.
    destruct (Date_now e1) as [t2 e2] eqn:E2. cbn [fst snd].
    eexists. split; [reflexivity|]. cbn. repeat split.
  - destruct (uuidv4 (env st)) as [u e0] eqn:E0.
    replace (userDetails (set_env e0 st)) with (userDetails st) by reflexivity.
    rewrite Hk, String.eqb_refl. cbn [negb snd].
    replace (env (set_env e0 st)) with e0 by reflexivity.
    destruct (Date_now e0) as [t1 e1] eqn:E1. cbn [fst snd].
    replace (env (set_env e1 (set_env e0 st))) with e1 by reflexivity.
    destruct (Date_now e1) as [t2 e2] eqn:E2. cbn [fst snd].
    eexists. split; [reflexivity|]. cbn. repeat split.
Qed.

End SendProtocol.

(** ** Initialisation *)

Section Initialisation.
Context {Env : Type} {C : Collaborators Env}.
Implicit Type st : State Env.

Lemma deliveriesOnly_refl st : deliveriesOnly st st.
Proof. exists []. now rewrite app_nil_r. Qed.

Lemma deliveriesOnly_same st st' : emitter st' = emitter st -> deliveriesOnly st st'.
Proof. intros H. exists []. now rewrite app_nil_r. Qed.

Lemma deliveriesOnly_trans st1 st2 st3 :
  deliveriesOnly st1 st2 -> deliveriesOnly st2 st3 -> deliveriesOnly st1 st3.
Proof.
  intros (m1 & H1 & F1) (m2 & H2 & F2). exists (m1 ++ m2)%list.
  rewrite H2, H1, <- app_assoc, forallb_app, F1, F2. split; reflexivity.
Qed.

Lemma received_isReceived l : forallb isReceived (received l) = true.
Proof. induction l as [|m l IH]; [reflexivity | exact IH]. Qed.

Lemma delivered_isReceived l : forallb isReceived (delivered l) = true.
Proof. unfold delivered. apply (received_isReceived (filter validateUserSignature l)). Qed.

Lemma fetchMessagesInRange_deliveries a b opts st :
  deliveriesOnly st (snd (fetchMessagesInRange a b opts st)).
Proof.
  destruct (readCommentsInRange (FeedIndex.fromBigInt a) (FeedIndex.fromBigInt b) opts (env st))
    as [r e'] eqn:E.
  rewrite (fetchMessagesInRange_spec a b opts st r e' E).
  destruct r as [[cs|]|e]; cbn [snd].
  - exists (delivered cs). split; [reflexivity | apply delivered_isReceived].
  - apply deliveriesOnly_same. reflexivity.
  - apply deliveriesOnly_same. reflexivity.
Qed.

Lemma initOwnIndex_unfold latest st :
  let st0 := match latest with Some l => set_ownIndex l st | None => st end in
  initOwnIndex latest st
  = let (r, s1) := retryAwaitableAsync
                     (call (ReadSingle None (commentOptions st))
                           (readSingleComment None (commentOptions st))) 10 st0 in
    match r with
    | Throw e => (Throw e, s1)
    | Ok comment =>
        match indexStrToBigint (indexOf comment) with
        | Throw e => (Throw e, s1)
        | Ok None => (Ok tt, s1)
        | Ok (Some ix) =>
            if negb (ix =? 0)
               && negb (FeedIndex.equals (FeedIndex.fromBigInt ix) FeedIndex.MINUS_ONE)
               && (ownIndex (userDetails s1) <? ix)
            then fetchMessagesInRange
                   ((match latest with
                     | None => ix - COMMENTS_TO_READ
                     | Some _ => ownIndex (userDetails s1)
                     end) + 1) ix (commentOptions s1) (set_ownIndex ix s1)
            else (Ok tt, s1)
        end
    end.
Proof.
  intros st0. unfold initOwnIndex.
  assert (Hshape : forall s,
             commentOptions s = commentOptions st ->
             (st1 <- gets id ;;
              comment <- retryAwaitableAsync
                           (call (ReadSingle None (commentOptions st1))
                                 (readSingleComment None (commentOptions st1))) 10 ;;
              parsedIx <- liftRes (indexStrToBigint
                                     (match comment with
                                      | Some c => MessageData.index c
                                      | None => None
                                      end)) ;;
              st2 <- gets id ;;
              match parsedIx with
              | Some ix =>
                  when (truthyBigint parsedIx
                        && negb (FeedIndex.equals (FeedIndex.fromBigInt ix) FeedIndex.MINUS_ONE)
                        && (ownIndex (userDetails st2) <? ix))
                       (let startIndex :=
                          match latest with
                          | None => ix - COMMENTS_TO_READ
                          | Some _ => ownIndex (userDetails st2)
                          end in
                        modify (set_ownIndex ix) ;;
                        fetchMessagesInRange (startIndex + 1) ix (commentOptions st2))
              | None => ret tt
              end)%monad s
             = let (r, s1) := retryAwaitableAsync
                                (call (ReadSingle None (commentOptions st))
                                      (readSingleComment None (commentOptions st))) 10 s in
               match r with
               | Throw e => (Throw e, s1)
               | Ok comment =>
                   match indexStrToBigint (indexOf comment) with
                   | Throw e => (Throw e, s1)
                   | Ok None => (Ok tt, s1)
                   | Ok (Some ix) =>
                       if negb (ix =? 0)
                          && negb (FeedIndex.equals (FeedIndex.fromBigInt ix)
                                                    FeedIndex.MINUS_ONE)
                          && (ownIndex (userDetails s1) <? ix)
                       then fetchMessagesInRange
                              ((match latest with
                                | None => ix - COMMENTS_TO_READ
                                | Some _ => ownIndex (userDetails s1)
                                end) + 1) ix (commentOptions s1) (set_ownIndex ix s1)
                       else (Ok tt, s1)
                   end
               end).
  { intros s Hco. unfold bind at 1, gets at 1, id. rewrite Hco. unfold bind at 1.
    destruct (retryAwaitableAsync _ 10 s) as [[comment|e] s1]; [|reflexivity].
    unfold bind at 1, liftRes. fold (indexOf comment).
    destruct (indexStrToBigint (indexOf comment)) as [[ix|]|e]; try reflexivity.
    unfold bind at 1, gets at 1, id. cbn [truthyBigint].
    destruct (negb (ix =? 0)
              && negb (FeedIndex.equals (FeedIndex.fromBigInt ix) FeedIndex.MINUS_ONE)
              && (ownIndex (userDetails s1) <? ix)); reflexivity. }
  destruct latest as [l|]; unfold bind at 1, modify, ret; subst st0;
    apply Hshape; reflexivity.
Qed.

Lemma initOwnIndex_deliveries latest st :
  deliveriesOnly st (snd (initOwnIndex latest st)).
Proof.
  rewrite initOwnIndex_unfold.
  set (st0 := match latest with Some l => set_ownIndex l st | None => st end).
  assert (H0 : emitter st0 = emitter st) by (destruct latest; reflexivity).
  destruct (retryAwaitableAsync _ 10 st0) as [r s1] eqn:E.
  destruct (retry_read_frame _ _ _ _ _ _ E) as (_ & _ & _ & He).
  assert (H1 : deliveriesOnly st s1) by (apply deliveriesOnly_same; congruence).
  destruct r as [comment|e]; [|exact H1].
  destruct (indexStrToBigint (indexOf comment)) as [[ix|]|e]; try exact H1.
  destruct (negb (ix =? 0)
            && negb (FeedIndex.equals (FeedIndex.fromBigInt ix) FeedIndex.MINUS_ONE)
            && (ownIndex (userDetails s1) <? ix)); [|exact H1].
  eapply deliveriesOnly_trans; [exact H1|].
  eapply deliveriesOnly_trans; [|apply fetchMessagesInRange_deliveries].
  apply deliveriesOnly_same. reflexivity.
Qed.

Lemma history_init_spec st r e' :
  readSingleComment None (commentOptions st) (env st) = (r, e') ->
  let st1 := asked (ReadSingle None (commentOptions st)) e' st in
  let absent := set_startIndex (FeedIndex.toBigInt FeedIndex.MINUS_ONE) st1 in
  let failed e := if isNotFoundError e then st1 else reported e "SwarmHistory.init" st1 in
  history_init None st
  = (Ok tt,
     match r with
     | Throw e => failed e
     | Ok latest =>
         match indexStrToBigint (indexOf latest) with
         | Throw e => failed e
         | Ok None => absent
         | Ok (Some ix) =>
             match latest with
             | None => absent
             | Some c =>
                 if ix =? 0 then absent
                 else set_startIndex (FeedIndex.fromBigInt ix)
                        (if FeedIndex.equals (FeedIndex.fromBigInt ix) FeedIndex.MINUS_ONE
                         then st1
                         else emitted MESSAGE_RECEIVED (PMessage c) st1)
             end
         end
     end).
Proof.
  intros H st1 absent failed.
  unfold history_init, tryCatch, history_fetchLatestMessage.
  unfold bind at 1, bind at 1, gets at 1, id, bind at 1, call. rewrite H.
  destruct r as [latest|e]; [|subst failed; cbn; destruct (isNotFoundError e); reflexivity].
  unfold bind at 1, liftRes. fold (indexOf latest).
  assert (Habsent : (when (negb (FeedIndex.equals FeedIndex.MINUS_ONE FeedIndex.MINUS_ONE))
                          (emit MESSAGE_RECEIVED (payloadOf None)) ;;
                     modify (set_startIndex (FeedIndex.toBigInt FeedIndex.MINUS_ONE)))%monad st1
                    = (Ok tt, absent)).
  { change (FeedIndex.equals FeedIndex.MINUS_ONE FeedIndex.MINUS_ONE) with true.
    reflexivity. }
  destruct (indexStrToBigint (indexOf latest)) as [[ix|]|e].
  - destruct latest as [c|]; [|exact Habsent].
    cbn [truthyBigint]. destruct (ix =? 0); cbn [negb]; [exact Habsent|].
    unfold ret, bind, when, modify, emit.
    destruct (FeedIndex.equals (FeedIndex.fromBigInt ix) FeedIndex.MINUS_ONE);
      reflexivity.
  - destruct latest as [c|]; exact Habsent.
  - subst failed; cbn; destruct (isNotFoundError e); reflexivity.
Qed.

Lemma history_init_props first st :
  fst (history_init first st) = Ok tt
  /\ deliveriesOnly st (snd (history_init first st))
  /\ userDetails (snd (history_init first st)) = userDetails st
  /\ reactionIndex (snd (history_init first st)) = reactionIndex st.
Proof.
  destruct first as [f|].
  - split; [reflexivity|]. split; [apply deliveriesOnly_same|split]; reflexivity.
  - destruct (readSingleComment None (commentOptions st) (env st)) as [r e'] eqn:E.
    rewrite (history_init_spec st r e' E). cbn [fst snd]. split; [reflexivity|].
    assert (Hf : forall e,
               deliveriesOnly st
                 (if isNotFoundError e
                  then asked (ReadSingle None (commentOptions st)) e' st
                  else reported e "SwarmHistory.init"
                                (asked (ReadSingle None (commentOptions st)) e' st))
               /\ userDetails (if isNotFoundError e
                  then asked (ReadSingle None (commentOptions st)) e' st
                  else reported e "SwarmHistory.init"
                                (asked (ReadSingle None (commentOptions st)) e' st))
                  = userDetails st
               /\ reactionIndex (if isNotFoundError e
                  then asked (ReadSingle None (commentOptions st)) e' st
                  else reported e "SwarmHistory.init"
                                (asked (ReadSingle None (commentOptions st)) e' st))
                  = reactionIndex st).
    { intros e. destruct (isNotFoundError e);
        (split; [apply deliveriesOnly_same|split]; reflexivity). }
    destruct r as [latest|e]; [|apply Hf].
    destruct (indexStrToBigint (indexOf latest)) as [[ix|]|e]; [| |apply Hf].
    + destruct latest as [c|];
        [|split; [apply deliveriesOnly_same|split]; reflexivity].
      destruct (ix =? 0); [split; [apply deliveriesOnly_same|split]; reflexivity|].
      destruct (FeedIndex.equals (FeedIndex.fromBigInt ix) FeedIndex.MINUS_ONE).
      * split; [apply deliveriesOnly_same|split]; reflexivity.
      * split; [|split; reflexivity].
        exists [Emit MESSAGE_RECEIVED (PMessage c)]. split; reflexivity.
    + split; [apply deliveriesOnly_same|split]; reflexivity.
Qed.

Lemma initReactionIndex_props reaction st :
  fst (initReactionIndex reaction st) = Ok tt
  /\ deliveriesOnly st (snd (initReactionIndex reaction st))
  /\ ownIndex (userDetails (snd (initReactionIndex reaction st)))
     = ownIndex (userDetails st).
Proof.
  destruct reaction as [r|].
  - split; [reflexivity|]. split; [apply deliveriesOnly_same|]; reflexivity.
  - cbn [initReactionIndex].
    destruct (fetchLatestReactions_props None st) as (Hok & _ & Hu & _).
    split; [exact Hok|]. split; [|exact Hu].
    destruct (fetchLatestReactions_emits None st) as [He|(rs & e' & _ & He)].
    + apply deliveriesOnly_same. exact He.
    + exists (received (messages rs)). split; [exact He | apply received_isReceived].
Qed.

Lemma init_unfold options st :
  let latest := match options with Some o => latestIndex o | None => None end in
  let first := match options with Some o => firstIndex o | None => None end in
  let reaction := match options with Some o => preloadReactionIndex o | None => None end in
  let s0 := emitted LOADING_INIT (PBool true) st in
  let s1 := snd (initOwnIndex latest s0) in
  let s2 := snd (history_init (match first with Some f => Some f | None => latest end) s1) in
  let s3 := snd (initReactionIndex reaction s2) in
  init options st
  = (Ok tt,
     match fst (initOwnIndex latest s0) with
     | Ok _ => emitted LOADING_INIT (PBool false) s3
     | Throw e => emitted CRITICAL_ERROR (PError e) (reported e "Comment.initSelfState" s3)
     end).
Proof.
  intros latest first reaction s0 s1 s2 s3.
  unfold init, tryCatch. unfold bind at 1, emit at 1, modify at 1.
  fold (emitted LOADING_INIT (PBool true) st). fold s0. fold latest first reaction.
  unfold bind at 1, settle at 1.
  subst s3 s2 s1.
  destruct (initOwnIndex latest s0) as [r1 s1]. cbn [fst snd].
  unfold bind at 1, settle at 1.
  destruct (history_init _ s1) as [r2 s2]. cbn [snd].
  unfold bind at 1, settle at 1.
  destruct (initReactionIndex reaction s2) as [r3 s3]. cbn [snd].
  destruct r1 as [[]|e]; reflexivity.
Qed.

(** X13: [init] never rejects.  Its first event is LOADING_INIT(true);
    then come only deliveries; its last event is LOADING_INIT(false) when
    [initOwnIndex] resolved, and otherwise CRITICAL_ERROR with the reason,
    which is then also the last report, under "Comment.initSelfState", and
    LOADING_INIT(false) is not emitted at all.  What [history.init] and
    [initReactionIndex] do has no part in the choice: neither rejects. *)
Theorem init_outcome options st :
  let latest := match options with Some o => latestIndex o | None => None end in
  let first := match options with Some o => firstIndex o | None => None end in
  let reaction := match options with Some o => preloadReactionIndex o | None => None end in
  let s0 := emitted LOADING_INIT (PBool true) st in
  let s1 := snd (initOwnIndex latest s0) in
  let s2 := snd (history_init (match first with Some f => Some f | None => latest end) s1) in
  let s3 := snd (initReactionIndex reaction s2) in
  let st' := snd (init options st) in
  fst (init options st) = Ok tt
  /\ fst (history_init (match first with Some f => Some f | None => latest end) s1) = Ok tt
  /\ fst (initReactionIndex reaction s2) = Ok tt
  /\ exists mid,
       forallb isReceived mid = true
       /\ match fst (initOwnIndex latest s0) with
          | Ok _ =>
              emitter st' = (emitter st ++ Emit LOADING_INIT (PBool true)
                                        :: mid ++ [Emit LOADING_INIT (PBool false)])%list
              /\ errorHandler st' = errorHandler s3
          | Throw e =>
              emitter st' = (emitter st ++ Emit LOADING_INIT (PBool true)
                                        :: mid ++ [Emit CRITICAL_ERROR (PError e)])%list
              /\ errorHandler st'
                 = (errorHandler s3 ++ [(e, "Comment.initSelfState")])%list
          end.
Proof.
  intros latest first reaction s0 s1 s2 s3 st'.
  subst st'. rewrite init_unfold. fold latest first reaction s0 s1 s2 s3. cbn [fst snd].
  destruct (history_init_props (match first with Some f => Some f | None => latest end) s1)
    as (Hh & Dh & _).
  destruct (initReactionIndex_props reaction s2) as (Hr & Dr & _).
  fold s2 in Dh, Dr. fold s3 in Dr.
  split; [reflexivity|]. split; [exact Hh|]. split; [exact Hr|].
  pose proof (initOwnIndex_deliveries latest s0) as Do. fold s1 in Do.
  destruct (deliveriesOnly_trans _ _ _ Do (deliveriesOnly_trans _ _ _ Dh Dr))
    as (mid & Hmid & Fmid).
  exists mid. split; [exact Fmid|].
  assert (H0 : emitter s0 = (emitter st ++ [Emit LOADING_INIT (PBool true)])%list)
    by reflexivity.
  destruct (fst (initOwnIndex latest s0)) as [[]|e].
  - split; [|reflexivity].
    change (emitter (emitted LOADING_INIT (PBool false) s3))
      with (emitter s3 ++ [Emit LOADING_INIT (PBool false)])%list.
    rewrite Hmid, H0, <- !app_assoc. reflexivity.
  - split; [|reflexivity].
    change (emitter (emitted CRITICAL_ERROR (PError e)
                             (reported e "Comment.initSelfState" s3)))
      with (emitter s3 ++ [Emit CRITICAL_ERROR (PError e)])%list.
    rewrite Hmid, H0, <- !app_assoc. reflexivity.
Qed.

(** X14: [history.init] never rejects.  With a checkpoint it sets the
    cursor and calls nothing.  Without one it reads the tip once; when that
    read rejects, or the index of the entry cannot be parsed, the cursor and
    the event log stay as they were, and the error is reported once under
    "SwarmHistory.init" unless it is a not-found error, which is dropped
    silently; otherwise nothing is reported and at most the tip entry is
    delivered. *)
Theorem history_init_outcomes st :
  let st' := snd (history_init None st) in
  let failure e :=
    startIndex st' = startIndex st
    /\ emitter st' = emitter st
    /\ errorHandler st'
       = (errorHandler st ++ if isNotFoundError e then [] else [(e, "SwarmHistory.init")])%list in
  (forall f, history_init (Some f) st = (Ok tt, set_startIndex f st))
  /\ fst (history_init None st) = Ok tt
  /\ store st' = (store st ++ [ReadSingle None (commentOptions st)])%list
  /\ match fst (readSingleComment None (commentOptions st) (env st)) with
     | Throw e => failure e
     | Ok latest =>
         match indexStrToBigint (indexOf latest) with
         | Throw e => failure e
         | Ok _ =>
             errorHandler st' = errorHandler st
             /\ (emitter st' = emitter st
                 \/ exists c, latest = Some c
                              /\ emitter st'
                                 = (emitter st ++ [Emit MESSAGE_RECEIVED (PMessage c)])%list)
         end
     end.
Proof.
  intros st' failure. subst st' failure.
  split; [reflexivity|].
  destruct (readSingleComment None (commentOptions st) (env st)) as [r e'] eqn:E.
  rewrite (history_init_spec st r e' E). cbn [fst snd].
  split; [reflexivity|].
  assert (Hfail : forall e,
             store (if isNotFoundError e
                    then asked (ReadSingle None (commentOptions st)) e' st
                    else reported e "SwarmHistory.init"
                                  (asked (ReadSingle None (commentOptions st)) e' st))
             = (store st ++ [ReadSingle None (commentOptions st)])%list
             /\ startIndex (if isNotFoundError e
                    then asked (ReadSingle None (commentOptions st)) e' st
                    else reported e "SwarmHistory.init"
                                  (asked (ReadSingle None (commentOptions st)) e' st))
                = startIndex st
             /\ emitter (if isNotFoundError e
                    then asked (ReadSingle None (commentOptions st)) e' st
                    else reported e "SwarmHistory.init"
                                  (asked (ReadSingle None (commentOptions st)) e' st))
                = emitter st
             /\ errorHandler (if isNotFoundError e
                    then asked (ReadSingle None (commentOptions st)) e' st
                    else reported e "SwarmHistory.init"
                                  (asked (ReadSingle None (commentOptions st)) e' st))
                = (errorHandler st
                     ++ if isNotFoundError e then [] else [(e, "SwarmHistory.init")])%list).
  { intros e. destruct (isNotFoundError e); rewrite ?app_nil_r; repeat split. }
  destruct r as [latest|e]; [|split; apply Hfail].
  destruct (indexStrToBigint (indexOf latest)) as [[ix|]|e];
    [| split; [reflexivity|]; split; [reflexivity | left; reflexivity] | split; apply Hfail].
  destruct latest as [c|];
    [| split; [reflexivity|]; split; [reflexivity | left; reflexivity]].
  destruct (ix =? 0); [split; [reflexivity|]; split; [reflexivity | left; reflexivity]|].
  destruct (FeedIndex.equals (FeedIndex.fromBigInt ix) FeedIndex.MINUS_ONE).
  - split; [reflexivity|]. split; [reflexivity | left; reflexivity].
  - split; [reflexivity|]. split; [reflexivity|]. right. exists c. split; reflexivity.
Qed.

Lemma retry_first_try {A} c (f : Env -> Res A * Env) n st a e' :
  f (env st) = (Ok a, e') ->
  retryAwaitableAsync (call c f) n st = (Ok a, asked c e' st).
Proof.
  intros H. destruct n; cbn [retryAwaitableAsync]; unfold tryCatch, call; rewrite H;
    reflexivity.
Qed.

(** [initOwnIndex] without a checkpoint when the first tip read succeeds. *)
Lemma initOwnIndex_fresh st comment e1 :
  readSingleComment None (commentOptions st) (env st) = (Ok comment, e1) ->
  let st1 := asked (ReadSingle None (commentOptions st)) e1 st in
  initOwnIndex None st
  = match indexStrToBigint (indexOf comment) with
    | Throw e => (Throw e, st1)
    | Ok None => (Ok tt, st1)
    | Ok (Some ix) =>
        if negb (ix =? 0)
           && negb (FeedIndex.equals (FeedIndex.fromBigInt ix) FeedIndex.MINUS_ONE)
           && (ownIndex (userDetails st) <? ix)
        then fetchMessagesInRange (ix - COMMENTS_TO_READ + 1) ix (commentOptions st)
                                  (set_ownIndex ix st1)
        else (Ok tt, st1)
    end.
Proof.
  intros H st1. rewrite initOwnIndex_unfold. cbv zeta.
  rewrite (retry_first_try _ _ 10 st comment e1 H). reflexivity.
Qed.

(** X15: a tip at index 0 is not seen.  When the tip read returns an
    entry whose index parses to 0, as the index string of the first slot
    does, the message refresh delivers nothing and leaves the pointer, the
    backfill of a fresh session reads no range and leaves the pointer, and
    [history.init] delivers nothing and sets the cursor to
    [FeedIndex.MINUS_ONE.toBigInt()]; a session whose pointer is still -1
    then writes its next message to index 0. *)
Theorem tip_at_index_zero_is_ignored st c e1
        (Hs : isSending st = false)
        (Ht : readSingleComment None (commentOptions st) (env st) = (Ok (Some c), e1))
        (Hp : indexStrToBigint (MessageData.index c) = Ok (Some 0)) :
  let st1 := asked (ReadSingle None (commentOptions st)) e1 st in
  indexStrToBigint (Some (FeedIndex.toString (FeedIndex.fromBigInt 0))) = Ok (Some 0)
  /\ fetchLatestMessage st = (Ok tt, st1)
  /\ initOwnIndex None st = (Ok tt, st1)
  /\ history_init None st
     = (Ok tt, set_startIndex (FeedIndex.toBigInt FeedIndex.MINUS_ONE) st1)
  /\ (ownIndex (userDetails st) = -1 ->
      nextWriteIndex (ownIndex (userDetails (snd (fetchLatestMessage st)))) = 0).
Proof.
  intros st1.
  assert (Hm : fetchLatestMessage st = (Ok tt, st1)).
  { rewrite (fetchLatestMessage_spec st _ _ Hs Ht). cbn [indexOf]. rewrite Hp. reflexivity. }
  split; [reflexivity|]. split; [exact Hm|]. split; [|split].
  - rewrite (initOwnIndex_fresh st _ _ Ht). cbn [indexOf]. rewrite Hp. reflexivity.
  - rewrite (history_init_spec st _ _ Ht). cbn [indexOf]. rewrite Hp. reflexivity.
  - intros Hown. rewrite Hm. cbn [snd]. subst st1.
    change (ownIndex (userDetails (asked (ReadSingle None (commentOptions st)) e1 st)))
      with (ownIndex (userDetails st)).
    rewrite Hown. reflexivity.
Qed.

Lemma fromBigInt_small x : 0 <= x < 2 ^ 64 -> FeedIndex.fromBigInt x = x.
Proof. intros H. unfold FeedIndex.fromBigInt. apply Z.mod_small. exact H. Qed.

Lemma initOwnIndex_fresh_backfill st tip e1 ix page e2 :
  readSingleComment None (commentOptions st) (env st) = (Ok (Some tip), e1) ->
  indexStrToBigint (MessageData.index tip) = Ok (Some ix) ->
  8 <= ix < 2 ^ 64 - 1 ->
  ownIndex (userDetails st) < ix ->
  readCommentsInRange (ix - 8) ix (commentOptions st) e1 = (Ok page, e2) ->
  initOwnIndex None st
  = (Ok tt,
     set_emitter (emitter st ++ delivered (orEmpty page))
       (asked (ReadRange (ix - 8) ix (commentOptions st)) e2
          (set_ownIndex ix (asked (ReadSingle None (commentOptions st)) e1 st)))).
Proof.
  intros Ht Hp Hix Hown Hr.
  rewrite (initOwnIndex_fresh st _ _ Ht). cbn [indexOf]. rewrite Hp.
  replace (negb (ix =? 0)) with true by lia.
  unfold FeedIndex.equals, FeedIndex.MINUS_ONE. rewrite fromBigInt_small by lia.
  replace (negb (ix =? 2 ^ 64 - 1)) with true by lia.
  replace (ownIndex (userDetails st) <? ix) with true by lia. cbn [andb].
  assert (Hr' : readCommentsInRange (FeedIndex.fromBigInt (ix - COMMENTS_TO_READ + 1))
                  (FeedIndex.fromBigInt ix) (commentOptions st)
                  (env (set_ownIndex ix (asked (ReadSingle None (commentOptions st)) e1 st)))
                = (Ok page, e2)).
  { unfold COMMENTS_TO_READ. replace (ix - 9 + 1) with (ix - 8) by lia.
    rewrite !fromBigInt_small by lia. exact Hr. }
  rewrite (fetchMessagesInRange_spec _ _ _ _ _ _ Hr').
  unfold COMMENTS_TO_READ. replace (ix - 9 + 1) with (ix - 8) by lia.
  rewrite !fromBigInt_small by lia.
  destruct page as [cs|]; cbn [orEmpty]; [reflexivity|].
  unfold delivered. cbn [filter map]. destruct st; cbv [asked]; cbn.
  rewrite app_nil_r. reflexivity.
Qed.

(** X16: the backfill of a fresh session.  Without a checkpoint, when the
    tip read returns an entry of index [ix] with [8 <= ix] beyond the
    pointer, [initOwnIndex] asks for the nine indices [ix - 8 .. ix] in one
    range read, delivers the entries of the page that pass validation, and
    sets the message pointer to [ix]. *)
Theorem fresh_backfill_reads_nine st tip e1 ix page e2
        (Ht : readSingleComment None (commentOptions st) (env st) = (Ok (Some tip), e1))
        (Hp : indexStrToBigint (MessageData.index tip) = Ok (Some ix))
        (Hix : 8 <= ix < 2 ^ 64 - 1)
        (Hown : ownIndex (userDetails st) < ix)
        (Hr : readCommentsInRange (ix - 8) ix (commentOptions st) e1 = (Ok page, e2)) :
  let st' := snd (initOwnIndex None st) in
  fst (initOwnIndex None st) = Ok tt
  /\ store st' = (store st ++ [ReadSingle None (commentOptions st);
                               ReadRange (ix - 8) ix (commentOptions st)])%list
  /\ requestedIndices (ReadRange (ix - 8) ix (commentOptions st)) = indicesOf (ix - 8) ix
  /\ List.length (indicesOf (ix - 8) ix) = 9%nat
  /\ emitter st' = (emitter st ++ delivered (orEmpty page))%list
  /\ ownIndex (userDetails st') = ix.
Proof.
  intros st'. subst st'.
  rewrite (initOwnIndex_fresh_backfill st tip e1 ix page e2 Ht Hp Hix Hown Hr).
  cbn [fst snd]. split; [reflexivity|]. split.
  - cbv [asked]. cbn. rewrite <- app_assoc. reflexivity.
  - split; [reflexivity|]. split; [|split; reflexivity].
    unfold indicesOf. rewrite length_map, length_seq. lia.
Qed.



Lemma retry_all_fail {A} c (f : Env -> Res A * Env) (down : Env -> Prop)
      (Hf : forall w, down w -> exists e w', f w = (Throw e, w') /\ down w') n :
  forall st, down (env st) ->
    exists e, fst (retryAwaitableAsync (call c f) n st) = Throw e.
Proof.
  induction n as [|n IH]; intros st Hd; cbn [retryAwaitableAsync]; unfold tryCatch, call;
    destruct (Hf _ Hd) as (e & w' & Hw & Hd'); rewrite Hw.
  - exists e. reflexivity.
  - apply IH. exact Hd'.
Qed.

(** X18: giving up on the tip.  While the node keeps rejecting the tip
    read, [initOwnIndex] makes its eleven attempts and nothing else,
    reports the last rejection once under "Utils.retryAwaitableAsync" and
    rejects with it; [init] then ends with CRITICAL_ERROR, and its last
    report is the reason under "Comment.initSelfState". *)
Theorem init_gives_up_after_eleven_reads st (down : Env -> Prop)
        (Hf : forall w, down w ->
                exists e w', readSingleComment None (commentOptions st) w = (Throw e, w')
                             /\ down w')
        (Hd : down (env st)) :
  (forall latest,
     let s1 := snd (initOwnIndex latest st) in
     exists e,
       fst (initOwnIndex latest st) = Throw e
       /\ store s1 = (store st ++ repeat (ReadSingle None (commentOptions st)) 11)%list
       /\ errorHandler s1 = (errorHandler st ++ [(e, "Utils.retryAwaitableAsync")])%list
       /\ emitter s1 = emitter st)
  /\ (forall options,
        let st' := snd (init options st) in
        exists e,
          last (emitter st') CleanAll = Emit CRITICAL_ERROR (PError e)
          /\ last (errorHandler st') (e, "") = (e, "Comment.initSelfState")).
Proof.
  assert (Hrun : forall latest s, down (env s) -> commentOptions s = commentOptions st ->
            exists e,
              fst (initOwnIndex latest s) = Throw e
              /\ store (snd (initOwnIndex latest s))
                 = (store s ++ repeat (ReadSingle None (commentOptions st)) 11)%list
              /\ errorHandler (snd (initOwnIndex latest s))
                 = (errorHandler s ++ [(e, "Utils.retryAwaitableAsync")])%list
              /\ emitter (snd (initOwnIndex latest s)) = emitter s).
  { intros latest s Hds Hco. rewrite initOwnIndex_unfold. cbv zeta. rewrite Hco.
    set (s0 := match latest with Some l => set_ownIndex l s | None => s end).
    assert (H0 : down (env s0)) by (destruct latest; exact Hds).
    destruct (retry_all_fail (ReadSingle None (commentOptions st))
                (readSingleComment None (commentOptions st)) down Hf 10 s0 H0) as (e & He).
    destruct (retryAwaitableAsync _ 10 s0) as [r s1] eqn:E. cbn [fst] in He. subst r.
    destruct (retry_call_spec _ _ _ _ _ _ E) as (k & _ & Hs & Hem & _ & _ & _ & Hk & Hr).
    exists e. cbn [fst snd]. split; [reflexivity|]. subst k.
    assert (Hs0 : store s0 = store s /\ errorHandler s0 = errorHandler s
                  /\ emitter s0 = emitter s)
      by (destruct latest; repeat split).
    destruct Hs0 as (Ha & Hb & Hc). rewrite Hs, Hr, Hem, Ha, Hb, Hc. repeat split. }
  split.
  - intros latest s1. exact (Hrun latest st Hd eq_refl).
  - intros options st'. subst st'. rewrite init_unfold. cbv zeta. cbn [snd].
    destruct (Hrun (match options with Some o => latestIndex o | None => None end)
                   (emitted LOADING_INIT (PBool true) st) Hd eq_refl) as (e & He & _).
    exists e. rewrite He. cbv [emitted reported]. cbn. split; apply last_last.
Qed.

End Initialisation.

(** ** Where a send writes *)

Section WriteTargets.
Context {Env : Type} {C : Collaborators Env}.
Implicit Type st : State Env.

(** X19: where a text or thread send writes.  When the refresh before
    the write reads a tip entry of index [ix], the message is written at one
    past the larger of [ix] and the session's pointer, with that index, in
    its sixteen-digit form, as the index of the message; the tip read and
    the write are the first store calls of the send. *)
Theorem text_write_target message type targetMessageId id prevState st obj st0 c e1 ix
        (Hty : type <> REACTION)
        (Hs : isSending st = false)
        (Hn : newMessage message type targetMessageId id st = (Ok obj, st0))
        (Ht : readSingleComment None (commentOptions st) (env st0) = (Ok (Some c), e1))
        (Hp : indexStrToBigint (MessageData.index c) = Ok (Some ix))
        (Hix : 0 < ix < 2 ^ 64 - 1)
        (Hown : -1 <= ownIndex (userDetails st) < 2 ^ 64 - 1) :
  let target := Z.max (ownIndex (userDetails st)) ix + 1 in
  let obj1 := MessageData.withIndex (FeedIndex.toString target) obj in
  let st' := snd (sendMessage message type targetMessageId id prevState st) in
  exists rest,
    store st' = (store st ++ [ReadSingle None (commentOptions st);
                              WriteComment obj1 target (commentOptions st)] ++ rest)%list.
Proof.
  intros target obj1 st'. subst st'.
  destruct (newMessage_frame _ _ _ _ _ _ _ Hn) as [e0 ->].
  rewrite (sendMessage_store _ _ _ _ _ _ _ _ Hn). unfold sendOutcome.
  set (s0 := emitted MESSAGE_REQUEST_INITIATED (PMessage obj) (set_env e0 st)).
  pose proof (sendMessage_try_text type prevState obj (set_env e0 st)) as Hspec.
  cbv zeta in Hspec. fold s0 in Hspec.
  assert (H1 : store (snd (fetchLatestMessage s0))
               = (store st ++ [ReadSingle None (commentOptions st)])%list
               /\ ownIndex (userDetails (snd (fetchLatestMessage s0)))
                  = Z.max (ownIndex (userDetails st)) ix
               /\ commentOptions (snd (fetchLatestMessage s0)) = commentOptions st).
  { rewrite (fetchLatestMessage_spec s0 (Ok (Some c)) e1 Hs Ht). cbn [snd indexOf].
    rewrite Hp. replace (negb (ix =? 0)) with true by lia.
    unfold FeedIndex.equals, FeedIndex.MINUS_ONE. rewrite fromBigInt_small by lia.
    replace (negb (ix =? 2 ^ 64 - 1)) with true by lia. cbn [andb].
    change (ownIndex (userDetails s0)) with (ownIndex (userDetails st)).
    destruct (ownIndex (userDetails st) <? ix) eqn:E; repeat split; cbn; lia. }
  destruct H1 as (Hst & Hown1 & Hco).
  destruct (fetchLatestMessage s0) as [r1 st1]. cbn [snd] in *.
  assert (Hidx : FeedIndex.fromBigInt (nextWriteIndex (ownIndex (userDetails st1))) = target).
  { rewrite nextWriteIndex_succ, Hown1. subst target. apply fromBigInt_small. lia. }
  rewrite Hidx, Hco in Hspec. fold obj1 in Hspec.
  destruct (writeCommentToIndex obj1 target (commentOptions st) (env st1)) as [w e2] eqn:Ew.
  destruct (readSingleComment (Some target) (commentOptions st) e2) as [rb e3] eqn:Eb.
  rewrite (Hspec w e2 rb e3 Hty eq_refl Eb).
  destruct w as [[receipt|]|e];
    [destruct rb as [[dataCheck|]|e]; [destruct (mismatch dataCheck obj1)| |] | |];
    cbn [snd fst]; cbv [asked emitted reported]; cbn; rewrite Hst;
    first [ exists [ReadSingle (Some target) (commentOptions st)];
            rewrite <- !app_assoc; reflexivity
          | exists []; rewrite <- !app_assoc; reflexivity ].
Qed.

(** X20: where a reaction send writes.  When the refresh before the
    write reads a snapshot whose next index is [next], the new snapshot is
    written at the larger of [next] and one past the session's reaction
    pointer, after the one refresh read and with no read-back; an
    acknowledged write moves the reaction pointer to the index written, and
    a rejected or empty one leaves it where the refresh put it. *)
Theorem reaction_write_target message targetMessageId id prevState st obj st0 rs e1 next
        (Hn : newMessage message REACTION targetMessageId id st = (Ok obj, st0))
        (Ht : readReactionsWithIndex None (reactionOptions st) (env st0) = (Ok rs, e1))
        (Hp : indexStrToBigint (Some (nextIndex rs)) = Ok (Some next))
        (Hnext : 0 < next < 2 ^ 64 - 1)
        (Hown : -1 <= reactionIndex st < 2 ^ 64 - 1) :
  let target := Z.max (reactionIndex st + 1) next in
  let obj1 := MessageData.withIndex (FeedIndex.toString target) obj in
  let snapshot := orEmpty (updateReactions (orEmpty prevState) obj1) in
  let st' := snd (sendMessage message REACTION targetMessageId id prevState st) in
  store st' = (store st ++ [ReadReactions None (reactionOptions st);
                            WriteReactions snapshot target (reactionOptions st)])%list
  /\ match fst (writeReactionsToIndex snapshot target (reactionOptions st) e1) with
     | Ok (Some _) => reactionIndex st' = target
     | _ => reactionIndex st' = target - 1
     end.
Proof.
  intros target obj1 snapshot st'. subst st'.
  destruct (newMessage_frame _ _ _ _ _ _ _ Hn) as [e0 ->].
  rewrite (sendMessage_unfold _ _ _ _ _ _ _ _ Hn).
  set (s0 := emitted MESSAGE_REQUEST_INITIATED (PMessage obj) (set_env e0 st)).
  pose proof (sendMessage_try_reaction prevState obj (set_env e0 st)) as Hspec.
  cbv zeta in Hspec. fold s0 in Hspec.
  assert (H1 : store (snd (fetchLatestReactions None s0))
               = (store st ++ [ReadReactions None (reactionOptions st)])%list
               /\ reactionIndex (snd (fetchLatestReactions None s0)) = target - 1
               /\ reactionOptions (snd (fetchLatestReactions None s0)) = reactionOptions st
               /\ env (snd (fetchLatestReactions None s0)) = e1).
  { rewrite (fetchLatestReactions_spec None s0 (Ok rs) e1 Ht). cbn [snd].
    rewrite Hp. replace (next =? 0) with false by lia.
    replace (next <? 0) with false by lia.
    unfold FeedIndex.equals, FeedIndex.MINUS_ONE. rewrite fromBigInt_small by lia.
    replace (next =? 2 ^ 64 - 1) with false by lia. cbn [orb].
    change (reactionIndex s0) with (reactionIndex st).
    subst target.
    destruct (reactionIndex st + 1 <? next) eqn:E; cbv [bumpReaction asked]; cbn;
      destruct (reactionIndex st <? next - 1) eqn:E2; cbn; repeat split; lia. }
  destruct H1 as (Hst & Hr1 & Hro & He1).
  destruct (fetchLatestReactions None s0) as [r1 st1]. cbn [snd] in *.
  assert (Hidx : nextReactionIndex (reactionIndex st1) = target).
  { unfold nextReactionIndex. rewrite Hr1.
    replace (target - 1 =? -1) with false by (subst target; lia).
    replace (target - 1 + 1) with target by lia. apply fromBigInt_small. subst target. lia. }
  rewrite Hidx, Hro, He1 in Hspec. fold obj1 snapshot in Hspec.
  destruct (writeReactionsToIndex snapshot target (reactionOptions st) e1) as [w e2] eqn:Ew.
  rewrite (Hspec w e2 eq_refl). cbn [fst].
  destruct w as [[receipt|]|e]; cbn [snd]; cbv [asked emitted reported]; cbn;
    rewrite Hst, <- app_assoc; (split; [reflexivity|]);
    first [ reflexivity | exact Hr1 ].
Qed.

End WriteTargets.

(** ** Ordering, key normalisation and the constructor *)

Section Utilities.

Local Abbreviation byTimestamp :=
  (fun a b : MessageData.t => MessageData.timestamp a <= MessageData.timestamp b).

Lemma insertByTimestamp_perm m l : Permutation (m :: l) (insertByTimestamp m l).
Proof.
  induction l as [|x rest IH]; cbn [insertByTimestamp]; [reflexivity|].
  destruct (MessageData.timestamp m <=? MessageData.timestamp x); [reflexivity|].
  rewrite perm_swap. apply perm_skip. exact IH.
Qed.

Lemma insertByTimestamp_hd m l x :
  HdRel byTimestamp x l -> MessageData.timestamp x <= MessageData.timestamp m ->
  HdRel byTimestamp x (insertByTimestamp m l).
Proof.
  intros Hl Hm. destruct l as [|y rest]; cbn [insertByTimestamp].
  - constructor. exact Hm.
  - destruct (MessageData.timestamp m <=? MessageData.timestamp y).
    + constructor. exact Hm.
    + constructor. inversion Hl; assumption.
Qed.

Lemma insertByTimestamp_sorted m l :
  Sorted byTimestamp l -> Sorted byTimestamp (insertByTimestamp m l).
Proof.
  induction l as [|x rest IH]; intros Hs; cbn [insertByTimestamp].
  - repeat constructor.
  - destruct (MessageData.timestamp m <=? MessageData.timestamp x) eqn:E.
    + constructor; [exact Hs|]. constructor. lia.
    + inversion Hs as [|? ? Hrest Hhd]; subst. constructor; [apply IH; exact Hrest|].
      apply insertByTimestamp_hd; [exact Hhd | lia].
Qed.

Lemma insertByTimestamp_filter t m l :
  filter (fun x => MessageData.timestamp x =? t) (insertByTimestamp m l)
  = filter (fun x => MessageData.timestamp x =? t) (m :: l).
Proof.
  induction l as [|x rest IH]; cbn [insertByTimestamp]; [reflexivity|].
  destruct (MessageData.timestamp m <=? MessageData.timestamp x) eqn:E; [reflexivity|].
  cbn [filter] in *. rewrite IH.
  destruct (MessageData.timestamp x =? t) eqn:Ex;
    destruct (MessageData.timestamp m =? t) eqn:Em; try reflexivity.
  lia.
Qed.

Lemma insertByTimestamp_front m l :
  Sorted byTimestamp (m :: l) -> insertByTimestamp m l = m :: l.
Proof.
  intros Hs. destruct l as [|x rest]; [reflexivity|]. cbn [insertByTimestamp].
  inversion Hs as [|? ? _ Hhd]; subst. inversion Hhd; subst.
  replace (MessageData.timestamp m <=? MessageData.timestamp x) with true by lia.
  reflexivity.
Qed.

Lemma orderMessages_sorted_id l : Sorted byTimestamp l -> orderMessages l = l.
Proof.
  induction l as [|m rest IH]; intros Hs; [reflexivity|]. cbn [orderMessages].
  inversion Hs as [|? ? Hrest Hhd]; subst. rewrite (IH Hrest).
  apply insertByTimestamp_front. exact Hs.
Qed.

Lemma orderMessages_is_sorted l : Sorted byTimestamp (orderMessages l).
Proof.
  induction l as [|m rest IH]; cbn [orderMessages]; [constructor|].
  apply insertByTimestamp_sorted. exact IH.
Qed.

(** X21: [orderMessages] returns its argument rearranged in order of
    ascending timestamp, entries of equal timestamp keeping their order; a
    list that is in order already comes back as it is, so ordering twice is
    ordering once. *)
Theorem orderMessages_is_stable_sort (messages : list MessageData.t) :
  Sorted byTimestamp (orderMessages messages)
  /\ Permutation messages (orderMessages messages)
  /\ (forall t, filter (fun x => MessageData.timestamp x =? t) (orderMessages messages)
                = filter (fun x => MessageData.timestamp x =? t) messages)
  /\ orderMessages (orderMessages messages) = orderMessages messages.
Proof.
  split; [apply orderMessages_is_sorted|]. split; [|split].
  - induction messages as [|m rest IH]; cbn [orderMessages]; [constructor|].
    etransitivity; [apply perm_skip; exact IH | apply insertByTimestamp_perm].
  - intros t. induction messages as [|m rest IH]; cbn [orderMessages]; [reflexivity|].
    rewrite insertByTimestamp_filter. cbn [filter]. rewrite IH. reflexivity.
  - apply orderMessages_sorted_id, orderMessages_is_sorted.
Qed.

Lemma lowerChar_idem c : JsString.lowerChar (JsString.lowerChar c) = JsString.lowerChar c.
Proof. destruct c as [[] [] [] [] [] [] [] []]; reflexivity. Qed.

Lemma toLowerCase_idem s : JsString.toLowerCase (JsString.toLowerCase s) = JsString.toLowerCase s.
Proof.
  induction s as [|c r IH]; [reflexivity|]. cbn [JsString.toLowerCase].
  now rewrite lowerChar_idem, IH.
Qed.

Lemma remove0x_lowered s : JsString.toLowerCase (remove0x s) = remove0x s.
Proof. unfold remove0x. apply toLowerCase_idem. Qed.

Lemma slice2_lowered s :
  JsString.toLowerCase s = s -> JsString.toLowerCase (JsString.slice2 s) = JsString.slice2 s.
Proof.
  destruct s as [|c0 [|c1 r]]; try reflexivity.
  cbn [JsString.toLowerCase JsString.slice2]. intros H. inversion H as [[H0 H1 H2]].
  rewrite !H2. reflexivity.
Qed.

(** X22: [remove0x] strips a leading "0x" and lowers the case of the rest;
    the test for the prefix comes before the lowering, so a leading "0X" is
    kept, as "0x"; a string without the prefix is only lowered; and applying
    [remove0x] again changes nothing exactly when the result does not start
    with "0x" itself. *)
Theorem remove0x_prefix (s : string) :
  remove0x ("0x" ++ s) = JsString.toLowerCase s
  /\ remove0x ("0X" ++ s) = "0x" ++ JsString.toLowerCase s
  /\ (if JsString.startsWith0x s
      then remove0x s = JsString.toLowerCase (JsString.slice2 s)
      else remove0x s = JsString.toLowerCase s)
  /\ (if JsString.startsWith0x (remove0x s)
      then remove0x (remove0x s) = JsString.slice2 (remove0x s)
      else remove0x (remove0x s) = remove0x s).
Proof.
  split; [reflexivity|]. split; [reflexivity|]. split.
  - unfold remove0x. destruct (JsString.startsWith0x s); reflexivity.
  - pose proof (remove0x_lowered s) as HL.
    destruct (JsString.startsWith0x (remove0x s)) eqn:E.
    + unfold remove0x at 1. rewrite E. apply slice2_lowered. exact HL.
    + unfold remove0x at 1. rewrite E. exact HL.
Qed.

End Utilities.

(** ** What holds throughout a session *)

(** A goal about the settings of a state built from [st], settled on [st]
    given field by field. *)
Ltac session_cases st :=
  destruct st; cbv [asked reported bumpReaction emitted sameSession]; cbn in *;
  repeat match goal with
         | |- context [if ?b then _ else _] => destruct b eqn:?
         end;
  cbn in *; repeat split; try congruence.

Section SessionInvariant.
Context {Env : Type} {C : Collaborators Env}.
Implicit Type st : State Env.

(** The settings are kept and the sending guard is as before. *)
Local Abbreviation kept st st' := (sameSession st st' /\ isSending st' = isSending st).

Lemma kept_refl st : kept st st.
Proof. unfold sameSession. repeat split. Qed.

Lemma kept_trans st1 st2 st3 : kept st1 st2 -> kept st2 st3 -> kept st1 st3.
Proof.
  unfold sameSession. intros (H1 & G1) (H2 & G2).
  destruct H1 as (A1 & A2 & A3 & A4 & A5 & A6 & A7).
  destruct H2 as (B1 & B2 & B3 & B4 & B5 & B6 & B7).
  repeat split; congruence.
Qed.

Lemma retry_kept_eq {A} (c : StoreCall) (f : Env -> Res A * Env) (retries : nat) :
  forall st r s1, retryAwaitableAsync (call c f) retries st = (r, s1) -> kept st s1.
Proof.
  induction retries as [|n IH]; intros st r s1 H; cbn [retryAwaitableAsync] in H;
    unfold tryCatch, call at 1 in H; destruct (f (env st)) as [[a|e] e'];
    cbv [bind handleError modify throw] in H.
  - inversion H; subst. session_cases st.
  - inversion H; subst. session_cases st.
  - inversion H; subst. session_cases st.
  - apply IH in H. eapply kept_trans; [|exact H]. session_cases st.
Qed.

Lemma retry_kept {A} (c : StoreCall) (f : Env -> Res A * Env) (retries : nat) st :
  kept st (snd (retryAwaitableAsync (call c f) retries st)).
Proof.
  destruct (retryAwaitableAsync (call c f) retries st) as [r s1] eqn:E.
  exact (retry_kept_eq c f retries st r s1 E).
Qed.

Lemma fetchMessagesInRange_kept a b opts st :
  kept st (snd (fetchMessagesInRange a b opts st)).
Proof.
  destruct (readCommentsInRange (FeedIndex.fromBigInt a) (FeedIndex.fromBigInt b) opts (env st))
    as [r e'] eqn:E.
  rewrite (fetchMessagesInRange_spec a b opts st r e' E).
  destruct r as [[cs|]|e]; session_cases st.
Qed.

Lemma initOwnIndex_kept latest st : kept st (snd (initOwnIndex latest st)).
Proof.
  rewrite initOwnIndex_unfold.
  set (st0 := match latest with Some l => set_ownIndex l st | None => st end).
  assert (H0 : kept st st0) by (subst st0; destruct latest; session_cases st).
  pose proof (retry_kept (ReadSingle None (commentOptions st))
                (readSingleComment None (commentOptions st)) 10 st0) as H1.
  destruct (retryAwaitableAsync _ 10 st0) as [r s1]. cbn [snd] in H1.
  pose proof (kept_trans _ _ _ H0 H1) as H01.
  destruct r as [comment|e]; [|exact H01].
  destruct (indexStrToBigint (indexOf comment)) as [[ix|]|e]; try exact H01.
  destruct (negb (ix =? 0)
            && negb (FeedIndex.equals (FeedIndex.fromBigInt ix) FeedIndex.MINUS_ONE)
            && (ownIndex (userDetails s1) <? ix)); [|exact H01].
  eapply kept_trans; [exact H01|].
  eapply kept_trans; [|apply fetchMessagesInRange_kept]. session_cases s1.
Qed.

Lemma history_init_kept first st : kept st (snd (history_init first st)).
Proof.
  destruct first as [f|]; [session_cases st|].
  destruct (readSingleComment None (commentOptions st) (env st)) as [r e'] eqn:E.
  rewrite (history_init_spec st r e' E). cbn [snd].
  destruct r as [latest|e]; [|session_cases st].
  destruct (indexStrToBigint (indexOf latest)) as [[ix|]|e]; [|session_cases st..].
  destruct latest as [c|]; session_cases st.
Qed.

Lemma fetchLatestMessage_kept st : kept st (snd (fetchLatestMessage st)).
Proof.
  destruct (Bool.bool_dec (isSending st) true) as [Hs|Hs].
  - rewrite (fetchLatestMessage_guarded st Hs). apply kept_refl.
  - apply not_true_is_false in Hs.
    destruct (readSingleComment None (commentOptions st) (env st)) as [r e'] eqn:E.
    rewrite (fetchLatestMessage_spec st r e' Hs E). cbn [snd].
    destruct r as [latest|e]; [|session_cases st].
    destruct (indexStrToBigint (indexOf latest)) as [[ix|]|e]; [|session_cases st..].
    destruct latest as [c|]; session_cases st.
Qed.

Lemma fetchLatestReactions_kept index st : kept st (snd (fetchLatestReactions index st)).
Proof.
  destruct (readReactionsWithIndex (option_map FeedIndex.fromBigInt index)
                                   (reactionOptions st) (env st)) as [r e'] eqn:E.
  rewrite (fetchLatestReactions_spec index st r e' E). cbn [snd].
  destruct r as [rs|e]; [|session_cases st].
  destruct (indexStrToBigint (Some (nextIndex rs))) as [[next|]|e]; session_cases st.
Qed.

Lemma poll_kept st : kept st (snd (poll st)).
Proof.
  destruct (stopFetch st) eqn:Hf.
  - rewrite (poll_stopped st Hf). session_cases st.
  - rewrite (poll_run st Hf). cbn [snd].
    eapply kept_trans; [apply fetchLatestMessage_kept | apply fetchLatestReactions_kept].
Qed.

Lemma init_kept options st : kept st (snd (init options st)).
Proof.
  rewrite init_unfold. cbv zeta. cbn [snd].
  set (s0 := emitted LOADING_INIT (PBool true) st).
  set (latest := match options with Some o => latestIndex o | None => None end).
  set (first := match options with Some o => firstIndex o | None => None end).
  set (reaction := match options with Some o => preloadReactionIndex o | None => None end).
  set (s1 := snd (initOwnIndex latest s0)).
  set (s2 := snd (history_init (match first with Some f => Some f | None => latest end) s1)).
  set (s3 := snd (initReactionIndex reaction s2)).
  assert (H0 : kept st s0) by (subst s0; session_cases st).
  assert (H1 : kept s0 s1) by apply initOwnIndex_kept.
  assert (H2 : kept s1 s2) by apply history_init_kept.
  assert (H3 : kept s2 s3).
  { subst s3. destruct reaction as [r|]; [session_cases s2|].
    apply fetchLatestReactions_kept. }
  pose proof (kept_trans _ _ _ H0 (kept_trans _ _ _ H1 (kept_trans _ _ _ H2 H3))) as H.
  destruct (fst (initOwnIndex latest s0)) as [[]|e];
    (eapply kept_trans; [exact H|]); session_cases s3.
Qed.

Lemma fetchPreviousMessages_kept st : kept st (snd (fetchPreviousMessages st)).
Proof.
  rewrite fetchPreviousMessages_run. cbn [snd].
  set (sti := emitted LOADING_PREVIOUS_MESSAGES (PBool true) st).
  assert (H0 : kept st sti) by (subst sti; session_cases st).
  assert (H1 : kept sti (snd (fetchPreviousMessageState sti))).
  { destruct (Z_le_gt_dec (startIndex sti) 0) as [Hle|Hgt].
    - rewrite (fetchPreviousMessageState_idle sti Hle). apply kept_refl.
    - assert (Hpos : 0 < startIndex sti) by lia.
      destruct (readCommentsInRange
                  (FeedIndex.fromBigInt (if COMMENTS_TO_READ <? startIndex sti
                                         then startIndex sti - COMMENTS_TO_READ else 0))
                  (FeedIndex.fromBigInt (startIndex sti - 1))
                  (commentOptions sti) (env sti)) as [rr e'] eqn:E.
      rewrite (fetchPreviousMessageState_spec sti rr e' Hpos E).
      clear E Hpos Hgt H0. destruct rr as [[cs|]|e]; session_cases sti. }
  eapply kept_trans; [exact (kept_trans _ _ _ H0 H1)|].
  session_cases (snd (fetchPreviousMessageState sti)).
Qed.

Lemma sendMessage_session message type targetMessageId id prevState st :
  let st' := snd (sendMessage message type targetMessageId id prevState st) in
  sameSession st st' /\ (isSending st = false -> isSending st' = false).
Proof.
  intros st'. subst st'.
  destruct (newMessage message type targetMessageId id st) as [[obj|e] st0] eqn:Hn.
  2:{ unfold sendMessage, bind. rewrite Hn. cbn [snd].
      destruct (newMessage_frame _ _ _ _ _ _ _ Hn) as [e0 ->]. session_cases st. }
  rewrite (sendMessage_unfold _ _ _ _ _ _ _ _ Hn).
  destruct (newMessage_frame _ _ _ _ _ _ _ Hn) as [e0 ->].
  set (s0 := emitted MESSAGE_REQUEST_INITIATED (PMessage obj) (set_env e0 st)).
  assert (H0 : sameSession st s0) by (subst s0; session_cases st).
  assert (Hclose : forall s1 s' : State Env, sameSession s0 s1 -> sameSession s1 s' -> isSending s' = false ->
                                 sameSession st s' /\ (isSending st = false -> isSending s' = false)).
  { intros s1 s' H1 H2 H3. split; [|intros _; exact H3].
    unfold sameSession in *.
    destruct H0 as (A1 & A2 & A3 & A4 & A5 & A6 & A7).
    destruct H1 as (B1 & B2 & B3 & B4 & B5 & B6 & B7).
    destruct H2 as (D1 & D2 & D3 & D4 & D5 & D6 & D7).
    repeat split; congruence. }
  destruct (MessageType_eq_dec type REACTION) as [Hr|Hr].
  - rewrite Hr in *. clear Hr.
    pose proof (sendMessage_try_reaction prevState obj (set_env e0 st)) as Hspec.
    cbv zeta in Hspec. fold s0 in Hspec.
    destruct (fetchLatestReactions_kept None s0) as (H1 & _).
    destruct (fetchLatestReactions None s0) as [r1 st1]. cbn [snd] in *.
    destruct (writeReactionsToIndex _ _ (reactionOptions st1) (env st1)) as [w e2] eqn:Ew.
    rewrite (Hspec w e2 eq_refl).
    destruct w as [[receipt|]|e]; cbn [snd]; apply (Hclose st1); try exact H1;
      clear; session_cases st1.
  - pose proof (sendMessage_try_text type prevState obj (set_env e0 st)) as Hspec.
    cbv zeta in Hspec. fold s0 in Hspec.
    destruct (fetchLatestMessage_kept s0) as (H1 & _).
    destruct (fetchLatestMessage s0) as [r1 st1]. cbn [snd] in *.
    destruct (writeCommentToIndex _ _ (commentOptions st1) (env st1)) as [w e2] eqn:Ew.
    destruct (readSingleComment
                (Some (FeedIndex.fromBigInt (nextWriteIndex (ownIndex (userDetails st1)))))
                (commentOptions st1) e2) as [rb e3] eqn:Eb.
    rewrite (Hspec w e2 rb e3 Hr eq_refl Eb).
    destruct w as [[receipt|]|e];
      [destruct rb as [[dataCheck|]|e]; [destruct (mismatch dataCheck _)| |] | |];
      cbn [snd]; apply (Hclose st1); try exact H1; clear; session_cases st1.
Qed.

Lemma stop_session st : kept st (snd (stop st)).
Proof. session_cases st. Qed.

Lemma startPolling_session st n :
  kept st (fst (snd (startMessagesFetchProcess (st, n)))).
Proof.
  destruct (fetchProcessRunning st) eqn:Hrun.
  - assert (H : startMessagesFetchProcess (st, n) = (Ok tt, (st, n))).
    { unfold startMessagesFetchProcess, bind, local, gets, id. cbn. rewrite Hrun. reflexivity. }
    rewrite H. apply kept_refl.
  - rewrite (startMessagesFetchProcess_idle st n Hrun). cbn [fst snd].
    eapply kept_trans; [|apply poll_kept]. clear. session_cases st.
Qed.

Lemma keyMatches_kept st st' : sameSession st st' -> keyMatches st -> keyMatches st'.
Proof.
  unfold sameSession, keyMatches. intros (H1 & H2 & _) Hk. rewrite H1, H2. exact Hk.
Qed.

Lemma api_step_session st st' :
  api_step st st' -> sameSession st st' /\ (isSending st = false -> isSending st' = false).
Proof.
  assert (Hk : forall s s' : State Env, kept s s' ->
                 sameSession s s' /\ (isSending s = false -> isSending s' = false)).
  { intros s s' (H & G). split; [exact H | congruence]. }
  intros H. destruct H.
  - apply Hk, init_kept.
  - apply Hk, startPolling_session.
  - apply Hk, poll_kept.
  - apply sendMessage_session.
  - rewrite retrySendMessage_spec. cbn [snd]. apply sendMessage_session.
  - apply Hk, fetchPreviousMessages_kept.
  - apply Hk, stop_session.
Qed.

(** X23: what holds throughout a session.  Whatever [init], the poll
    loop, sends, retried sends, page loads and [stop] do, each run to its
    end and in any order, the key, the address, the nickname, the two feed
    options, the topic and the poll interval stay as they were; the sending
    guard, clear at the start, is clear after every one of them; and a
    session whose address is the one of its key stays so, so that none of
    its sends rejects. *)
Theorem session_invariant st st' (Hrun : api_steps st st') :
  sameSession st st'
  /\ (isSending st = false -> isSending st' = false)
  /\ (keyMatches st ->
      keyMatches st'
      /\ forall message type targetMessageId id prevState,
           fst (sendMessage message type targetMessageId id prevState st') = Ok tt).
Proof.
  assert (Hinv : sameSession st st' /\ (isSending st = false -> isSending st' = false)).
  { induction Hrun as [st|st1 st2 st3 Hstep _ IH].
    - unfold sameSession. repeat split; auto.
    - destruct (api_step_session _ _ Hstep) as (H1 & G1). destruct IH as (H2 & G2).
      split; [|intros Hs; apply G2, G1, Hs].
      unfold sameSession in *.
      destruct H1 as (A1 & A2 & A3 & A4 & A5 & A6 & A7).
      destruct H2 as (B1 & B2 & B3 & B4 & B5 & B6 & B7).
      repeat split; congruence. }
  destruct Hinv as (Hsame & Hguard).
  split; [exact Hsame|]. split; [exact Hguard|].
  intros Hk. pose proof (keyMatches_kept _ _ Hsame Hk) as Hk'. split; [exact Hk'|].
  intros message type targetMessageId id prevState.
  destruct (newMessage_spec message type targetMessageId id st' Hk') as (obj & e' & Hn & _).
  rewrite (sendMessage_unfold _ _ _ _ _ _ _ _ Hn).
  destruct (sendMessage_try type prevState (set_env e' st', obj)) as [r [s' obj']].
  reflexivity.
Qed.

End SessionInvariant.

(** ** The constructor *)

Section Construction.
Context {Env : Type} {C : Collaborators Env} {T : TopicCollaborators}.

(** X24: a new session.  The poll interval is the requested one when that
    is at least 500, the default 2000 when none or 0 is given, and 500
    otherwise; the pointers and the cursor start at -1, with no page to load;
    nothing is running or being sent; both feeds are read under the address
    of the key derived from the topic.  When the key library derives the
    same address from the key with and without its "0x" prefix, and that
    address is in the form [EthAddress] prints, the session's address is the
    one of its key. *)
Theorem construct_initial (settings : CommentSettings) (world : Env)
        (Hprefix : signerAddress (remove0x (user_privateKey settings))
                   = signerAddress (user_privateKey settings))
        (Hform : ethAddressToString (signerAddress (user_privateKey settings))
                 = signerAddress (user_privateKey settings)) :
  let st := construct settings world in
  MINIMUM_POLL_INTERVAL <= pollInterval st
  /\ pollInterval st
     = match infra_pollInterval settings with
       | None => DEFAULT_POLL_INTERVAL
       | Some p => if p =? 0 then DEFAULT_POLL_INTERVAL
                   else if p <? MINIMUM_POLL_INTERVAL then MINIMUM_POLL_INTERVAL else p
       end
  /\ ownIndex (userDetails st) = -1
  /\ reactionIndex st = -1
  /\ startIndex st = -1
  /\ hasPreviousMessages st = false
  /\ isSending st = false
  /\ fetchProcessRunning st = false
  /\ stopFetch st = false
  /\ emitter st = [] /\ errorHandler st = [] /\ store st = []
  /\ Options.address (commentOptions st) = Options.address (reactionOptions st)
  /\ Options.stamp (commentOptions st)
     = match infra_stamp settings with
       | None | Some EmptyString => PLACEHOLDER_STAMP
       | Some s => s
       end
  /\ keyMatches st.
Proof.
  intros st. subst st.
  assert (Hp : pollIntervalOf (infra_pollInterval settings)
               = match infra_pollInterval settings with
                 | None => DEFAULT_POLL_INTERVAL
                 | Some p => if p =? 0 then DEFAULT_POLL_INTERVAL
                             else if p <? MINIMUM_POLL_INTERVAL
                                  then MINIMUM_POLL_INTERVAL else p
                 end).
  { unfold pollIntervalOf. destruct (infra_pollInterval settings) as [[|p|p]|]; reflexivity. }
  split.
  { cbn [construct pollInterval]. rewrite Hp.
    unfold MINIMUM_POLL_INTERVAL, DEFAULT_POLL_INTERVAL.
    destruct (infra_pollInterval settings) as [p|]; [|lia].
    destruct (p =? 0); [lia|]. destruct (p <? 500) eqn:E; lia. }
  split; [exact Hp|].
  repeat (split; [reflexivity|]).
  split.
  { cbn. destruct (infra_stamp settings) as [[|c r]|]; reflexivity. }
  unfold keyMatches. cbn. rewrite Hprefix, Hform. reflexivity.
Qed.

End Construction.

(** ** Chunks *)

Section ChunkTheorems.
Context {L : Chunks.Library}.

(** X25: a content-addressed chunk.  [makeContentAddressedChunk] refuses
    exactly the payloads of no byte or of more than 4096 bytes, with its own
    range error; the size check of [calculateBmtRootHash] never fires under
    it.  A [Span] being [Span.LENGTH] bytes long, the chunk it returns has
    the span of the payload's length followed by the payload as its data,
    its payload field is the payload given, and its address is the hash of
    the span and the root of the payload padded with zeros to 4096 bytes,
    which [calculateChunkAddress] computes again from the data alone. *)
Theorem content_chunk_roundtrip (payloadBytes : Chunks.bytes)
        (Hspan : forall n, List.length (Chunks.Span_fromBigInt n) = Chunks.Span_LENGTH) :
  let n := List.length payloadBytes in
  match Chunks.makeContentAddressedChunk (inl payloadBytes) with
  | Chunks.Raise e =>
      e = Chunks.PayloadSizeOutOfLimits n /\ (n < 1 \/ 4096 < n)%nat
  | Chunks.Return c =>
      (1 <= n <= 4096)%nat
      /\ Chunks.span c = Chunks.Span_fromBigInt (Z.of_nat n)
      /\ Chunks.data c = (Chunks.span c ++ payloadBytes)%list
      /\ List.length (Chunks.data c) = (Chunks.Span_LENGTH + n)%nat
      /\ Chunks.payload c = payloadBytes
      /\ Chunks.address c
         = Chunks.keccak256
             (Chunks.span c
                ++ Chunks.reduceSegments
                     (payloadBytes ++ repeat Byte.x00 (4096 - n)))%list
      /\ Chunks.calculateChunkAddress (Chunks.data c) = Chunks.Return (Chunks.address c)
  end.
Proof.
  intros n. unfold Chunks.makeContentAddressedChunk.
  unfold Chunks.MIN_PAYLOAD_SIZE, Chunks.MAX_PAYLOAD_SIZE. fold n.
  destruct ((n <? 1)%nat || (4096 <? n)%nat) eqn:E.
  - split; [reflexivity|]. apply orb_true_iff in E.
    destruct E as [E|E]; apply Nat.ltb_lt in E; [left | right]; exact E.
  - apply orb_false_iff in E. destruct E as [E1 E2].
    apply Nat.ltb_ge in E1. apply Nat.ltb_ge in E2.
    set (sp := Chunks.Span_fromBigInt (Z.of_nat n)).
    assert (Hlen : List.length sp = Chunks.Span_LENGTH) by apply Hspan.
    assert (Hfirst : firstn Chunks.Span_LENGTH (sp ++ payloadBytes)%list = sp).
    { rewrite <- Hlen, firstn_app, Nat.sub_diag, firstn_all. cbn. apply app_nil_r. }
    assert (Hskip : skipn Chunks.Span_LENGTH (sp ++ payloadBytes)%list = payloadBytes).
    { rewrite <- Hlen, skipn_app, Nat.sub_diag, skipn_all. reflexivity. }
    assert (Haddr : Chunks.calculateChunkAddress (sp ++ payloadBytes)%list
                    = Chunks.Return
                        (Chunks.keccak256
                           (sp ++ Chunks.reduceSegments
                                    (payloadBytes ++ repeat Byte.x00 (4096 - n)))%list)).
    { unfold Chunks.calculateChunkAddress, Chunks.calculateBmtRootHash.
      rewrite Hfirst, Hskip. unfold Chunks.MAX_CHUNK_PAYLOAD_SIZE. fold n.
      replace (4096 <? n)%nat with false by (symmetry; apply Nat.ltb_ge; exact E2).
      reflexivity. }
    rewrite Haddr. cbn [Chunks.span Chunks.data Chunks.payload Chunks.address].
    split; [split; assumption|]. split; [reflexivity|]. split; [reflexivity|].
    split; [rewrite length_app, Hlen; reflexivity|].
    split; [exact Hskip|]. split; [reflexivity | exact Haddr].
Qed.

(** X26: a single-owner chunk.  For a chunk made by
    [makeContentAddressedChunk], [makeSingleOwnerChunk] gives a chunk with
    the same span and the same payload, whose data is the identifier, the
    signature and the data of the content chunk in this order, whose
    signature is the owner's over the identifier followed by the content
    address, and whose address is the hash of the identifier and the owner's
    address, whatever the payload. *)
Theorem single_owner_chunk_keeps_content (payloadBytes identifier signer : Chunks.bytes)
        (c : Chunks.Chunk)
        (Hspan : forall n, List.length (Chunks.Span_fromBigInt n) = Chunks.Span_LENGTH)
        (Hc : Chunks.makeContentAddressedChunk (inl payloadBytes) = Chunks.Return c) :
  let soc := Chunks.makeSingleOwnerChunk c identifier signer in
  Chunks.soc_span soc = Chunks.span c
  /\ Chunks.soc_payload soc = payloadBytes
  /\ Chunks.soc_signature soc = Chunks.sign signer (identifier ++ Chunks.address c)%list
  /\ Chunks.soc_data soc
     = (identifier ++ Chunks.soc_signature soc ++ Chunks.span c ++ payloadBytes)%list
  /\ Chunks.soc_address soc
     = Chunks.keccak256 (identifier ++ Chunks.addressOfKey signer)%list
  /\ Chunks.soc_owner soc = Chunks.addressOfKey signer.
Proof.
  intros soc. subst soc.
  assert (Hd : Chunks.data c
               = (Chunks.Span_fromBigInt (Z.of_nat (List.length payloadBytes))
                    ++ payloadBytes)%list
               /\ Chunks.span c
                  = Chunks.Span_fromBigInt (Z.of_nat (List.length payloadBytes))).
  { revert Hc. unfold Chunks.makeContentAddressedChunk.
    destruct (_ || _); [discriminate|].
    destruct (Chunks.calculateChunkAddress _); [|discriminate].
    intros H. inversion H. split; reflexivity. }
  destruct Hd as (Hd & Hs).
  set (sp := Chunks.Span_fromBigInt (Z.of_nat (List.length payloadBytes))) in *.
  assert (Hlen : List.length sp = Chunks.Span_LENGTH) by apply Hspan.
  unfold Chunks.makeSingleOwnerChunk, Chunks.makeSOCAddress.
  cbn [Chunks.soc_span Chunks.soc_payload Chunks.soc_signature Chunks.soc_data
       Chunks.soc_address Chunks.soc_owner].
  rewrite Hd, Hs. split.
  { rewrite <- Hlen, firstn_app, Nat.sub_diag, firstn_all. cbn. apply app_nil_r. }
  split.
  { rewrite <- Hlen, skipn_app, Nat.sub_diag, skipn_all. reflexivity. }
  repeat split.
Qed.

End ChunkTheorems.
(** * The theorems on the in-memory node *)

Import MemoryNode.


Lemma validation_and_page_delivery_witness :
  let m3 := bob3 in
  let m4 := eve4 in
  let m5 := carol5 in
  let w := pageWorld in
  let st := session 5 (-1) 3 false w in
  validateUserSignature legacyEntry = true
  /\ (validateUserSignature m4 = true
      <-> exists sig, MessageData.signature m4 = Some sig
            /\ signatureIsValid sig (digestOf m4) (MessageData.address m4) = Ok true)
  /\ (let '(r, st') := fetchMessagesInRange 3 5 MemoryNode.commentOpts st in
      r = Ok tt
      /\ emitter st' = (emitter st ++ delivered [m3; m4; m5])%list
      /\ errorHandler st' = errorHandler st
      /\ (forall c, In (Emit MESSAGE_RECEIVED (PMessage c)) (delivered [m3; m4; m5])
                    <-> In c [m3; m4; m5] /\ validateUserSignature c = true)).
Proof.
  intros m3 m4 m5 w st.
  destruct (@validation_and_page_delivery MemoryNode.World MemoryNode.node) as (H1 & H2 & H3).
  split; [apply H1; reflexivity|].
  split; [apply H2; discriminate|].
  apply (H3 3 5 MemoryNode.commentOpts st [m3; m4; m5] w). reflexivity.
Defined.

Example page_skips_forged_entry :
  delivered [bob3; eve4; carol5]
  = [Emit MESSAGE_RECEIVED (PMessage bob3); Emit MESSAGE_RECEIVED (PMessage carol5)].
Proof. reflexivity. Qed.


(** C4 (as stated) fails: at the initial cursor -1 [hasPreviousMessages] is
    false although the cursor is not 0. *)
Lemma hasPrevious_false_at_minus_one :
  let st := session (-1) (-1) (-1) false quietWorld in
  hasPreviousMessages st = false
  /\ startIndex st <> 0
  /\ ~ (forall st : State World, hasPreviousMessages st = false <-> startIndex st = 0).
Proof.
  intros st. split; [reflexivity|]. split; [discriminate|].
  intros H. specialize (H st). destruct H as [H _].
  specialize (H eq_refl). discriminate H.
Qed.

Lemma history_paging_witness :
  (hasPreviousMessages (session 13 (-1) 12 false longWorld) = true)
  /\ (hasPreviousMessages (session (-1) (-1) (-1) false quietWorld) = false)
  /\ (let st := session 13 (-1) 12 false longWorld in
      startIndex (snd (fetchPreviousMessageState st)) = 3
      /\ store (snd (fetchPreviousMessageState st))
         = (store st ++ [ReadRange 3 11 (commentOptions st)])%list
      /\ requestedIndices (ReadRange 3 11 (commentOptions st)) = [3; 4; 5; 6; 7; 8; 9; 10; 11])
  /\ (let st := session 13 (-1) 5 false longWorld in
      startIndex (snd (fetchPreviousMessageState st)) = 0
      /\ store (snd (fetchPreviousMessageState st))
         = (store st ++ [ReadRange 0 4 (commentOptions st)])%list
      /\ requestedIndices (ReadRange 0 4 (commentOptions st)) = [0; 1; 2; 3; 4])
  /\ (let st := session (-1) (-1) (-1) false quietWorld in
      fetchPreviousMessageState st = (Ok tt, st))
  /\ (let st := session 3 (-1) 0 false quietWorld in
      fetchPreviousMessageState st = (Ok tt, st)).
Proof.
  destruct (@history_paging World node) as (H1 & H2 & H3 & H4 & H5).
  split; [apply H1; reflexivity|].
  split; [apply H2; intro H; discriminate H|].
  split; [eapply H3; reflexivity|].
  split; [eapply H4; reflexivity|].
  split.
  - apply (H5 (session (-1) (-1) (-1) false quietWorld)). intro H; discriminate H.
  - apply (H5 (session 3 (-1) 0 false quietWorld)). intro H; discriminate H.
Defined.

(** C7: [stop] resets the reaction pointer and the history cursor and leaves
    [userDetails.ownIndex] as it was. *)
Theorem stop_keeps_message_pointer :
  let st := session 5 2 7 false quietWorld in
  fst (stop st) = Ok tt
  /\ ownIndex (userDetails (snd (stop st))) = 5
  /\ reactionIndex (snd (stop st)) = -1
  /\ startIndex (snd (stop st)) = -1.
Proof. repeat split. Qed.

Lemma pointers_never_decrease_witness :
  (let st := session 2 (-1) 2 false quietWorld in
   let st' := snd (sendMessage "+1" REACTION (Some "m3") None None
                               (snd (sendMessage "hello" TEXT None None None
                                                 (snd (poll st))))) in
   ownIndex (userDetails st) <= ownIndex (userDetails st')
   /\ reactionIndex st <= reactionIndex st')
  /\ (let st := session 2 1 2 false (offline quietWorld) in
      let sm := snd (fetchLatestMessage st) in
      let sr := snd (fetchLatestReactions (Some 2) st) in
      ownIndex (userDetails sm) = ownIndex (userDetails st)
      /\ reactionIndex sm = reactionIndex st
      /\ errorHandler sm = (errorHandler st ++ [(unreachable, "Comment.fetchLatestMessage")])%list
      /\ ownIndex (userDetails sr) = ownIndex (userDetails st)
      /\ reactionIndex sr = reactionIndex st
      /\ errorHandler sr = (errorHandler st ++ [(unreachable, "Comment.fetchLatestReactions")])%list).
Proof.
  destruct (@pointers_never_decrease World node) as (H1 & H2 & _).
  split.
  - intros st st'. apply H1.
    eapply steps_cons; [apply step_poll|].
    eapply steps_cons; [apply (step_send "hello" TEXT None None None); discriminate|].
    eapply steps_cons; [apply (step_send "+1" REACTION (Some "m3") None None);
                        intros _; vm_compute; reflexivity|].
    apply steps_refl.
  - intros st. eapply H2; reflexivity.
Defined.

Lemma sending_guard_witness :
  (let st := session 3 (-1) 3 true longWorld in
   fetchLatestMessage st = (Ok tt, st)
   /\ ownIndex (userDetails (snd (poll st))) = 3
   /\ store (snd (poll st)) = [ReadReactions (Some 0) reactionOpts]
   /\ reactionIndex (snd (fetchLatestReactions (Some 0) st)) = 4)
  /\ isSending (snd (sendMessage "hello" TEXT None None None
                                 (session 3 (-1) 3 false racedWorld))) = false
  /\ isSending (snd (sendMessage "hello" TEXT None None None
                                 (session 3 (-1) 3 false quietWorld))) = false.
Proof.
  destruct (@sending_guard World node) as (_ & H2 & H3 & H4 & H5).
  split; [intros st; split; [|split; [|split]]|split].
  - apply H2. reflexivity.
  - apply (H3 st). reflexivity.
  - apply (H3 st); reflexivity.
  - apply (H4 (Some 0) st (reactionState longWorld) longWorld 5); try reflexivity.
    split; reflexivity.
  - apply H5. reflexivity.
  - apply H5. reflexivity.
Defined.

(** C6: a poll tick whose message refresh passed the guard test before a
    text send set the guard.  Session at pointer 3 on a feed whose tip is
    slot 3: [sendMessage "hello"] has started and awaits its own refresh,
    the guard not yet set (it is set at line 162, after that refresh); the
    refresh of a poll tick finds the guard clear and its read goes out; the
    send chooses slot 4 and sets the guard; another author's entry lands in
    slot 4; the read of the tick settles: with the guard set, the message
    pointer goes from 3 to 4 and the entry is emitted, where a refresh
    starting at that moment would have done nothing.  The write of the send
    then finds slot 4 taken, the send ends in a collision error, and the
    pointer stays at 4. *)
Theorem refresh_in_flight_moves_pointer :
  let st := session 3 (-1) 3 false quietWorld in
  let st0 := snd (newMessage "hello" TEXT None (Some "a1") st) in
  let begun := emitted MESSAGE_REQUEST_INITIATED (PMessage aliceHello) st0 in
  let prepared := sendText_prepare (begun, aliceHello) in
  let s1 := fst (snd prepared) in
  let obj1 := snd (snd prepared) in
  let s2 := set_env (arrive 4 bob4 (env s1)) s1 in
  let s3 := snd (fetchLatestMessage_settle s2) in
  let committed := sendText_commit 4 (s3, obj1) in
  fst (newMessage "hello" TEXT None (Some "a1") st) = Ok aliceHello
  /\ fetchLatestMessage_enter begun = (Ok true, begun)
  /\ fst prepared = Ok 4
  /\ isSending s1 = true
  /\ ownIndex (userDetails s1) = 3
  /\ fetchLatestMessage s2 = (Ok tt, s2)
  /\ isSending s3 = true
  /\ ownIndex (userDetails s3) = 4
  /\ emitter s3 = (emitter s1 ++ [Emit MESSAGE_RECEIVED (PMessage bob4)])%list
  /\ fst committed = Throw (WriteVerificationFailed "hello" "body of m4" 1001 950)
  /\ ownIndex (userDetails (fst (snd committed))) = 4.
Proof. vm_compute. repeat split; reflexivity. Qed.

(** C5 (as stated) fails: a poll tick that runs while a reaction send
    awaits its write.  Session with the reaction pointer at 4 on a feed
    whose next reaction slot is 5: [sendMessage "+1"] refreshes and chooses
    slot 5; other authors fill the slots up to 7; the tick's reaction
    refresh raises the pointer to 7; the write of the send is acknowledged
    and the pointer is set to 5. *)
Lemma reaction_pointer_falls_back :
  let st := session 3 4 3 false (reacted 5 quietWorld) in
  let st0 := snd (newMessage "+1" REACTION (Some "m3") (Some "r1") st) in
  let prepared :=
    sendReaction_prepare None (emitted MESSAGE_REQUEST_INITIATED (PMessage reactionR1) st0,
                               reactionR1) in
  let s1 := fst (snd prepared) in
  let obj1 := snd (snd prepared) in
  let s2 := set_env (reacted 8 (env s1)) s1 in
  let s3 := snd (poll s2) in
  let committed := sendReaction_commit [obj1] 5 (s3, obj1) in
  let s4 := fst (snd committed) in
  fst (newMessage "+1" REACTION (Some "m3") (Some "r1") st) = Ok reactionR1
  /\ fst prepared = Ok ([obj1], 5)
  /\ reactionIndex s1 = 4
  /\ fst (poll s2) = Ok true
  /\ reactionIndex s3 = 7
  /\ fst committed = Ok tt
  /\ reactionIndex s4 = 5.
Proof. vm_compute. repeat split; reflexivity. Qed.

(** The two side conditions in [op_step] are needed:
    [initOwnIndex] assigns the checkpoint without comparing (line 213), so
    a checkpoint below the pointer lowers it when the tip read then fails;
    and the slot after the last feed index is slot 0. *)
Lemma seeding_below_pointer :
  let st := session 10 (-1) 3 false (offline quietWorld) in
  ownIndex (userDetails (snd (initOwnIndex (Some 5) st))) = 5.
Proof. vm_compute. reflexivity. Qed.

Lemma reaction_slot_wraps :
  let st := session 3 (2 ^ 64 - 1) 3 false quietWorld in
  reactionIndex (snd (sendMessage "+1" REACTION (Some "m3") (Some "r1") None st)) = 0.
Proof. vm_compute. reflexivity. Qed.



Lemma text_send_pointer_witness :
  ownIndex (userDetails (snd (sendMessage "hello" TEXT None (Some "a1") None
                                          (session 3 (-1) 3 false racedWorld)))) = 3
  /\ ownIndex (userDetails (snd (sendMessage "hello" TEXT None (Some "a1") None
                                             (session 3 (-1) 3 false quietWorld)))) = 3 + 1
  /\ ownIndex (userDetails (snd (sendMessage "hello" THREAD (Some "m3") (Some "a2") None
                                             (session (-1) (-1) (-1) false
                                                      (world [] None 0))))) = 0.
Proof.
  split; [|split].
  - edestruct (@text_send_pointer World node "hello" TEXT None (Some "a1") None
                 (session 3 (-1) 3 false racedWorld)) as (_ & Hmis & _).
    + discriminate.
    + reflexivity.
    + reflexivity.
    + reflexivity.
    + apply Hmis. left. discriminate.
  - edestruct (@text_send_pointer World node "hello" TEXT None (Some "a1") None
                 (session 3 (-1) 3 false quietWorld)) as (_ & _ & Hmatch).
    + discriminate.
    + reflexivity.
    + reflexivity.
    + reflexivity.
    + apply Hmatch. split; reflexivity.
  - edestruct (@text_send_pointer World node "hello" THREAD (Some "m3") (Some "a2") None
                 (session (-1) (-1) (-1) false (world [] None 0))) as (_ & _ & Hmatch).
    + discriminate.
    + reflexivity.
    + reflexivity.
    + reflexivity.
    + apply Hmatch; [split; reflexivity | reflexivity].
Defined.

Lemma retry_omits_prior_snapshot_witness :
  let st := session 3 (-1) 3 false quietWorld in
  let written := MessageData.withIndex (FeedIndex.toString 0) reactionR1 in
  store (snd (retrySendMessage reactionR1 st))
  = (store st ++ [ReadReactions None (reactionOptions st);
                  WriteReactions [written] 0 (reactionOptions st)])%list
  /\ store (snd (sendMessage (MessageData.message reactionR1) REACTION
                             (MessageData.targetMessageId reactionR1)
                             (Some (MessageData.id reactionR1)) (Some [bob3]) st))
     = (store st ++ [ReadReactions None (reactionOptions st);
                     WriteReactions [bob3; written] 0 (reactionOptions st)])%list.
Proof.
  intros st written.
  destruct (@retry_omits_prior_snapshot World node) as (_ & H).
  destruct (H reactionR1 st eq_refl eq_refl) as (obj & st0 & Hn & _ & _ & _ & _ & Hs & Hp).
  inversion Hn; subst. split; [exact Hs | exact (Hp [bob3])].
Defined.

Lemma checkpoint_backfill_witness :
  let st := session (-1) (-1) (-1) false longWorld in
  let m := fun i => entry "m" "address-of-bob" (900 + i) i true in
  let st' := snd (initOwnIndex (Some 10) st) in
  store st' = [ReadSingle None commentOpts; ReadRange 11 13 commentOpts]
  /\ emitter st' = [Emit MESSAGE_RECEIVED (PMessage (m 11));
                    Emit MESSAGE_RECEIVED (PMessage (m 12));
                    Emit MESSAGE_RECEIVED (PMessage (m 13))]
  /\ ownIndex (userDetails st') = 13
  /\ emitter (snd (init (Some {| firstIndex := None; latestIndex := Some 10;
                                 preloadReactionIndex := Some 4 |}) st))
     = [Emit LOADING_INIT (PBool true);
        Emit MESSAGE_RECEIVED (PMessage (m 11));
        Emit MESSAGE_RECEIVED (PMessage (m 12));
        Emit MESSAGE_RECEIVED (PMessage (m 13));
        Emit LOADING_INIT (PBool false)]
  /\ emitter (snd (fetchLatestMessage st')) = emitter st'.
Proof.
  intros st m st'.
  destruct (@checkpoint_backfill World node st (m 13) longWorld [m 11; m 12; m 13] longWorld)
    as (_ & Hs & _ & He & _ & _ & Ho & Hinit & Hsame & _); try reflexivity.
  split; [exact Hs|]. split; [exact He|]. split; [exact Ho|].
  split; [exact (proj1 (proj2 (Hinit None 4)))|].
  apply (Hsame longWorld). reflexivity.
Defined.

(** C3 (as stated) fails: with the checkpoint 10 and the tip at 13, an
    entry in slot 12 whose signature does not verify is fetched and not
    emitted; the backfill emits the entries of slots 11 and 13 only. *)
Lemma backfill_skips_forged_entry :
  let st := session (-1) (-1) (-1) false forgedWorld in
  let m := fun i => entry "m" "address-of-bob" (900 + i) i (negb (i =? 12)) in
  let st' := snd (initOwnIndex (Some 10) st) in
  fst (readSingleComment None commentOpts forgedWorld) = Ok (Some (m 13))
  /\ fst (readCommentsInRange 11 13 commentOpts forgedWorld) = Ok (Some [m 11; m 12; m 13])
  /\ validateUserSignature (m 12) = false
  /\ fst (initOwnIndex (Some 10) st) = Ok tt
  /\ store st' = [ReadSingle None commentOpts; ReadRange 11 13 commentOpts]
  /\ emitter st' = [Emit MESSAGE_RECEIVED (PMessage (m 11));
                    Emit MESSAGE_RECEIVED (PMessage (m 13))]
  /\ ~ In (Emit MESSAGE_RECEIVED (PMessage (m 12))) (emitter st')
  /\ ownIndex (userDetails st') = 13.
Proof.
  vm_compute. repeat split; try reflexivity.
  intros [H|[H|[]]]; discriminate H.
Qed.

(** The first poll tick is started beside [init] (core.ts:90-93).  When its
    message refresh settles after the seeding of [initOwnIndex] and before
    the tip read of [initOwnIndex] does, the pointer is already at 13 at
    that read: no range is asked for and the entries of slots 11 and 12 are
    not emitted. *)
Lemma backfill_overtaken_by_first_poll :
  let st := session (-1) (-1) (-1) false longWorld in
  let m := fun i => entry "m" "address-of-bob" (900 + i) i true in
  let s1 := snd (initOwnIndex_seed (Some 10) st) in
  let s2 := snd (fetchLatestMessage s1) in
  let s3 := snd (initOwnIndex_settle (Some 10) s2) in
  ownIndex (userDetails s1) = 10
  /\ ownIndex (userDetails s2) = 13
  /\ fst (initOwnIndex_settle (Some 10) s2) = Ok tt
  /\ store s3 = [ReadSingle None commentOpts; ReadSingle None commentOpts]
  /\ emitter s3 = [Emit MESSAGE_RECEIVED (PMessage (m 13))]
  /\ ownIndex (userDetails s3) = 13.
Proof. vm_compute. repeat split; reflexivity. Qed.

(** ** Further runs on the in-memory node *)

Lemma paging_covers_history_witness :
  let st := session 13 (-1) 12 false longWorld in
  let st' := snd (loadPages 2 st) in
  0 <= startIndex st < 2 ^ 64
  /\ startIndex st' = 0
  /\ store st' = [ReadRange 3 11 commentOpts; ReadRange 0 2 commentOpts]
  /\ requestedBy (rev (store st')) = [0; 1; 2; 3; 4; 5; 6; 7; 8; 9; 10; 11].
Proof.
  intros st st'.
  assert (Hread : forall a b o e, exists r e',
             @readCommentsInRange World node a b o e = (Ok r, e'))
    by (intros a b o e; eexists _, _; reflexivity).
  assert (Hlo : 0 <= startIndex st) by (vm_compute; discriminate).
  assert (Hhi : startIndex st < 2 ^ 64) by (vm_compute; reflexivity).
  pose proof (@paging_covers_history World node st Hread Hlo Hhi) as H.
  split; [split; assumption|].
  destruct H as (_ & Hs & _). split; [exact Hs|].
  split; vm_compute; reflexivity.
Defined.

Lemma tip_delivered_once_witness :
  let st := session 2 (-1) 2 false quietWorld in
  let st1 := snd (fetchLatestMessage st) in
  let st2 := snd (fetchLatestMessage st1) in
  emitter st1 = [Emit MESSAGE_RECEIVED (PMessage bob3)]
  /\ emitter st2 = emitter st1
  /\ ownIndex (userDetails st2) = ownIndex (userDetails st1).
Proof.
  intros st st1 st2.
  split; [vm_compute; reflexivity|].
  exact (@tip_delivered_once World node st (Some bob3) quietWorld quietWorld
           eq_refl eq_refl eq_refl).
Defined.

Lemma reactions_delivered_once_witness :
  let st := session 2 (-1) 2 false longWorld in
  let st1 := snd (fetchLatestReactions None st) in
  let st2 := snd (fetchLatestReactions (Some 5) st1) in
  reactionIndex st1 = 4
  /\ emitter st2 = emitter st1
  /\ reactionIndex st2 = reactionIndex st1.
Proof.
  intros st st1 st2.
  split; [vm_compute; reflexivity|].
  refine (@reactions_delivered_once World node None (Some 5) st (reactionState longWorld)
            longWorld longWorld eq_refl eq_refl _).
  intros next H. vm_compute in H. injection H as <-. vm_compute. reflexivity.
Defined.

Lemma send_event_protocol_witness :
  let st := session 3 (-1) 3 false quietWorld in
  keyMatches st
  /\ fst (sendMessage "hello" TEXT None (Some "a1") None st) = Ok tt.
Proof.
  intros st.
  assert (Hk : keyMatches st) by reflexivity.
  split; [exact Hk|].
  exact (proj1 (@send_event_protocol World node "hello" TEXT None (Some "a1") None st Hk)).
Defined.

Lemma failed_upload_no_read_back_witness :
  let st := session 3 (-1) 3 false quietWorld in
  let st0 := set_env (tick (tick quietWorld)) st in
  newMessage "hello" TEXT None (Some "a1") st = (Ok aliceHello, st0)
  /\ store (snd (sendMessage "hello" TEXT None (Some "a1") None st))
     = [ReadSingle None commentOpts;
        WriteComment (MessageData.withIndex (FeedIndex.toString 4) aliceHello) 4 commentOpts;
        ReadSingle (Some 4) commentOpts].
Proof.
  intros st st0.
  assert (Hty : TEXT <> REACTION) by discriminate.
  assert (Hn : newMessage "hello" TEXT None (Some "a1") st = (Ok aliceHello, st0))
    by (vm_compute; reflexivity).
  pose proof (@failed_upload_no_read_back World node "hello" TEXT None (Some "a1") None
                st aliceHello st0 Hty Hn) as H.
  split; [exact Hn|].
  vm_compute in H. vm_compute. exact H.
Defined.

Lemma tip_at_index_zero_is_ignored_witness :
  let first := entry "m0" "address-of-bob" 900 0 true in
  let w := world [(0, first)] (Some 0) 0 in
  let st := session (-1) (-1) (-1) false w in
  MessageData.index first = Some "0000000000000000"
  /\ emitter (snd (fetchLatestMessage st)) = []
  /\ ownIndex (userDetails (snd (initOwnIndex None st))) = -1
  /\ store (snd (initOwnIndex None st)) = [ReadSingle None commentOpts]
  /\ startIndex (snd (history_init None st)) = FeedIndex.toBigInt FeedIndex.MINUS_ONE.
Proof.
  intros first w st.
  assert (Hs : isSending st = false) by reflexivity.
  assert (Ht : readSingleComment None (commentOptions st) (env st) = (Ok (Some first), w))
    by (vm_compute; reflexivity).
  assert (Hp : indexStrToBigint (MessageData.index first) = Ok (Some 0))
    by (vm_compute; reflexivity).
  destruct (@tip_at_index_zero_is_ignored World node st first w Hs Ht Hp)
    as (_ & Hm & Ho & Hh & _).
  split; [vm_compute; reflexivity|].
  rewrite Hm, Ho, Hh. repeat split.
Defined.

Lemma fresh_backfill_reads_nine_witness :
  let st := session (-1) (-1) (-1) false longWorld in
  let st' := snd (initOwnIndex None st) in
  store st' = (store st ++ [ReadSingle None (commentOptions st);
                            ReadRange (13 - 8) 13 (commentOptions st)])%list
  /\ ownIndex (userDetails st') = 13.
Proof.
  intros st st'.
  assert (Ht : readSingleComment None (commentOptions st) (env st)
               = (Ok (Some (entry "m" "address-of-bob" (900 + 13) 13 true)), longWorld))
    by (vm_compute; reflexivity).
  assert (Hp : indexStrToBigint
                 (MessageData.index (entry "m" "address-of-bob" (900 + 13) 13 true))
               = Ok (Some 13))
    by (vm_compute; reflexivity).
  assert (Hix : 8 <= 13 < 2 ^ 64 - 1) by (split; vm_compute; [discriminate | reflexivity]).
  assert (Hown : ownIndex (userDetails st) < 13) by (vm_compute; reflexivity).
  assert (Hr : readCommentsInRange (13 - 8) 13 (commentOptions st) longWorld
               = (Ok (match fst (readRange 5 13 commentOpts longWorld) with
                      | Ok page => page
                      | Throw _ => None
                      end), longWorld))
    by (vm_compute; reflexivity).
  destruct (@fresh_backfill_reads_nine World node st _ longWorld 13 _ longWorld
              Ht Hp Hix Hown Hr) as (_ & Hs & _ & _ & _ & Ho).
  split; [exact Hs | exact Ho].
Defined.


Lemma init_gives_up_after_eleven_reads_witness :
  let st := session 2 1 2 false (offline quietWorld) in
  online (env st) = false
  /\ exists e,
       fst (initOwnIndex None st) = Throw e
       /\ store (snd (initOwnIndex None st))
          = (store st ++ repeat (ReadSingle None (commentOptions st)) 11)%list
       /\ errorHandler (snd (initOwnIndex None st))
          = (errorHandler st ++ [(e, "Utils.retryAwaitableAsync")])%list
       /\ emitter (snd (initOwnIndex None st)) = emitter st.
Proof.
  intros st.
  assert (Hd : online (env st) = false) by reflexivity.
  assert (Hf : forall w, online w = false ->
                 exists e w', readSingleComment None (commentOptions st) w = (Throw e, w')
                              /\ online w' = false).
  { intros w Hw. exists unreachable, w. split; [|exact Hw].
    change (readSingle None (commentOptions st) w = (Throw unreachable, w)).
    unfold readSingle. rewrite Hw. reflexivity. }
  split; [exact Hd|].
  exact (proj1 (@init_gives_up_after_eleven_reads World node st
                  (fun w => online w = false) Hf Hd) None).
Defined.

Lemma session_invariant_witness :
  let st := session 3 (-1) 3 false quietWorld in
  let st' := snd (sendMessage "hello" TEXT None (Some "a1") None (snd (poll st))) in
  api_steps st st'
  /\ sameSession st st'
  /\ isSending st' = false
  /\ keyMatches st'.
Proof.
  intros st st'.
  assert (Hrun : api_steps st st').
  { apply (api_cons _ _ _ (api_poll st)).
    apply (api_cons _ _ _ (api_send "hello" TEXT None (Some "a1") None (snd (poll st)))).
    apply api_refl. }
  destruct (@session_invariant World node st st' Hrun) as (Hsame & Hguard & Hkey).
  split; [exact Hrun|]. split; [exact Hsame|].
  split; [apply Hguard; reflexivity|].
  apply Hkey. reflexivity.
Defined.

Lemma construct_initial_witness :
  let settings := {| user_privateKey := "alice"; user_nickname := "Alice";
                     infra_beeUrl := "http://bee"; infra_stamp := None;
                     infra_topic := "topic"; infra_pollInterval := Some 100 |} in
  let st := @construct World node exampleTopics settings quietWorld in
  signerAddress (remove0x (user_privateKey settings))
  = signerAddress (user_privateKey settings)
  /\ pollInterval st = 500
  /\ ownAddress (userDetails st) = "address-of-alice"
  /\ keyMatches st.
Proof.
  intros settings st.
  assert (Hprefix : signerAddress (remove0x (user_privateKey settings))
                    = signerAddress (user_privateKey settings))
    by (vm_compute; reflexivity).
  assert (Hform : ethAddressToString (signerAddress (user_privateKey settings))
                  = signerAddress (user_privateKey settings))
    by (vm_compute; reflexivity).
  pose proof (@construct_initial World node exampleTopics settings quietWorld Hprefix Hform)
    as H.
  split; [exact Hprefix|].
  split; [vm_compute; reflexivity|].
  split; [vm_compute; reflexivity|].
  exact (proj2 (proj2 (proj2 (proj2 (proj2 (proj2 (proj2 (proj2 (proj2 (proj2 (proj2
           (proj2 (proj2 (proj2 H)))))))))))))).
Defined.

Lemma send_signs_first_clock_reading_witness :
  let st := session 3 (-1) 3 false quietWorld in
  keyMatches st
  /\ exists obj,
       newMessage "hello" TEXT None (Some "a1") st
       = (Ok obj, set_env (tick (tick quietWorld)) st)
       /\ MessageData.timestamp obj = 1001
       /\ MessageData.signature obj
          = Some (sign "alice"
                       (JSON_stringify [ ("username", JStr "Alice");
                                         ("address", JStr "address-of-alice");
                                         ("message", JStr "hello");
                                         ("timestamp", JNum 1000) ])).
Proof.
  intros st.
  assert (Hk : keyMatches st) by reflexivity.
  split; [exact Hk|].
  destruct (@send_signs_first_clock_reading World node "hello" TEXT None (Some "a1") st Hk)
    as (obj & Hn & Ht & _ & _ & Hs & _).
  exists obj. split; [exact Hn|]. split; [exact Ht | exact Hs].
Defined.

Lemma content_chunk_roundtrip_witness :
  let payload := [Byte.x68; Byte.x69] in
  (forall n, List.length (@Chunks.Span_fromBigInt Chunks.exampleLibrary n) = 8%nat)
  /\ match @Chunks.makeContentAddressedChunk Chunks.exampleLibrary (inl payload) with
     | Chunks.Return c =>
         Chunks.data c
         = [Byte.x02; Byte.x00; Byte.x00; Byte.x00; Byte.x00; Byte.x00; Byte.x00; Byte.x00;
            Byte.x68; Byte.x69]
         /\ Chunks.payload c = payload
     | Chunks.Raise _ => False
     end.
Proof.
  intros payload.
  assert (Hspan : forall n,
             List.length (@Chunks.Span_fromBigInt Chunks.exampleLibrary n)
             = @Chunks.Span_LENGTH Chunks.exampleLibrary)
    by (intros n; reflexivity).
  split; [exact Hspan|].
  pose proof (@content_chunk_roundtrip Chunks.exampleLibrary payload Hspan) as H.
  vm_compute in H. destruct H as (_ & _ & _ & _ & Hp & _).
  vm_compute. split; [reflexivity | exact Hp].
Defined.

Lemma single_owner_chunk_keeps_content_witness :
  let payload := [Byte.x68; Byte.x69] in
  let id := repeat Byte.x01 32 in
  let key := repeat Byte.x02 32 in
  let c := {| Chunks.data := @Chunks.Span_fromBigInt Chunks.exampleLibrary 2 ++ payload;
              Chunks.span := @Chunks.Span_fromBigInt Chunks.exampleLibrary 2;
              Chunks.payload := payload;
              Chunks.address :=
                @Chunks.keccak256 Chunks.exampleLibrary
                  (@Chunks.Span_fromBigInt Chunks.exampleLibrary 2
                     ++ @Chunks.reduceSegments Chunks.exampleLibrary
                          (@Chunks.padded payload)) |}%list in
  @Chunks.makeContentAddressedChunk Chunks.exampleLibrary (inl payload) = Chunks.Return c
  /\ Chunks.soc_payload (@Chunks.makeSingleOwnerChunk Chunks.exampleLibrary c id key)
     = payload
  /\ Chunks.soc_span (@Chunks.makeSingleOwnerChunk Chunks.exampleLibrary c id key)
     = Chunks.span c.
Proof.
  intros payload id key c.
  assert (Hspan : forall n,
             List.length (@Chunks.Span_fromBigInt Chunks.exampleLibrary n)
             = @Chunks.Span_LENGTH Chunks.exampleLibrary)
    by (intros n; reflexivity).
  assert (Hc : @Chunks.makeContentAddressedChunk Chunks.exampleLibrary (inl payload)
               = Chunks.Return c)
    by (vm_compute; reflexivity).
  destruct (@single_owner_chunk_keeps_content Chunks.exampleLibrary payload id key c
              Hspan Hc) as (Hs & Hp & _).
  split; [exact Hc|]. split; [exact Hp | exact Hs].
Defined.

Lemma text_write_target_witness :
  let st := session 2 (-1) 2 false quietWorld in
  let st0 := set_env (tick (tick quietWorld)) st in
  newMessage "hello" TEXT None (Some "a1") st = (Ok aliceHello, st0)
  /\ exists rest,
       store (snd (sendMessage "hello" TEXT None (Some "a1") None st))
       = (store st
            ++ [ReadSingle None (commentOptions st);
                WriteComment (MessageData.withIndex (FeedIndex.toString (Z.max 2 3 + 1))
                                                    aliceHello)
                             (Z.max 2 3 + 1) (commentOptions st)] ++ rest)%list.
Proof.
  intros st st0.
  assert (Hty : TEXT <> REACTION) by discriminate.
  assert (Hs : isSending st = false) by reflexivity.
  assert (Hn : newMessage "hello" TEXT None (Some "a1") st = (Ok aliceHello, st0))
    by (vm_compute; reflexivity).
  assert (Ht : readSingleComment None (commentOptions st) (env st0)
               = (Ok (Some bob3), tick (tick quietWorld)))
    by (vm_compute; reflexivity).
  assert (Hp : indexStrToBigint (MessageData.index bob3) = Ok (Some 3))
    by (vm_compute; reflexivity).
  assert (Hix : 0 < 3 < 2 ^ 64 - 1) by (split; vm_compute; reflexivity).
  assert (Hown : -1 <= ownIndex (userDetails st) < 2 ^ 64 - 1)
    by (split; vm_compute; [discriminate | reflexivity]).
  split; [exact Hn|].
  exact (@text_write_target World node "hello" TEXT None (Some "a1") None st aliceHello st0
           bob3 (tick (tick quietWorld)) 3 Hty Hs Hn Ht Hp Hix Hown).
Defined.

Lemma reaction_write_target_witness :
  let st := session 3 (-1) 3 false longWorld in
  let st0 := set_env (tick (tick longWorld)) st in
  newMessage "+1" REACTION (Some "m3") (Some "r1") st = (Ok reactionR1, st0)
  /\ reactionIndex (snd (sendMessage "+1" REACTION (Some "m3") (Some "r1") None st)) = 5.
Proof.
  intros st st0.
  assert (Hn : newMessage "+1" REACTION (Some "m3") (Some "r1") st = (Ok reactionR1, st0))
    by (vm_compute; reflexivity).
  assert (Ht : readReactionsWithIndex None (reactionOptions st) (env st0)
               = (Ok (reactionState longWorld), tick (tick longWorld)))
    by (vm_compute; reflexivity).
  assert (Hp : indexStrToBigint (Some (nextIndex (reactionState longWorld))) = Ok (Some 5))
    by (vm_compute; reflexivity).
  assert (Hnext : 0 < 5 < 2 ^ 64 - 1) by (split; vm_compute; reflexivity).
  assert (Hown : -1 <= reactionIndex st < 2 ^ 64 - 1)
    by (split; vm_compute; [discriminate | reflexivity]).
  split; [exact Hn|].
  pose proof (proj2 (@reaction_write_target World node "+1" (Some "m3") (Some "r1") None st
                       reactionR1 st0 (reactionState longWorld) (tick (tick longWorld)) 5
                       Hn Ht Hp Hnext Hown)) as H.
  vm_compute in H. vm_compute. exact H.
Defined.
